(** * Luckfox Lyra I2C keyboard and mouse driver: event translation core

    Shallow embedding of [drivers/input/keyboard/lyra_i2c_keyboard.c].

    The driver polls a peripheral over I2C and turns register contents into
    input events.  Every function of the driver becomes a function on a
    [world]: the driver data ([struct lyra_kbd_data]), the peripheral seen
    as an oracle answering register reads, the log of reads performed, the
    calls made to the input layer and the arming requests of the delayed
    work.  Kernel logging ([dev_info], [dev_warn], [dev_err], [dev_dbg]) has
    no effect on any of these and is left out. *)

From Stdlib Require Import ZArith Bool String Lia.
From stdpp Require Import base list gmap.
From Equations Require Import Equations.

Local Open Scope Z_scope.

(** ** Integer conversions of the C code *)

(** [(u8)x] *)
Definition u8 (x : Z) : Z := x mod 256.

(** [(s8)x]: the low byte read as two's complement *)
Definition s8 (x : Z) : Z :=
  let b := x mod 256 in if b <? 128 then b else b - 256.

(** 32-bit signed wrap-around of an [int] result *)
Definition s32 (x : Z) : Z :=
  let b := x mod 4294967296 in if b <? 2147483648 then b else b - 4294967296.

(** [BIT(n)] *)
Definition BIT (n : Z) : Z := Z.shiftl 1 n.

(** ** Register map and protocol constants *)

Definition REG_KEY_STATUS : Z := 0x00.
Definition REG_FIFO_ACCESS : Z := 0x01.
Definition REG_MOUSE_X : Z := 0x02.
Definition REG_MOUSE_Y : Z := 0x03.
Definition REG_INT_STATUS : Z := 0x04.

Definition KEY_STATUS_SHIFT_BIT : Z := BIT 0.
Definition KEY_STATUS_ALT_BIT : Z := BIT 1.
Definition KEY_STATUS_FN_BIT : Z := BIT 2.

Definition FIFO_EVENT_TYPE_MASK : Z := 0x03.
Definition FIFO_EVENT_NONE : Z := 0x00.
Definition FIFO_EVENT_PRESS : Z := 0x01.
Definition FIFO_EVENT_HOLD : Z := 0x02.
Definition FIFO_EVENT_RELEASE : Z := 0x03.
Definition FIFO_KEYCODE_MASK : Z := 0xFC.
Definition FIFO_KEYCODE_SHIFT : Z := 2.

Definition INT_STATUS_FIFO_OVERFLOW : Z := BIT 0.
Definition INT_STATUS_SHIFT_CHANGE : Z := BIT 1.
Definition INT_STATUS_FN_CHANGE : Z := BIT 2.
Definition INT_STATUS_ALT_CHANGE : Z := BIT 3.
Definition INT_STATUS_KEY_EVENT : Z := BIT 4.
Definition INT_STATUS_MOUSE_EVENT : Z := BIT 5.
Definition INT_STATUS_POWER_BTN : Z := BIT 6.

Definition MAX_KEYCODES : Z := 53.
Definition POLL_INTERVAL_MS : Z := 10.
Definition FIFO_MAX_READ : Z := 16.

Definition EINVAL : Z := 22.

(** ** Linux input event codes

    The driver names its logical keys through the constants of the kernel
    header [include/uapi/linux/input-event-codes.h], which belongs to the
    kernel and not to the driver.  The values below are the ones of that
    header (a stable user-space ABI); [KEY_RESERVED], the only key code that
    is zero, is not used by the driver. *)
Module Codes.
Definition EV_MSC : Z := 0x04.
Definition MSC_SCAN : Z := 0x04.
Definition REL_X : Z := 0x00.
Definition REL_Y : Z := 0x01.

Definition KEY_RESERVED : Z := 0.
Definition KEY_ESC : Z := 1.
Definition KEY_1 : Z := 2.
Definition KEY_2 : Z := 3.
Definition KEY_3 : Z := 4.
Definition KEY_4 : Z := 5.
Definition KEY_5 : Z := 6.
Definition KEY_6 : Z := 7.
Definition KEY_7 : Z := 8.
Definition KEY_8 : Z := 9.
Definition KEY_9 : Z := 10.
Definition KEY_0 : Z := 11.
Definition KEY_MINUS : Z := 12.
Definition KEY_EQUAL : Z := 13.
Definition KEY_BACKSPACE : Z := 14.
Definition KEY_TAB : Z := 15.
Definition KEY_Q : Z := 16.
Definition KEY_W : Z := 17.
Definition KEY_E : Z := 18.
Definition KEY_R : Z := 19.
Definition KEY_T : Z := 20.
Definition KEY_Y : Z := 21.
Definition KEY_U : Z := 22.
Definition KEY_I : Z := 23.
Definition KEY_O : Z := 24.
Definition KEY_P : Z := 25.
Definition KEY_LEFTBRACE : Z := 26.
Definition KEY_RIGHTBRACE : Z := 27.
Definition KEY_ENTER : Z := 28.
Definition KEY_LEFTCTRL : Z := 29.
Definition KEY_A : Z := 30.
Definition KEY_S : Z := 31.
Definition KEY_D : Z := 32.
Definition KEY_F : Z := 33.
Definition KEY_G : Z := 34.
Definition KEY_H : Z := 35.
Definition KEY_J : Z := 36.
Definition KEY_K : Z := 37.
Definition KEY_L : Z := 38.
Definition KEY_SEMICOLON : Z := 39.
Definition KEY_APOSTROPHE : Z := 40.
Definition KEY_GRAVE : Z := 41.
Definition KEY_LEFTSHIFT : Z := 42.
Definition KEY_BACKSLASH : Z := 43.
Definition KEY_Z : Z := 44.
Definition KEY_X : Z := 45.
Definition KEY_C : Z := 46.
Definition KEY_V : Z := 47.
Definition KEY_B : Z := 48.
Definition KEY_N : Z := 49.
Definition KEY_M : Z := 50.
Definition KEY_COMMA : Z := 51.
Definition KEY_DOT : Z := 52.
Definition KEY_SLASH : Z := 53.
Definition KEY_RIGHTSHIFT : Z := 54.
Definition KEY_LEFTALT : Z := 56.
Definition KEY_SPACE : Z := 57.
Definition KEY_F1 : Z := 59.
Definition KEY_F2 : Z := 60.
Definition KEY_F3 : Z := 61.
Definition KEY_F4 : Z := 62.
Definition KEY_F5 : Z := 63.
Definition KEY_F6 : Z := 64.
Definition KEY_F7 : Z := 65.
Definition KEY_F8 : Z := 66.
Definition KEY_F9 : Z := 67.
Definition KEY_F10 : Z := 68.
Definition KEY_102ND : Z := 86.
Definition KEY_F11 : Z := 87.
Definition KEY_F12 : Z := 88.
Definition KEY_HOME : Z := 102.
Definition KEY_UP : Z := 103.
Definition KEY_LEFT : Z := 105.
Definition KEY_RIGHT : Z := 106.
Definition KEY_END : Z := 107.
Definition KEY_DOWN : Z := 108.
Definition KEY_POWER : Z := 116.
Definition BTN_LEFT : Z := 0x110.
Definition BTN_RIGHT : Z := 0x111.
Definition BTN_MIDDLE : Z := 0x112.
Definition KEY_FN : Z := 0x1d0.
End Codes.
Import Codes.

(** ** Driver data *)

(** [struct lyra_kbd_data], without the handles to kernel objects
    ([client], [kbd_input], [mouse_input], [poll_work]), which appear in
    [world] below. *)
Record lyra_kbd_data : Type := mk_kbd {
  last_key_pressed : list Z;     (* unsigned short [MAX_KEYCODES] *)
  mouse_speed_x : Z;             (* int, percent *)
  mouse_speed_y : Z;             (* int, percent *)
  power_btn_pressed : bool;
  poll_interval_ms : Z           (* unsigned int *)
}.

(** The two input devices the driver registers. *)
Inductive input_dev : Type := kbd_input | mouse_input.

(** Calls into the input layer. *)
Inductive sink_call : Type :=
| InputEvent (dev : input_dev) (type code value : Z)
| ReportKey (dev : input_dev) (code : Z) (value : bool)
| ReportRel (dev : input_dev) (code : Z) (value : Z)
| Sync (dev : input_dev).

(** The state every driver function runs in.
    - [bus n reg] is what the peripheral answers to the [n]-th register
      read of the run when that read addresses [reg]: a byte, or a negative
      errno when the transfer fails;
    - [reads] logs the reads performed so far, oldest first, as
      (register, answer);
    - [out] logs the calls to the input layer, oldest first;
    - [timer] logs the delays (in ms) [poll_work] was armed with. *)
Record world : Type := mk_world {
  kbd : lyra_kbd_data;
  bus : nat -> Z -> Z;
  reads : list (Z * Z);
  out : list sink_call;
  timer : list Z
}.

Definition with_kbd (k : lyra_kbd_data) (w : world) : world :=
  mk_world k (bus w) (reads w) (out w) (timer w).

Definition emit (c : sink_call) (w : world) : world :=
  mk_world (kbd w) (bus w) (reads w) (out w ++ [c]) (timer w).

Definition input_event (dev : input_dev) (type code value : Z) : world -> world :=
  emit (InputEvent dev type code value).
Definition input_report_key (dev : input_dev) (code : Z) (value : bool) : world -> world :=
  emit (ReportKey dev code value).
Definition input_report_rel (dev : input_dev) (code : Z) (value : Z) : world -> world :=
  emit (ReportRel dev code value).
Definition input_sync (dev : input_dev) : world -> world :=
  emit (Sync dev).

(** [schedule_delayed_work(&kbd->poll_work, msecs_to_jiffies(ms))] *)
Definition schedule_delayed_work (ms : Z) (w : world) : world :=
  mk_world (kbd w) (bus w) (reads w) (out w) (timer w ++ [ms]).

(** [kbd->last_key_pressed[keycode] = key] *)
Definition set_last_key_pressed (keycode key : Z) (w : world) : world :=
  let k := kbd w in
  with_kbd (mk_kbd (<[Z.to_nat keycode := key]> (last_key_pressed k))
                   (mouse_speed_x k) (mouse_speed_y k)
                   (power_btn_pressed k) (poll_interval_ms k)) w.

(** [kbd->last_key_pressed[keycode]] *)
Definition get_last_key_pressed (keycode : Z) (w : world) : Z :=
  last_key_pressed (kbd w) !!! Z.to_nat keycode.

(** [kbd->power_btn_pressed = pressed] *)
Definition set_power_btn_pressed (pressed : bool) (w : world) : world :=
  let k := kbd w in
  with_kbd (mk_kbd (last_key_pressed k) (mouse_speed_x k) (mouse_speed_y k)
                   pressed (poll_interval_ms k)) w.

(** ** Keymap tables *)

Definition keymap_normal : list Z := [
  KEY_4; KEY_5; KEY_7; KEY_6; KEY_8; KEY_9; KEY_0;
  KEY_R; KEY_T; KEY_U; KEY_Y; KEY_I; KEY_O; KEY_P;
  KEY_F; KEY_G; KEY_COMMA; KEY_H; KEY_DOT; KEY_L; KEY_ENTER;
  KEY_3; KEY_E; KEY_C; KEY_D; KEY_LEFTSHIFT; KEY_M; KEY_SPACE;
  KEY_2; KEY_ESC; KEY_LEFTALT; KEY_TAB; KEY_V; KEY_LEFTCTRL; KEY_BACKSPACE;
  KEY_1; KEY_Q; KEY_FN; KEY_Z; KEY_B; KEY_N; KEY_RIGHTSHIFT;
  KEY_W; KEY_A; KEY_S; KEY_X; KEY_J; KEY_K;
  BTN_LEFT; KEY_DOWN; KEY_UP; KEY_RIGHT; KEY_LEFT ].

Definition keymap_shift : list Z := [
  KEY_4; KEY_5; KEY_7; KEY_6; KEY_8; KEY_9; KEY_0;
  KEY_R; KEY_T; KEY_U; KEY_Y; KEY_I; KEY_O; KEY_P;
  KEY_F; KEY_G; KEY_COMMA; KEY_H; KEY_DOT; KEY_L; KEY_ENTER;
  KEY_3; KEY_E; KEY_C; KEY_D; KEY_LEFTSHIFT; KEY_M; KEY_SPACE;
  KEY_2; KEY_ESC; KEY_LEFTALT; KEY_TAB; KEY_V; KEY_LEFTCTRL; KEY_BACKSPACE;
  KEY_1; KEY_Q; KEY_FN; KEY_Z; KEY_B; KEY_N; KEY_RIGHTSHIFT;
  KEY_W; KEY_A; KEY_S; KEY_X; KEY_J; KEY_K;
  BTN_RIGHT; KEY_DOWN; KEY_UP; KEY_RIGHT; KEY_LEFT ].

Definition keymap_fn : list Z := [
  KEY_F4; KEY_F5; KEY_F7; KEY_F6; KEY_F8; KEY_F9; KEY_F10;
  KEY_MINUS; KEY_MINUS; KEY_EQUAL; KEY_EQUAL; KEY_BACKSLASH; KEY_F11; KEY_F12;
  KEY_APOSTROPHE; KEY_LEFTBRACE; KEY_SLASH; KEY_RIGHTBRACE; KEY_END; KEY_HOME; KEY_ENTER;
  KEY_F3; KEY_GRAVE; KEY_SEMICOLON; KEY_SEMICOLON; KEY_LEFTSHIFT; KEY_SLASH; KEY_SPACE;
  KEY_F2; KEY_ESC; KEY_LEFTALT; KEY_TAB; KEY_APOSTROPHE; KEY_LEFTCTRL; KEY_BACKSPACE;
  KEY_F1; KEY_GRAVE; KEY_FN; KEY_102ND; KEY_LEFTBRACE; KEY_RIGHTBRACE; KEY_RIGHTSHIFT;
  KEY_UP; KEY_LEFT; KEY_RIGHT; KEY_DOWN; KEY_A; KEY_B;
  BTN_MIDDLE; KEY_DOWN; KEY_UP; KEY_RIGHT; KEY_LEFT ].

(** ** Register access *)

(** [lyra_kbd_read_reg]: one [i2c_smbus_read_byte_data] transfer.  The
    answer is the peripheral's for this read; the read is logged. *)
Definition lyra_kbd_read_reg (reg : Z) (w : world) : Z * world :=
  let ret := bus w (length (reads w)) reg in
  (ret, mk_world (kbd w) (bus w) (reads w ++ [(reg, ret)]) (out w) (timer w)).

(** ** Key events *)

Definition lyra_kbd_process_key_event (keycode : Z) (pressed : bool)
    (w : world) : world :=
  if MAX_KEYCODES <=? keycode then w
  else
    let '(ret, w) := lyra_kbd_read_reg REG_KEY_STATUS w in
    if ret <? 0 then w
    else
      let key_status := u8 ret in
      let shift := negb (Z.land key_status KEY_STATUS_SHIFT_BIT =? 0) in
      let alt := negb (Z.land key_status KEY_STATUS_ALT_BIT =? 0) in
      let fn := negb (Z.land key_status KEY_STATUS_FN_BIT =? 0) in
      if (keycode =? 25) || (keycode =? 41) then w
      else if keycode =? 30 then w
      else if keycode =? 33 then
        input_sync kbd_input (input_report_key kbd_input KEY_LEFTCTRL pressed w)
      else if keycode =? 37 then w
      else
        let w :=
          if pressed then
            let key :=
              if fn then keymap_fn !!! Z.to_nat keycode
              else if shift then keymap_shift !!! Z.to_nat keycode
              else keymap_normal !!! Z.to_nat keycode in
            let w := set_last_key_pressed keycode key w in
            let w := input_event kbd_input EV_MSC MSC_SCAN keycode w in
            input_report_key kbd_input key true w
          else
            let key := get_last_key_pressed keycode w in
            let key :=
              if key =? 0 then
                if fn then keymap_fn !!! Z.to_nat keycode
                else if shift then keymap_shift !!! Z.to_nat keycode
                else keymap_normal !!! Z.to_nat keycode
              else key in
            let w := input_event kbd_input EV_MSC MSC_SCAN keycode w in
            let w := input_report_key kbd_input key false w in
            set_last_key_pressed keycode 0 w in
        input_sync kbd_input w.

(** ** FIFO drain *)

(** How one pass through the body of the drain loop ends: at the [next]
    label (the counter is incremented and the loop condition tested again),
    with [break], or with [return]. *)
Inductive loop_exit : Type := Next | Break | Return.

(** The body of the [while] loop of [lyra_kbd_process_fifo]. *)
Definition fifo_body (w : world) : loop_exit * world :=
  let '(ret, w) := lyra_kbd_read_reg REG_FIFO_ACCESS w in
  if ret <? 0 then (Return, w)
  else
    let fifo_data := u8 ret in
    let event_type := Z.land fifo_data FIFO_EVENT_TYPE_MASK in
    let keycode := Z.shiftr (Z.land fifo_data FIFO_KEYCODE_MASK) FIFO_KEYCODE_SHIFT in
    if event_type =? FIFO_EVENT_NONE then (Break, w)
    else if event_type =? FIFO_EVENT_PRESS then
      (Next, lyra_kbd_process_key_event keycode true w)
    else if event_type =? FIFO_EVENT_RELEASE then
      (Next, lyra_kbd_process_key_event keycode false w)
    else if event_type =? FIFO_EVENT_HOLD then (Next, w)
    else (Next, w).

(** [while (i < FIFO_MAX_READ) { body; i++; }] *)
Equations? fifo_loop (i : Z) (w : world) : world
  by wf (Z.to_nat (FIFO_MAX_READ - i)) lt :=
  fifo_loop i w with Z_lt_dec i FIFO_MAX_READ => {
    | right _ := w;
    | left _ with fifo_body w => {
      | (Next, w') := fifo_loop (i + 1) w';
      | (Break, w') := w';
      | (Return, w') := w' } }.
Proof. unfold FIFO_MAX_READ in *. lia. Qed.

Definition lyra_kbd_process_fifo (w : world) : world := fifo_loop 0 w.

(** ** Mouse *)

Definition lyra_kbd_process_mouse (w : world) : world :=
  let '(ret, w) := lyra_kbd_read_reg REG_MOUSE_X w in
  if ret <? 0 then w
  else
    let delta_x := s8 ret in
    let '(ret, w) := lyra_kbd_read_reg REG_MOUSE_Y w in
    if ret <? 0 then w
    else
      let delta_y := s8 ret in
      let w :=
        if negb (delta_x =? 0) then
          let adjusted_x := Z.quot (s32 (delta_x * mouse_speed_x (kbd w))) 100 in
          let adjusted_x :=
            if (adjusted_x =? 0) && negb (delta_x =? 0)
            then (if 0 <? delta_x then 1 else -1)
            else adjusted_x in
          input_report_rel mouse_input REL_X adjusted_x w
        else w in
      let w :=
        if negb (delta_y =? 0) then
          let adjusted_y := Z.quot (s32 (delta_y * mouse_speed_y (kbd w))) 100 in
          let adjusted_y :=
            if (adjusted_y =? 0) && negb (delta_y =? 0)
            then (if 0 <? delta_y then 1 else -1)
            else adjusted_y in
          input_report_rel mouse_input REL_Y adjusted_y w
        else w in
      if negb (delta_x =? 0) || negb (delta_y =? 0)
      then input_sync mouse_input w
      else w.

(** ** Power button *)

Definition lyra_kbd_process_power_button (pressed : bool) (w : world) : world :=
  if negb (Bool.eqb (power_btn_pressed (kbd w)) pressed) then
    let w := set_power_btn_pressed pressed w in
    let w := input_report_key kbd_input KEY_POWER pressed w in
    input_sync kbd_input w
  else w.

(** ** Modifier synchronisation *)

Definition lyra_kbd_sync_modifiers (w : world) : world :=
  let '(ret, w) := lyra_kbd_read_reg REG_KEY_STATUS w in
  if ret <? 0 then w
  else
    let key_status := u8 ret in
    let shift := negb (Z.land key_status KEY_STATUS_SHIFT_BIT =? 0) in
    let alt := negb (Z.land key_status KEY_STATUS_ALT_BIT =? 0) in
    let w := input_report_key kbd_input KEY_LEFTSHIFT shift w in
    let w := input_report_key kbd_input KEY_LEFTALT alt w in
    input_sync kbd_input w.

(** ** Poll work *)

(** The part of [lyra_kbd_poll_work] before the [reschedule] label. *)
Definition poll_dispatch (w : world) : world :=
  let '(ret, w) := lyra_kbd_read_reg REG_INT_STATUS w in
  if ret <? 0 then w
  else
    let int_status := u8 ret in
    let w :=
      if negb (Z.land int_status
                 (Z.lor (Z.lor INT_STATUS_SHIFT_CHANGE INT_STATUS_ALT_CHANGE)
                        INT_STATUS_FN_CHANGE) =? 0)
      then lyra_kbd_sync_modifiers w else w in
    let w :=
      if negb (Z.land int_status INT_STATUS_KEY_EVENT =? 0)
      then lyra_kbd_process_fifo w else w in
    let w :=
      if negb (Z.land int_status INT_STATUS_MOUSE_EVENT =? 0)
      then lyra_kbd_process_mouse w else w in
    if negb (Z.land int_status INT_STATUS_POWER_BTN =? 0)
    then lyra_kbd_process_power_button (negb (power_btn_pressed (kbd w))) w
    else w.

Definition lyra_kbd_poll_work (w : world) : world :=
  let w := poll_dispatch w in
  schedule_delayed_work (poll_interval_ms (kbd w)) w.

(** ** Sysfs attributes *)

Section Sysfs.

(** [kstrtoint(buf, 10, &val)] and [kstrtouint(buf, 10, &val)] are kernel
    library functions: [Some val] stands for a return of 0 with [val]
    written, [None] for a non-zero return (malformed or out-of-range
    text). *)
Variable kstrtoint : string -> Z -> option Z.
Variable kstrtouint : string -> Z -> option Z.

Definition mouse_speed_x_store (buf : string) (count : Z) (k : lyra_kbd_data)
    : Z * lyra_kbd_data :=
  match kstrtoint buf 10 with
  | None => (- EINVAL, k)
  | Some val =>
      if (val <? 10) || (500 <? val) then (- EINVAL, k)
      else (count, mk_kbd (last_key_pressed k) val (mouse_speed_y k)
                          (power_btn_pressed k) (poll_interval_ms k))
  end.

Definition mouse_speed_y_store (buf : string) (count : Z) (k : lyra_kbd_data)
    : Z * lyra_kbd_data :=
  match kstrtoint buf 10 with
  | None => (- EINVAL, k)
  | Some val =>
      if (val <? 10) || (500 <? val) then (- EINVAL, k)
      else (count, mk_kbd (last_key_pressed k) (mouse_speed_x k) val
                          (power_btn_pressed k) (poll_interval_ms k))
  end.

Definition poll_interval_store (buf : string) (count : Z) (k : lyra_kbd_data)
    : Z * lyra_kbd_data :=
  match kstrtouint buf 10 with
  | None => (- EINVAL, k)
  | Some val =>
      if (val <? 5) || (100 <? val) then (- EINVAL, k)
      else (count, mk_kbd (last_key_pressed k) (mouse_speed_x k) (mouse_speed_y k)
                          (power_btn_pressed k) val)
  end.

End Sysfs.

(** ** Probe *)

(** The driver data as [lyra_kbd_probe] leaves it: zeroed by
    [devm_kzalloc], then the three tunables set. *)
Definition probe_kbd : lyra_kbd_data :=
  mk_kbd (replicate (Z.to_nat MAX_KEYCODES) 0) 100 100 false POLL_INTERVAL_MS.

(** A world right after probe, in front of a peripheral [b]. *)
Definition probe_world (b : nat -> Z -> Z) : world :=
  mk_world probe_kbd b [] [] [].

(** ** Input device registration *)

(** Further constants of the kernel headers, used when the devices are
    described and when probe fails. *)
Definition EV_SYN : Z := 0x00.
Definition EV_KEY : Z := 0x01.
Definition EV_REL : Z := 0x02.
Definition EV_REP : Z := 0x14.
Definition REL_WHEEL : Z := 0x08.
Definition BUS_I2C : Z := 0x18.
Definition EIO : Z := 5.
Definition ENOMEM : Z := 12.

(** The part of [struct input_dev] the driver fills in: identity and the
    capability bitmaps, each bitmap being the set of its set bits. *)
Record input_device : Type := mk_input_device {
  dev_name : string;
  dev_phys : string;
  id_bustype : Z;
  id_vendor : Z;
  id_product : Z;
  id_version : Z;
  evbit : gset Z;
  keybit : gset Z;
  relbit : gset Z;
  mscbit : gset Z
}.

(** A device as [devm_input_allocate_device] returns it. *)
Definition blank_device : input_device :=
  mk_input_device EmptyString EmptyString 0 0 0 0 ∅ ∅ ∅ ∅.

Definition set_identity (name phys : string) (bustype vendor product version : Z)
    (d : input_device) : input_device :=
  mk_input_device name phys bustype vendor product version
                  (evbit d) (keybit d) (relbit d) (mscbit d).

(** [__set_bit(nr, dev->evbit)] and its siblings. *)
Definition set_evbit (nr : Z) (d : input_device) : input_device :=
  mk_input_device (dev_name d) (dev_phys d) (id_bustype d) (id_vendor d)
                  (id_product d) (id_version d)
                  ({[nr]} ∪ evbit d) (keybit d) (relbit d) (mscbit d).
Definition set_keybit (nr : Z) (d : input_device) : input_device :=
  mk_input_device (dev_name d) (dev_phys d) (id_bustype d) (id_vendor d)
                  (id_product d) (id_version d)
                  (evbit d) ({[nr]} ∪ keybit d) (relbit d) (mscbit d).
Definition set_relbit (nr : Z) (d : input_device) : input_device :=
  mk_input_device (dev_name d) (dev_phys d) (id_bustype d) (id_vendor d)
                  (id_product d) (id_version d)
                  (evbit d) (keybit d) ({[nr]} ∪ relbit d) (mscbit d).
Definition set_mscbit (nr : Z) (d : input_device) : input_device :=
  mk_input_device (dev_name d) (dev_phys d) (id_bustype d) (id_vendor d)
                  (id_product d) (id_version d)
                  (evbit d) (keybit d) (relbit d) ({[nr]} ∪ mscbit d).

(** How the kernel answers the calls of probe that can fail:
    [i2c_check_functionality], [devm_kzalloc], the two
    [devm_input_allocate_device] ([false] for NULL), the two
    [input_register_device] and [sysfs_create_group] (0 or an error). *)
Record kernel_answers : Type := mk_answers {
  i2c_functionality : bool;
  kzalloc_ok : bool;
  alloc_kbd_ok : bool;
  register_kbd : Z;
  alloc_mouse_ok : bool;
  register_mouse : Z;
  sysfs_create : Z
}.

(** The two device pointers of the driver data ([None] for NULL) and the
    devices handed to [input_register_device] with success, in order. *)
Record input_devices : Type := mk_devices {
  kbd_input_dev : option input_device;
  mouse_input_dev : option input_device;
  registered : list input_device
}.

Definition no_devices : input_devices := mk_devices None None [].

(** The body of [for (i = 0; i < MAX_KEYCODES; i++)] in
    [lyra_kbd_setup_input_devices]. *)
Definition set_keymap_bits (d : input_device) (i : nat) : input_device :=
  let d := set_keybit (keymap_normal !!! i) d in
  let d := set_keybit (keymap_shift !!! i) d in
  set_keybit (keymap_fn !!! i) d.

Definition lyra_kbd_setup_input_devices (env : kernel_answers)
    (devs : input_devices) : Z * input_devices :=
  if negb (alloc_kbd_ok env) then (- ENOMEM, devs)
  else
    let kbd_input := blank_device in
    let kbd_input :=
      set_identity "Luckfox Lyra Keyboard" "i2c-keyboard/input0"
                   BUS_I2C 0x1234 0x5678 0x0100 kbd_input in
    let kbd_input := set_evbit EV_KEY kbd_input in
    let kbd_input := set_evbit EV_REP kbd_input in
    let kbd_input := set_evbit EV_MSC kbd_input in
    let kbd_input := set_mscbit MSC_SCAN kbd_input in
    let kbd_input :=
      fold_left set_keymap_bits (seq 0 (Z.to_nat MAX_KEYCODES)) kbd_input in
    let kbd_input := set_keybit KEY_POWER kbd_input in
    let error := register_kbd env in
    if negb (error =? 0) then (error, devs)
    else
      let devs := mk_devices (Some kbd_input) (mouse_input_dev devs)
                             (registered devs ++ [kbd_input]) in
      if negb (alloc_mouse_ok env) then (- ENOMEM, devs)
      else
        let mouse_input := blank_device in
        let mouse_input :=
          set_identity "Luckfox Lyra Mouse" "i2c-keyboard/input1"
                       BUS_I2C 0x1234 0x5679 0x0100 mouse_input in
        let mouse_input := set_evbit EV_REL mouse_input in
        let mouse_input := set_relbit REL_X mouse_input in
        let mouse_input := set_relbit REL_Y mouse_input in
        let mouse_input := set_relbit REL_WHEEL mouse_input in
        let mouse_input := set_evbit EV_KEY mouse_input in
        let mouse_input := set_keybit BTN_LEFT mouse_input in
        let mouse_input := set_keybit BTN_RIGHT mouse_input in
        let mouse_input := set_keybit BTN_MIDDLE mouse_input in
        let error := register_mouse env in
        if negb (error =? 0) then (error, devs)
        else
          (0, mk_devices (kbd_input_dev devs) (Some mouse_input)
                         (registered devs ++ [mouse_input])).

(** [lyra_kbd_probe], run in a world [w] that supplies the peripheral and
    the logs; the driver data of [w] stands for the memory [devm_kzalloc]
    hands out and is overwritten.  The result is the return value, the
    world and the devices as probe leaves them. *)
Definition lyra_kbd_probe (env : kernel_answers) (w : world)
    : Z * world * input_devices :=
  if negb (i2c_functionality env) then (- EIO, w, no_devices)
  else if negb (kzalloc_ok env) then (- ENOMEM, w, no_devices)
  else
    let k := mk_kbd (replicate (Z.to_nat MAX_KEYCODES) 0) 0 0 false 0 in
    let k := mk_kbd (last_key_pressed k) 100 (mouse_speed_y k)
                    (power_btn_pressed k) (poll_interval_ms k) in
    let k := mk_kbd (last_key_pressed k) (mouse_speed_x k) 100
                    (power_btn_pressed k) (poll_interval_ms k) in
    let k := mk_kbd (last_key_pressed k) (mouse_speed_x k) (mouse_speed_y k)
                    (power_btn_pressed k) POLL_INTERVAL_MS in
    let w := with_kbd k w in
    let '(error, devs) := lyra_kbd_setup_input_devices env no_devices in
    if negb (error =? 0) then (error, w, devs)
    else
      let error := sysfs_create env in
      if negb (error =? 0) then (error, w, devs)
      else
        let w := lyra_kbd_sync_modifiers w in
        let w := schedule_delayed_work (poll_interval_ms (kbd w)) w in
        (0, w, devs).

(** [lyra_kbd_resume]: polling starts again at the configured interval. *)
Definition lyra_kbd_resume (w : world) : Z * world :=
  (0, schedule_delayed_work (poll_interval_ms (kbd w)) w).


(** ** Sample peripherals *)

(** No modifier at the first read of the run, shift from then on; key 48 is
    the left mouse button on the normal layer and the right one on the
    shift layer. *)
Definition shift_comes_late : world :=
  probe_world (fun n _ => match n with O => 0 | _ => 1 end).

(** Shift and fn both held. *)
Definition fn_and_shift : world := probe_world (fun _ _ => 5).

(** One step right, one step up, at a tenth of the speed. *)
Definition slow_mouse : world :=
  mk_world (mk_kbd (replicate (Z.to_nat MAX_KEYCODES) 0) 10 10 false POLL_INTERVAL_MS)
           (fun _ reg => if reg =? REG_MOUSE_X then 1 else 255) [] [] [].

(** The interrupt status always shows the power-button bit alone. *)
Definition power_only : world := probe_world (fun _ _ => 64).

(** The queue always holds a Hold entry for keycode 5. *)
Definition hold_5 : world := probe_world (fun _ _ => 22).

(** The queue holds a Press entry for keycode 5, and the key-status
    register cannot be read. *)
Definition press_5_status_down : world :=
  probe_world (fun _ reg => if reg =? REG_FIFO_ACCESS then 21 else -5).

(** ** Vocabulary of the properties *)

(** The keycode positions of the modifier keys, which are never resolved
    through the keymap layers: left shift, right shift, alt, fn, ctrl. *)
Definition modifier_exclusion : list Z := [25; 41; 30; 37; 33].

Definition is_modifier_position (keycode : Z) : bool :=
  existsb (Z.eqb keycode) modifier_exclusion.

(** Modifier snapshot carried by a key-status byte. *)
Definition shift_active (key_status : Z) : bool := Z.testbit key_status 0.
Definition alt_active (key_status : Z) : bool := Z.testbit key_status 1.
Definition fn_active (key_status : Z) : bool := Z.testbit key_status 2.

(** The layers, by name. *)
Inductive layer : Type := Normal | Shift | Fn.

Definition layer_table (l : layer) : list Z :=
  match l with
  | Normal => keymap_normal
  | Shift => keymap_shift
  | Fn => keymap_fn
  end.

(** Layer chosen by priority fn > shift > normal. *)
Definition layer_of (key_status : Z) : layer :=
  if fn_active key_status then Fn
  else if shift_active key_status then Shift
  else Normal.

(** Logical key of [keycode] under the modifiers of [key_status]. *)
Definition resolve (key_status keycode : Z) : Z :=
  layer_table (layer_of key_status) !!! Z.to_nat keycode.

(** The calls one reported key event consists of. *)
Definition key_report (keycode key : Z) (pressed : bool) : list sink_call :=
  [InputEvent kbd_input EV_MSC MSC_SCAN keycode;
   ReportKey kbd_input key pressed;
   Sync kbd_input].

(** PressState is the array [last_key_pressed]; it has [MAX_KEYCODES]
    slots. *)
Definition kbd_wf (k : lyra_kbd_data) : Prop :=
  length (last_key_pressed k) = Z.to_nat MAX_KEYCODES.

(** Reads of the queue-entry register among logged reads. *)
Definition is_fifo_read (r : Z * Z) : bool := fst r =? REG_FIFO_ACCESS.

Definition fifo_read_count (rs : list (Z * Z)) : nat :=
  length (List.filter is_fifo_read rs).

(** Event type and keycode carried by a queue entry. *)
Definition entry_type (fifo_data : Z) : Z := Z.land (u8 fifo_data) 3.
Definition entry_keycode (fifo_data : Z) : Z := Z.shiftr (u8 fifo_data) 2.

(** The scaled motion amount, in the words of the specification:
    [(delta * speed_percent) / 100] truncated toward zero, forced to
    [sign(delta) * 1] when the quotient is zero. *)
Definition scaled_amount (delta speed_percent : Z) : Z :=
  let q := Z.quot (delta * speed_percent) 100 in
  if q =? 0 then Z.sgn delta * 1 else q.

(** The amount as the driver computes it for a delta and a speed. *)
Definition adjusted (delta speed : Z) : Z :=
  let a := Z.quot (s32 (delta * speed)) 100 in
  if (a =? 0) && negb (delta =? 0)
  then (if 0 <? delta then 1 else -1)
  else a.

(** The relative-motion calls of one axis. *)
Definition axis_report (axis delta speed : Z) : list sink_call :=
  if delta =? 0 then []
  else [ReportRel mouse_input axis (adjusted delta speed)].

Definition is_rel_on (axis : Z) (c : sink_call) : bool :=
  match c with
  | ReportRel _ code _ => code =? axis
  | _ => false
  end.

(** What event processing leaves alone: the peripheral, the arming log and
    the tunables; the power-button state (changed by the power-button
    detector only); the size of PressState.  The two logs only grow. *)
Record frame (w w' : world) : Prop := mk_frame {
  frame_bus : bus w' = bus w;
  frame_timer : timer w' = timer w;
  frame_speed_x : mouse_speed_x (kbd w') = mouse_speed_x (kbd w);
  frame_speed_y : mouse_speed_y (kbd w') = mouse_speed_y (kbd w);
  frame_interval : poll_interval_ms (kbd w') = poll_interval_ms (kbd w);
  frame_power : power_btn_pressed (kbd w') = power_btn_pressed (kbd w);
  frame_wf : kbd_wf (kbd w) -> kbd_wf (kbd w');
  frame_reads : exists rs, reads w' = reads w ++ rs;
  frame_out : exists cs, out w' = out w ++ cs
}.

(** What a PressState slot may hold: 0 when empty, an entry of one of the
    layers otherwise. *)
Definition slot_value_ok (v : Z) : Prop := v = 0 \/ exists l, v ∈ layer_table l.

Definition press_state_ok (k : lyra_kbd_data) : Prop :=
  kbd_wf k /\ Forall slot_value_ok (last_key_pressed k).

(** The states of the power key found in a sequence of calls to the input
    layer, in order. *)
Definition power_report (c : sink_call) : option bool :=
  match c with
  | ReportKey _ code value => if code =? KEY_POWER then Some value else None
  | _ => None
  end.

Definition power_reports (cs : list sink_call) : list bool := omap power_report cs.

(** Processing that keeps PressState within [press_state_ok] and reports
    nothing about the power key. *)
Record quiet (w w' : world) : Prop := mk_quiet {
  quiet_press_state : press_state_ok (kbd w) -> press_state_ok (kbd w');
  quiet_out : press_state_ok (kbd w) ->
              exists cs, out w' = out w ++ cs /\ power_reports cs = []
}.

(** At most [n] reads of the queue-entry register between two worlds. *)
Definition fifo_reads_le (n : nat) (w w' : world) : Prop :=
  exists rs, reads w' = reads w ++ rs /\ (fifo_read_count rs <= n)%nat.

(** Tunables within the ranges the sysfs stores accept. *)
Definition config_ok (k : lyra_kbd_data) : Prop :=
  10 <= mouse_speed_x k <= 500 /\
  10 <= mouse_speed_y k <= 500 /\
  5 <= poll_interval_ms k <= 100.

(** The registers a tick may read once it has read the interrupt status
    [st], by the gates [st] opens. *)
Definition gated_registers (st : Z) : list Z :=
  if st <? 0 then []
  else
    (if Z.testbit st 1 || Z.testbit st 3 || Z.testbit st 2 || Z.testbit st 4
     then [REG_KEY_STATUS] else []) ++
    (if Z.testbit st 4 then [REG_FIFO_ACCESS] else []) ++
    (if Z.testbit st 5 then [REG_MOUSE_X; REG_MOUSE_Y] else []).

(** Only registers of [regs] are read between two worlds. *)
Definition reads_within (regs : list Z) (w w' : world) : Prop :=
  exists rs, reads w' = reads w ++ rs /\ Forall (fun r => fst r ∈ regs) rs.

(** The device a call to the input layer addresses. *)
Definition call_device (c : sink_call) : input_dev :=
  match c with
  | InputEvent d _ _ _ => d
  | ReportKey d _ _ => d
  | ReportRel d _ _ => d
  | Sync d => d
  end.

Definition is_sync (c : sink_call) : bool :=
  match c with
  | Sync _ => true
  | _ => false
  end.

(** A sequence of calls made of complete packets: events of one device,
    closed by the sync of that device. *)
Inductive framed : list sink_call -> Prop :=
| framed_nil : framed []
| framed_packet (d : input_dev) (body rest : list sink_call) :
    Forall (fun c => call_device c = d /\ is_sync c = false) body ->
    framed rest ->
    framed (body ++ Sync d :: rest).

(** The calls a tick can make: the scan code of a valid keycode and the
    report of a keymap entry or of the power key, on the keyboard device;
    a non-zero motion along X or Y, on the mouse device; syncs. *)
Definition tick_alphabet (c : sink_call) : Prop :=
  match c with
  | InputEvent d type code value =>
      d = kbd_input /\ type = EV_MSC /\ code = MSC_SCAN /\
      0 <= value < MAX_KEYCODES
  | ReportKey d code _ =>
      d = kbd_input /\ (code = KEY_POWER \/ exists l, code ∈ layer_table l)
  | ReportRel d code value =>
      d = mouse_input /\ (code = REL_X \/ code = REL_Y) /\ value <> 0
  | Sync _ => True
  end.


(** Processing that keeps an invariant [I] of the driver data and whose
    calls to the input layer, taken together, satisfy [Q]. *)
Definition emits (I : lyra_kbd_data -> Prop) (Q : list sink_call -> Prop)
    (w w' : world) : Prop :=
  I (kbd w) -> I (kbd w') /\ exists cs, out w' = out w ++ cs /\ Q cs.

(** The motion amounts found in a sequence of calls. *)
Definition rel_amount (c : sink_call) : option Z :=
  match c with
  | ReportRel _ _ value => Some value
  | _ => None
  end.

Section Operations.

Variable kstrtoint : string -> Z -> option Z.
Variable kstrtouint : string -> Z -> option Z.

(** What can happen to a probed driver: a tick of the poll work, or a
    write to one of its three attributes. *)
Inductive driver_op : Type :=
| Tick
| StoreSpeedX (buf : string) (count : Z)
| StoreSpeedY (buf : string) (count : Z)
| StoreInterval (buf : string) (count : Z).

Definition step (w : world) (op : driver_op) : world :=
  match op with
  | Tick => lyra_kbd_poll_work w
  | StoreSpeedX buf count =>
      with_kbd (snd (mouse_speed_x_store kstrtoint buf count (kbd w))) w
  | StoreSpeedY buf count =>
      with_kbd (snd (mouse_speed_y_store kstrtoint buf count (kbd w))) w
  | StoreInterval buf count =>
      with_kbd (snd (poll_interval_store kstrtouint buf count (kbd w))) w
  end.

Definition run_ops (ops : list driver_op) (w : world) : world :=
  fold_left step ops w.

End Operations.

(** A motion of magnitude 1 to 640. *)
Definition motion_bounded (c : sink_call) : Prop :=
  forall v, rel_amount c = Some v -> 1 <= Z.abs v <= 640.

(** The ticks among a sequence of operations. *)
Definition tick_count (ops : list driver_op) : nat :=
  length (List.filter (fun op => match op with Tick => true | _ => false end) ops).

(** The descriptor [lyra_kbd_setup_input_devices] builds for the keyboard,
    step by step as the function does. *)
Definition keyboard_descriptor : input_device :=
  set_keybit KEY_POWER
    (fold_left set_keymap_bits (seq 0 (Z.to_nat MAX_KEYCODES))
       (set_mscbit MSC_SCAN
          (set_evbit EV_MSC
             (set_evbit EV_REP
                (set_evbit EV_KEY
                   (set_identity "Luckfox Lyra Keyboard" "i2c-keyboard/input0"
                                 BUS_I2C 0x1234 0x5678 0x0100 blank_device)))))).

(** The descriptor it builds for the mouse. *)
Definition mouse_descriptor : input_device :=
  set_keybit BTN_MIDDLE
    (set_keybit BTN_RIGHT
       (set_keybit BTN_LEFT
          (set_evbit EV_KEY
             (set_relbit REL_WHEEL
                (set_relbit REL_Y
                   (set_relbit REL_X
                      (set_evbit EV_REL
                         (set_identity "Luckfox Lyra Mouse" "i2c-keyboard/input1"
                                       BUS_I2C 0x1234 0x5679 0x0100
                                       blank_device)))))))).

(** *** Further sample peripherals and kernels *)

(** Every register reads 0. *)
Definition all_zero : world := probe_world (fun _ _ => 0).

(** The queue holds a Press entry for keycode 60. *)
Definition press_60 : world := probe_world (fun _ _ => 241).

(** No modifier at the first read of the run, fn at the second, shift from
    then on. *)
Definition fn_then_shift : world :=
  probe_world (fun n _ => match n with O => 0 | S O => 4 | _ => 1 end).

(** The interrupt status flags a shift change; the key status shows shift. *)
Definition shift_changed : world :=
  probe_world (fun _ reg => if reg =? REG_INT_STATUS then 2 else 1).

(** Three steps left, none along Y. *)
Definition three_left : world :=
  probe_world (fun _ reg => if reg =? REG_MOUSE_X then 253 else 0).


(** Every transfer fails. *)
Definition dead_bus : world := probe_world (fun _ _ => -5).

(** A key event with, in the queue, the press and the release of keycode
    5, shift coming between the two. *)
Definition tap_5 : world :=
  probe_world (fun n _ =>
    match n with
    | 0%nat => 16 | 1%nat => 21 | 2%nat => 0 | 3%nat => 23 | 4%nat => 1
    | _ => 0
    end).

(** A kernel where nothing fails. *)
Definition all_good : kernel_answers := mk_answers true true true 0 true 0 0.

(** A text parser that reads 50 whatever the text. *)
Definition reads_50 : string -> Z -> option Z := fun _ _ => Some 50.

(** ** Bit tests *)

Lemma land_BIT_testbit (x n : Z) :
  0 <= n -> negb (Z.land x (BIT n) =? 0) = Z.testbit x n.
Proof.
  intros Hn. unfold BIT. rewrite Z.shiftl_1_l.
  destruct (Z.testbit x n) eqn:E.
  - apply negb_true_iff, Z.eqb_neq. intros H0.
    assert (Hb : Z.testbit (Z.land x (2 ^ n)) n = true).
    { rewrite Z.land_spec, E, Z.pow2_bits_true by lia. reflexivity. }
    rewrite H0, Z.bits_0 in Hb. discriminate.
  - apply negb_false_iff, Z.eqb_eq. apply Z.bits_inj'. intros m Hm.
    rewrite Z.land_spec, Z.bits_0, Z.pow2_bits_eqb by lia.
    destruct (Z.eqb_spec n m) as [->|]; [rewrite E; reflexivity | apply andb_false_r].
Qed.

Lemma u8_testbit (x n : Z) : 0 <= n < 8 -> Z.testbit (u8 x) n = Z.testbit x n.
Proof.
  intros Hn. unfold u8. change 256 with (2 ^ 8).
  apply Z.mod_pow2_bits_low. lia.
Qed.

Lemma status_bit (x n : Z) :
  0 <= n < 8 -> negb (Z.land (u8 x) (BIT n) =? 0) = Z.testbit x n.
Proof. intros Hn. rewrite land_BIT_testbit, u8_testbit by lia. reflexivity. Qed.

Lemma not_modifier_position (k : Z) :
  is_modifier_position k = false ->
  k <> 25 /\ k <> 41 /\ k <> 30 /\ k <> 37 /\ k <> 33.
Proof.
  unfold is_modifier_position, modifier_exclusion. cbn [existsb].
  rewrite !orb_false_iff, !Z.eqb_neq. tauto.
Qed.

(** ** What one key event does *)

Lemma read_reg_eq (reg : Z) (w : world) :
  lyra_kbd_read_reg reg w =
  (bus w (length (reads w)) reg,
   mk_world (kbd w) (bus w) (reads w ++ [(reg, bus w (length (reads w)) reg)])
            (out w) (timer w)).
Proof. reflexivity. Qed.

(** The selection of the keymap written in the code is [resolve]. *)
Lemma select_resolve (s k : Z) :
  (if negb (Z.land (u8 s) KEY_STATUS_FN_BIT =? 0) then keymap_fn !!! Z.to_nat k
   else if negb (Z.land (u8 s) KEY_STATUS_SHIFT_BIT =? 0) then keymap_shift !!! Z.to_nat k
   else keymap_normal !!! Z.to_nat k) = resolve s k.
Proof.
  unfold KEY_STATUS_FN_BIT, KEY_STATUS_SHIFT_BIT.
  rewrite !status_bit by lia.
  unfold resolve, layer_of, fn_active, shift_active.
  destruct (Z.testbit s 2); [reflexivity|].
  destruct (Z.testbit s 0); reflexivity.
Qed.

Lemma key_event_invalid (k : Z) (p : bool) (w : world) :
  MAX_KEYCODES <= k -> lyra_kbd_process_key_event k p w = w.
Proof.
  intros Hk. unfold lyra_kbd_process_key_event.
  destruct (Z.leb_spec MAX_KEYCODES k); [reflexivity | lia].
Qed.

Lemma key_event_read_failed (k : Z) (p : bool) (w : world) :
  k < MAX_KEYCODES ->
  bus w (length (reads w)) REG_KEY_STATUS < 0 ->
  lyra_kbd_process_key_event k p w = snd (lyra_kbd_read_reg REG_KEY_STATUS w).
Proof.
  intros Hk Hret. unfold lyra_kbd_process_key_event.
  destruct (Z.leb_spec MAX_KEYCODES k); [lia|].
  rewrite read_reg_eq. cbn [snd].
  destruct (Z.ltb_spec (bus w (length (reads w)) REG_KEY_STATUS) 0); [reflexivity | lia].
Qed.

Lemma key_event_press (k : Z) (w : world) :
  k < MAX_KEYCODES -> is_modifier_position k = false ->
  0 <= bus w (length (reads w)) REG_KEY_STATUS ->
  let s := bus w (length (reads w)) REG_KEY_STATUS in
  let w1 := snd (lyra_kbd_read_reg REG_KEY_STATUS w) in
  lyra_kbd_process_key_event k true w =
  mk_world (kbd (set_last_key_pressed k (resolve s k) w1)) (bus w) (reads w1)
           (out w ++ key_report k (resolve s k) true) (timer w).
Proof.
  intros Hk Hx Hret s w1.
  apply not_modifier_position in Hx as (H25 & H41 & H30 & H37 & H33).
  unfold lyra_kbd_process_key_event.
  destruct (Z.leb_spec MAX_KEYCODES k); [lia|].
  rewrite read_reg_eq. fold s.
  destruct (Z.ltb_spec s 0); [lia|].
  rewrite (proj2 (Z.eqb_neq k 25)), (proj2 (Z.eqb_neq k 41)),
    (proj2 (Z.eqb_neq k 30)), (proj2 (Z.eqb_neq k 33)),
    (proj2 (Z.eqb_neq k 37)) by assumption.
  cbn [orb]. rewrite select_resolve.
  unfold input_sync, input_report_key, input_event, emit, set_last_key_pressed,
    with_kbd, key_report. cbn.
  rewrite <- !app_assoc. reflexivity.
Qed.

Lemma key_event_release (k : Z) (w : world) :
  k < MAX_KEYCODES -> is_modifier_position k = false ->
  0 <= bus w (length (reads w)) REG_KEY_STATUS ->
  let s := bus w (length (reads w)) REG_KEY_STATUS in
  let w1 := snd (lyra_kbd_read_reg REG_KEY_STATUS w) in
  let recorded := get_last_key_pressed k w in
  let key := if recorded =? 0 then resolve s k else recorded in
  lyra_kbd_process_key_event k false w =
  mk_world (kbd (set_last_key_pressed k 0 w1)) (bus w) (reads w1)
           (out w ++ key_report k key false) (timer w).
Proof.
  intros Hk Hx Hret s w1 recorded key.
  apply not_modifier_position in Hx as (H25 & H41 & H30 & H37 & H33).
  unfold lyra_kbd_process_key_event.
  destruct (Z.leb_spec MAX_KEYCODES k); [lia|].
  rewrite read_reg_eq. fold s.
  destruct (Z.ltb_spec s 0); [lia|].
  rewrite (proj2 (Z.eqb_neq k 25)), (proj2 (Z.eqb_neq k 41)),
    (proj2 (Z.eqb_neq k 30)), (proj2 (Z.eqb_neq k 33)),
    (proj2 (Z.eqb_neq k 37)) by assumption.
  cbn [orb]. rewrite select_resolve.
  unfold input_sync, input_report_key, input_event, emit, set_last_key_pressed,
    with_kbd, key_report, get_last_key_pressed. cbn.
  rewrite <- !app_assoc. reflexivity.
Qed.

(** ** The keymap tables *)

Lemma layer_table_length (l : layer) :
  length (layer_table l) = Z.to_nat MAX_KEYCODES.
Proof. destruct l; reflexivity. Qed.

Lemma layer_table_nonzero (l : layer) : Forall (fun key => key <> 0) (layer_table l).
Proof.
  apply Forall_forall. intros key Hin.
  assert (Hb : forallb (fun key => negb (key =? 0)) (layer_table l) = true)
    by (destruct l; vm_compute; reflexivity).
  rewrite forallb_forall in Hb.
  apply list_elem_of_In, Hb, negb_true_iff, Z.eqb_neq in Hin. exact Hin.
Qed.

(** Every entry fits the [unsigned short] of the tables and of PressState. *)
Lemma layer_table_ushort (l : layer) :
  Forall (fun key => 0 <= key < 65536) (layer_table l).
Proof.
  apply Forall_forall. intros key Hin.
  assert (Hb : forallb (fun key => (0 <=? key) && (key <? 65536))
                 (layer_table l) = true)
    by (destruct l; vm_compute; reflexivity).
  rewrite forallb_forall in Hb.
  apply list_elem_of_In, Hb, andb_true_iff in Hin as [H0 H1].
  apply Z.leb_le in H0. apply Z.ltb_lt in H1. lia.
Qed.

Lemma resolve_in_table (s k : Z) :
  k < MAX_KEYCODES -> resolve s k ∈ layer_table (layer_of s).
Proof.
  intros Hk. unfold resolve. apply list_elem_of_lookup_total_2.
  rewrite layer_table_length. unfold MAX_KEYCODES in *. lia.
Qed.

Lemma resolve_nonzero (s k : Z) : k < MAX_KEYCODES -> resolve s k <> 0.
Proof.
  intros Hk. pose proof (layer_table_nonzero (layer_of s)) as Hnz.
  rewrite Forall_forall in Hnz. apply Hnz, resolve_in_table, Hk.
Qed.

Lemma get_set_last_key_pressed (k key : Z) (w : world) :
  0 <= k < MAX_KEYCODES -> kbd_wf (kbd w) ->
  get_last_key_pressed k (set_last_key_pressed k key w) = key.
Proof.
  intros Hk Hwf. unfold get_last_key_pressed, set_last_key_pressed. cbn.
  apply list_lookup_total_insert_eq. rewrite Hwf. unfold MAX_KEYCODES in *. lia.
Qed.

Lemma key_event_press_recorded (k : Z) (w : world) :
  0 <= k < MAX_KEYCODES -> is_modifier_position k = false ->
  kbd_wf (kbd w) -> 0 <= bus w (length (reads w)) REG_KEY_STATUS ->
  get_last_key_pressed k (lyra_kbd_process_key_event k true w) =
  resolve (bus w (length (reads w)) REG_KEY_STATUS) k.
Proof.
  intros Hk Hx Hwf Hs. rewrite key_event_press by (assumption || lia).
  apply (get_set_last_key_pressed k _
           (snd (lyra_kbd_read_reg REG_KEY_STATUS w)) Hk Hwf).
Qed.

(** ** Press/release symmetry and layer priority *)

(** C1. A key pressed in world [w] under the modifiers [s] records
    [resolve s k] in its PressState slot and reports a press of it; in any
    later world [w'] where that slot still holds what the press recorded,
    the release of [k] reports exactly that key, whatever modifiers [s'] the
    key-status register shows by then. *)
Theorem press_release_symmetry (w w' : world) (k : Z) :
  0 <= k < MAX_KEYCODES -> is_modifier_position k = false ->
  kbd_wf (kbd w) -> kbd_wf (kbd w') ->
  let s := bus w (length (reads w)) REG_KEY_STATUS in
  let s' := bus w' (length (reads w')) REG_KEY_STATUS in
  0 <= s -> 0 <= s' ->
  let w1 := lyra_kbd_process_key_event k true w in
  get_last_key_pressed k w' = get_last_key_pressed k w1 ->
  out w1 = out w ++ key_report k (resolve s k) true /\
  get_last_key_pressed k w1 = resolve s k /\
  out (lyra_kbd_process_key_event k false w') =
    out w' ++ key_report k (resolve s k) false.
Proof.
  intros Hk Hx Hwf Hwf' s s' Hs Hs' w1 Hkeep.
  assert (Hrec : get_last_key_pressed k w1 = resolve s k).
  { apply key_event_press_recorded; assumption. }
  split; [|split].
  - unfold w1. rewrite key_event_press by (assumption || lia). reflexivity.
  - exact Hrec.
  - rewrite key_event_release by (assumption || lia). cbn [out].
    rewrite Hkeep, Hrec.
    destruct (Z.eqb_spec (resolve s k) 0) as [H0|_]; [|reflexivity].
    exfalso. exact (resolve_nonzero s k (proj2 Hk) H0).
Qed.

(** C2. A press of a non-modifier key reports the fn-layer key whenever fn
    is active (also when shift is active too), the shift-layer key when
    shift is active and fn is not, and the normal-layer key when neither
    is. *)
Theorem layer_priority (w : world) (k : Z) :
  0 <= k < MAX_KEYCODES -> is_modifier_position k = false ->
  let s := bus w (length (reads w)) REG_KEY_STATUS in
  0 <= s ->
  exists key,
    out (lyra_kbd_process_key_event k true w) = out w ++ key_report k key true /\
    (fn_active s = true -> shift_active s = true ->
       key = keymap_fn !!! Z.to_nat k) /\
    (fn_active s = true -> key = keymap_fn !!! Z.to_nat k) /\
    (fn_active s = false -> shift_active s = true ->
       key = keymap_shift !!! Z.to_nat k) /\
    (fn_active s = false -> shift_active s = false ->
       key = keymap_normal !!! Z.to_nat k).
Proof.
  intros Hk Hx s Hs. exists (resolve s k). split.
  - rewrite key_event_press by (assumption || lia). reflexivity.
  - unfold resolve, layer_of.
    destruct (fn_active s), (shift_active s); repeat split; intros; congruence.
Qed.

(** C9. No entry of the three layers is 0, the value that marks an empty
    PressState slot (and every entry fits an [unsigned short]): a press
    always records a non-zero key, a release whose slot is non-zero reports
    the recorded key without looking at the modifiers, and the release
    re-resolves against the current modifiers exactly when the slot
    holds 0. *)
Theorem keymap_entries_nonzero :
  (forall l key, key ∈ layer_table l -> key <> 0 /\ 0 <= key < 65536) /\
  (forall (w : world) (k : Z),
     0 <= k < MAX_KEYCODES -> is_modifier_position k = false ->
     kbd_wf (kbd w) -> 0 <= bus w (length (reads w)) REG_KEY_STATUS ->
     get_last_key_pressed k (lyra_kbd_process_key_event k true w) <> 0) /\
  (forall (w : world) (k : Z),
     0 <= k < MAX_KEYCODES -> is_modifier_position k = false ->
     kbd_wf (kbd w) -> 0 <= bus w (length (reads w)) REG_KEY_STATUS ->
     let s := bus w (length (reads w)) REG_KEY_STATUS in
     let recorded := get_last_key_pressed k w in
     (recorded <> 0 ->
        out (lyra_kbd_process_key_event k false w) =
          out w ++ key_report k recorded false) /\
     (recorded = 0 ->
        out (lyra_kbd_process_key_event k false w) =
          out w ++ key_report k (resolve s k) false)).
Proof.
  split; [|split].
  - intros l key Hin. pose proof (layer_table_nonzero l) as Hnz.
    pose proof (layer_table_ushort l) as Hus.
    rewrite Forall_forall in Hnz, Hus. exact (conj (Hnz key Hin) (Hus key Hin)).
  - intros w k Hk Hx Hwf Hs.
    rewrite key_event_press_recorded by assumption.
    apply resolve_nonzero, Hk.
  - intros w k Hk Hx Hwf Hs s recorded.
    rewrite key_event_release by (assumption || lia). cbn [out].
    fold s recorded. split; intros Hr.
    + destruct (Z.eqb_spec recorded 0); [contradiction | reflexivity].
    + rewrite Hr. reflexivity.
Qed.

(** ** Frame of the event-processing functions *)

Ltac log_grows :=
  first [ exists []; rewrite app_nil_r; reflexivity
        | rewrite <- ?app_assoc; eexists; reflexivity ].

Ltac frame_tac :=
  constructor; cbn;
  [ reflexivity | reflexivity | reflexivity | reflexivity | reflexivity
  | reflexivity
  | unfold kbd_wf; cbn; rewrite ?length_insert; tauto
  | log_grows | log_grows ].

Lemma frame_refl (w : world) : frame w w.
Proof. frame_tac. Qed.

Lemma frame_trans (w1 w2 w3 : world) : frame w1 w2 -> frame w2 w3 -> frame w1 w3.
Proof.
  intros [] []. constructor; try congruence; try tauto.
  - destruct frame_reads0 as [r1 H1], frame_reads1 as [r2 H2].
    exists (r1 ++ r2). rewrite H2, H1, app_assoc. reflexivity.
  - destruct frame_out0 as [c1 H1], frame_out1 as [c2 H2].
    exists (c1 ++ c2). rewrite H2, H1, app_assoc. reflexivity.
Qed.

Lemma read_reg_frame (reg : Z) (w : world) :
  frame w (snd (lyra_kbd_read_reg reg w)).
Proof. frame_tac. Qed.

Ltac split_ifs :=
  repeat match goal with
         | |- context [if ?b then _ else _] => destruct b eqn:?
         end.

Lemma key_event_frame (k : Z) (p : bool) (w : world) :
  frame w (lyra_kbd_process_key_event k p w).
Proof.
  unfold lyra_kbd_process_key_event. rewrite read_reg_eq.
  unfold input_sync, input_report_key, input_event, emit, set_last_key_pressed,
    get_last_key_pressed, with_kbd.
  split_ifs; frame_tac.
Qed.

(** A key event reads the key-status register at most once, and nothing
    else. *)
Lemma key_event_reads (k : Z) (p : bool) (w : world) :
  reads (lyra_kbd_process_key_event k p w) = reads w \/
  reads (lyra_kbd_process_key_event k p w) =
    reads w ++ [(REG_KEY_STATUS, bus w (length (reads w)) REG_KEY_STATUS)].
Proof.
  unfold lyra_kbd_process_key_event. rewrite read_reg_eq.
  unfold input_sync, input_report_key, input_event, emit, set_last_key_pressed,
    get_last_key_pressed, with_kbd.
  split_ifs; cbn; auto.
Qed.

(** ** The drain loop *)

Lemma fifo_loop_eq (i : Z) (w : world) :
  fifo_loop i w =
  if Z_lt_dec i FIFO_MAX_READ then
    match fifo_body w with
    | (Next, w') => fifo_loop (i + 1) w'
    | (_, w') => w'
    end
  else w.
Proof.
  rewrite fifo_loop_equation_1. unfold fifo_loop_unfold_clause_1.
  destruct (Z_lt_dec i FIFO_MAX_READ); [|reflexivity].
  generalize (fifo_body w). intros [[] w']; reflexivity.
Qed.

(** Induction along the iterations of the loop. *)
Lemma fifo_loop_rect (P : Z -> world -> world -> Prop) :
  (forall i w, FIFO_MAX_READ <= i -> P i w w) ->
  (forall i w w', i < FIFO_MAX_READ -> fifo_body w = (Break, w') -> P i w w') ->
  (forall i w w', i < FIFO_MAX_READ -> fifo_body w = (Return, w') -> P i w w') ->
  (forall i w w' w'', i < FIFO_MAX_READ -> fifo_body w = (Next, w') ->
     P (i + 1) w' w'' -> P i w w'') ->
  forall i w, P i w (fifo_loop i w).
Proof.
  intros Hdone Hbreak Hret Hnext i w.
  remember (Z.to_nat (FIFO_MAX_READ - i)) as n eqn:Hn.
  revert i w Hn. induction n as [|n IH]; intros i w Hn;
    rewrite fifo_loop_eq; destruct (Z_lt_dec i FIFO_MAX_READ) as [Hlt|Hge];
    try lia.
  - apply Hdone. lia.
  - destruct (fifo_body w) as [[] w'] eqn:Hb.
    + apply (Hnext i w w'); [assumption .. |]. apply IH. lia.
    + apply (Hbreak i w w'); assumption.
    + apply (Hret i w w'); assumption.
Qed.

Lemma keycode_mask_shift (x : Z) :
  Z.shiftr (Z.land (u8 x) FIFO_KEYCODE_MASK) FIFO_KEYCODE_SHIFT = entry_keycode x.
Proof.
  unfold entry_keycode, FIFO_KEYCODE_MASK, FIFO_KEYCODE_SHIFT.
  apply Z.bits_inj'. intros m Hm.
  rewrite !Z.shiftr_spec, Z.land_spec by lia.
  destruct (Z_lt_dec (m + 2) 8) as [Hlt|Hge].
  - assert (Hc : m = 0 \/ m = 1 \/ m = 2 \/ m = 3 \/ m = 4 \/ m = 5) by lia.
    destruct Hc as [-> | [-> | [-> | [-> | [-> | ->]]]]]; apply andb_true_r.
  - unfold u8. change 256 with (2 ^ 8).
    rewrite Z.mod_pow2_bits_high by lia. reflexivity.
Qed.

(** The body of the loop, by kind of queue entry. *)
Lemma fifo_body_eq (w : world) :
  let ret := bus w (length (reads w)) REG_FIFO_ACCESS in
  let w1 := snd (lyra_kbd_read_reg REG_FIFO_ACCESS w) in
  fifo_body w =
  if ret <? 0 then (Return, w1)
  else if entry_type ret =? FIFO_EVENT_NONE then (Break, w1)
  else if entry_type ret =? FIFO_EVENT_PRESS then
    (Next, lyra_kbd_process_key_event (entry_keycode ret) true w1)
  else if entry_type ret =? FIFO_EVENT_RELEASE then
    (Next, lyra_kbd_process_key_event (entry_keycode ret) false w1)
  else (Next, w1).
Proof.
  intros ret w1. unfold fifo_body. rewrite read_reg_eq. fold ret.
  rewrite keycode_mask_shift.
  change (Z.land (u8 ret) FIFO_EVENT_TYPE_MASK) with (entry_type ret).
  split_ifs; reflexivity.
Qed.

Lemma fifo_body_frame (w w' : world) (x : loop_exit) :
  fifo_body w = (x, w') -> frame w w'.
Proof.
  rewrite fifo_body_eq. intros H.
  pose proof (read_reg_frame REG_FIFO_ACCESS w) as Hr.
  revert H. split_ifs; intros [= <- <-]; try exact Hr;
    (eapply frame_trans; [exact Hr | apply key_event_frame]).
Qed.

Lemma fifo_loop_frame (i : Z) (w : world) : frame w (fifo_loop i w).
Proof.
  apply (fifo_loop_rect (fun _ w w' => frame w w')); clear i w.
  - intros _ w _. apply frame_refl.
  - intros _ w w' _ H. exact (fifo_body_frame _ _ _ H).
  - intros _ w w' _ H. exact (fifo_body_frame _ _ _ H).
  - intros _ w w' w'' _ H IH.
    exact (frame_trans _ _ _ (fifo_body_frame _ _ _ H) IH).
Qed.

Lemma fifo_read_count_app (a b : list (Z * Z)) :
  fifo_read_count (a ++ b) = (fifo_read_count a + fifo_read_count b)%nat.
Proof. unfold fifo_read_count. rewrite List.filter_app, length_app. reflexivity. Qed.

(** What one pass through the body reads, and what its exit tells about the
    queue entry. *)
Lemma fifo_body_reads (w w' : world) (x : loop_exit) :
  fifo_body w = (x, w') ->
  let ret := bus w (length (reads w)) REG_FIFO_ACCESS in
  exists rs,
    reads w' = reads w ++ (REG_FIFO_ACCESS, ret) :: rs /\
    fifo_read_count rs = 0%nat /\
    match x with
    | Return => ret < 0 /\ rs = []
    | Break => 0 <= ret /\ entry_type ret = FIFO_EVENT_NONE /\ rs = []
    | Next => 0 <= ret /\ entry_type ret <> FIFO_EVENT_NONE
    end.
Proof.
  rewrite fifo_body_eq. intros H ret. revert H. fold ret.
  set (w1 := snd (lyra_kbd_read_reg REG_FIFO_ACCESS w)).
  assert (Hw1 : reads w1 = reads w ++ [(REG_FIFO_ACCESS, ret)]) by reflexivity.
  destruct (Z.ltb_spec ret 0) as [Hneg|Hpos].
  { intros [= <- <-]. exists []. auto. }
  destruct (Z.eqb_spec (entry_type ret) FIFO_EVENT_NONE) as [Hnone|Hsome].
  { intros [= <- <-]. exists []. auto. }
  assert (Hkey : forall k p,
    exists rs, reads (lyra_kbd_process_key_event k p w1) =
                 reads w ++ (REG_FIFO_ACCESS, ret) :: rs /\
               fifo_read_count rs = 0%nat).
  { intros k p. destruct (key_event_reads k p w1) as [-> | ->]; rewrite Hw1.
    - exists []. auto.
    - rewrite <- app_assoc. eexists. split; reflexivity. }
  split_ifs; intros [= <- <-].
  - destruct (Hkey (entry_keycode ret) true) as (rs & ? & ?). exists rs. auto.
  - destruct (Hkey (entry_keycode ret) false) as (rs & ? & ?). exists rs. auto.
  - exists []. auto.
Qed.

(** Reads performed by the drain loop entered with counter [i]. *)
Lemma fifo_loop_reads (i : Z) (w : world) :
  exists rs,
    reads (fifo_loop i w) = reads w ++ rs /\
    (fifo_read_count rs <= Z.to_nat (FIFO_MAX_READ - i))%nat /\
    ((fifo_read_count rs < Z.to_nat (FIFO_MAX_READ - i))%nat ->
     exists pre,
       let ret := bus w (length (reads w ++ pre)) REG_FIFO_ACCESS in
       rs = pre ++ [(REG_FIFO_ACCESS, ret)] /\
       (ret < 0 \/ entry_type ret = FIFO_EVENT_NONE)).
Proof.
  apply (fifo_loop_rect (fun i w w' =>
    exists rs,
      reads w' = reads w ++ rs /\
      (fifo_read_count rs <= Z.to_nat (FIFO_MAX_READ - i))%nat /\
      ((fifo_read_count rs < Z.to_nat (FIFO_MAX_READ - i))%nat ->
       exists pre,
         let ret := bus w (length (reads w ++ pre)) REG_FIFO_ACCESS in
         rs = pre ++ [(REG_FIFO_ACCESS, ret)] /\
         (ret < 0 \/ entry_type ret = FIFO_EVENT_NONE)))); clear i w.
  - intros i w Hi. exists []. rewrite app_nil_r. repeat split.
    + cbn. lia.
    + cbn. lia.
  - intros i w w' Hi Hb. apply fifo_body_reads in Hb as (rs & Hr & _ & Hret & Hty & ->).
    eexists. split; [exact Hr|]. split; [cbn; lia|]. intros _.
    exists []. cbn. rewrite app_nil_r. auto.
  - intros i w w' Hi Hb. apply fifo_body_reads in Hb as (rs & Hr & _ & Hret & ->).
    eexists. split; [exact Hr|]. split; [cbn; lia|]. intros _.
    exists []. cbn. rewrite app_nil_r. auto.
  - intros i w w' w'' Hi Hb (rs2 & Hr2 & Hle & Hlast).
    pose proof (frame_bus _ _ (fifo_body_frame _ _ _ Hb)) as Hbus.
    apply fifo_body_reads in Hb as (rs1 & Hr1 & Hc1 & _).
    set (e := (REG_FIFO_ACCESS, bus w (length (reads w)) REG_FIFO_ACCESS)) in *.
    assert (Hcnt : fifo_read_count ((e :: rs1) ++ rs2) = S (fifo_read_count rs2)).
    { rewrite fifo_read_count_app.
      change (e :: rs1) with ([e] ++ rs1). rewrite fifo_read_count_app, Hc1.
      reflexivity. }
    exists ((e :: rs1) ++ rs2). split; [|split].
    + rewrite Hr2, Hr1, <- app_assoc. reflexivity.
    + rewrite Hcnt. lia.
    + rewrite Hcnt. intros Hlt.
      destruct Hlast as (pre & Hrs2 & Hstop); [lia|].
      exists ((e :: rs1) ++ pre). cbn zeta in *.
      rewrite Hr1, Hbus, <- app_assoc in Hrs2, Hstop.
      rewrite <- !app_assoc. rewrite <- !app_comm_cons in *.
      split; [|exact Hstop]. rewrite Hrs2 at 1. reflexivity.
Qed.

(** ** Entries that report nothing *)

Lemma fifo_loop_next (i : Z) (w w' : world) :
  i < FIFO_MAX_READ -> fifo_body w = (Next, w') ->
  fifo_loop i w = fifo_loop (i + 1) w'.
Proof.
  intros Hi Hb. rewrite (fifo_loop_eq i w), Hb.
  destruct (Z_lt_dec i FIFO_MAX_READ); [reflexivity | lia].
Qed.

(** C7. A queue entry of type Hold goes through the loop body without
    touching the driver data (PressState included) and without any call to
    the input layer: the only trace it leaves is the read of the entry.  The
    loop then goes on with the next entry. *)
Theorem hold_is_inert (i : Z) (w : world) :
  let ret := bus w (length (reads w)) REG_FIFO_ACCESS in
  0 <= ret -> entry_type ret = FIFO_EVENT_HOLD -> i < FIFO_MAX_READ ->
  exists w',
    fifo_body w = (Next, w') /\
    kbd w' = kbd w /\
    out w' = out w /\
    reads w' = reads w ++ [(REG_FIFO_ACCESS, ret)] /\
    fifo_loop i w = fifo_loop (i + 1) w'.
Proof.
  intros ret Hret Hty Hi.
  assert (Hb : fifo_body w = (Next, snd (lyra_kbd_read_reg REG_FIFO_ACCESS w))).
  { rewrite fifo_body_eq. fold ret. rewrite Hty.
    destruct (Z.ltb_spec ret 0); [lia | reflexivity]. }
  eexists. split; [exact Hb|]. repeat split.
  apply fifo_loop_next; assumption.
Qed.

(** C10. When the read of the key-status register made for a press or
    release entry fails, the entry is dropped: the driver data (PressState
    included) is as before, nothing is reported, and the loop goes on with
    the next entry. *)
Theorem key_status_error_drops_event (i : Z) (w : world) :
  let ret := bus w (length (reads w)) REG_FIFO_ACCESS in
  let st := bus w (S (length (reads w))) REG_KEY_STATUS in
  0 <= ret ->
  entry_type ret = FIFO_EVENT_PRESS \/ entry_type ret = FIFO_EVENT_RELEASE ->
  entry_keycode ret < MAX_KEYCODES ->
  st < 0 ->
  i < FIFO_MAX_READ ->
  exists w',
    fifo_body w = (Next, w') /\
    kbd w' = kbd w /\
    out w' = out w /\
    reads w' = reads w ++ [(REG_FIFO_ACCESS, ret); (REG_KEY_STATUS, st)] /\
    fifo_loop i w = fifo_loop (i + 1) w'.
Proof.
  intros ret st Hret Hty Hk Hst Hi.
  set (w1 := snd (lyra_kbd_read_reg REG_FIFO_ACCESS w)).
  assert (Hlen : length (reads w1) = S (length (reads w))).
  { unfold w1. cbn. rewrite length_app. cbn. lia. }
  assert (Hdrop : forall p,
    lyra_kbd_process_key_event (entry_keycode ret) p w1 =
    snd (lyra_kbd_read_reg REG_KEY_STATUS w1)).
  { intros p. apply key_event_read_failed; [exact Hk|].
    rewrite Hlen. exact Hst. }
  assert (Hb : fifo_body w = (Next, snd (lyra_kbd_read_reg REG_KEY_STATUS w1))).
  { rewrite fifo_body_eq. fold ret w1.
    destruct (Z.ltb_spec ret 0); [lia|].
    destruct Hty as [-> | ->]; cbn [Z.eqb FIFO_EVENT_NONE FIFO_EVENT_PRESS
      FIFO_EVENT_RELEASE Pos.eqb]; rewrite Hdrop; reflexivity. }
  eexists. split; [exact Hb|]. split; [reflexivity|]. split; [reflexivity|].
  split.
  - cbn [lyra_kbd_read_reg snd reads]. rewrite Hlen.
    unfold w1. cbn. rewrite <- app_assoc. reflexivity.
  - apply fifo_loop_next; assumption.
Qed.

(** ** Mouse scaling *)

Lemma s8_range (x : Z) : -128 <= s8 x <= 127.
Proof.
  unfold s8. pose proof (Z.mod_pos_bound x 256 ltac:(lia)).
  destruct (Z.ltb_spec (x mod 256) 128); lia.
Qed.

Lemma s32_small (x : Z) : -2147483648 <= x < 2147483648 -> s32 x = x.
Proof.
  intros Hx. unfold s32.
  destruct (Z_lt_dec x 0) as [Hneg|Hpos].
  - replace (x mod 4294967296) with (x + 4294967296).
    + destruct (Z.ltb_spec (x + 4294967296) 2147483648); lia.
    + apply (Z.mod_unique _ _ (-1)); lia.
  - rewrite Z.mod_small by lia.
    destruct (Z.ltb_spec x 2147483648); lia.
Qed.

(** Within the valid speeds the driver's amount is [scaled_amount]. *)
Lemma adjusted_scaled (d s : Z) :
  -128 <= d <= 127 -> 10 <= s <= 500 -> d <> 0 ->
  adjusted d s = scaled_amount d s.
Proof.
  intros Hd Hs Hnz. unfold adjusted, scaled_amount. cbv zeta.
  rewrite s32_small by nia.
  rewrite (proj2 (Z.eqb_neq d 0) Hnz), andb_true_r.
  destruct (Z.eqb_spec (Z.quot (d * s) 100) 0); [|reflexivity].
  destruct (Z.ltb_spec 0 d).
  - rewrite Z.sgn_pos by lia. reflexivity.
  - rewrite Z.sgn_neg by lia. reflexivity.
Qed.

Lemma scaled_amount_sign (d s : Z) :
  0 < s -> d <> 0 ->
  scaled_amount d s <> 0 /\ Z.sgn (scaled_amount d s) = Z.sgn d.
Proof.
  intros Hs Hnz. unfold scaled_amount.
  destruct (Z.eqb_spec (Z.quot (d * s) 100) 0) as [Hq|Hq].
  - rewrite Z.mul_1_r, Z.sgn_sgn. split; [|reflexivity].
    intros H0. apply Hnz, Z.sgn_null_iff, H0.
  - split; [exact Hq|].
    destruct (Z_lt_dec 0 d) as [Hpos|Hneg].
    + pose proof (Z.quot_pos (d * s) 100 ltac:(nia) ltac:(lia)).
      rewrite !Z.sgn_pos by lia. reflexivity.
    + assert (Hopp : Z.quot (d * s) 100 = - Z.quot (- d * s) 100).
      { rewrite Z.mul_opp_l, Z.quot_opp_l by lia. lia. }
      pose proof (Z.quot_pos (- d * s) 100 ltac:(nia) ltac:(lia)).
      rewrite !Z.sgn_neg by lia. reflexivity.
Qed.

Lemma axis_report_other (axis axis' d s : Z) :
  axis <> axis' -> List.filter (is_rel_on axis) (axis_report axis' d s) = [].
Proof.
  intros Hne. unfold axis_report. destruct (d =? 0); [reflexivity|].
  cbn. destruct (Z.eqb_spec axis' axis); [congruence | reflexivity].
Qed.

(** The code of one axis: what it reports. *)
Lemma axis_code (axis d s : Z) (w : world) :
  (if negb (d =? 0) then
     let adjusted := Z.quot (s32 (d * s)) 100 in
     let adjusted :=
       if (adjusted =? 0) && negb (d =? 0)
       then (if 0 <? d then 1 else -1)
       else adjusted in
     input_report_rel mouse_input axis adjusted w
   else w) =
  mk_world (kbd w) (bus w) (reads w) (out w ++ axis_report axis d s) (timer w).
Proof.
  unfold axis_report.
  destruct (d =? 0) eqn:E; cbn [negb].
  - rewrite app_nil_r. destruct w; reflexivity.
  - unfold adjusted. rewrite E. reflexivity.
Qed.

(** What the mouse processor reports when both delta reads succeed. *)
Lemma process_mouse_out (w : world) :
  let rx := bus w (length (reads w)) REG_MOUSE_X in
  let ry := bus w (S (length (reads w))) REG_MOUSE_Y in
  0 <= rx -> 0 <= ry ->
  out (lyra_kbd_process_mouse w) =
    out w ++ axis_report REL_X (s8 rx) (mouse_speed_x (kbd w)) ++
    axis_report REL_Y (s8 ry) (mouse_speed_y (kbd w)) ++
    (if (s8 rx =? 0) && (s8 ry =? 0) then [] else [Sync mouse_input]).
Proof.
  intros rx ry Hrx Hry.
  unfold lyra_kbd_process_mouse. rewrite read_reg_eq. fold rx.
  destruct (Z.ltb_spec rx 0); [lia|].
  rewrite read_reg_eq. cbn [reads bus kbd out timer].
  rewrite length_app, Nat.add_1_r. fold ry.
  destruct (Z.ltb_spec ry 0); [lia|].
  cbv zeta.
  pose proof (axis_code REL_X (s8 rx) (mouse_speed_x (kbd w))) as Hx.
  pose proof (axis_code REL_Y (s8 ry) (mouse_speed_y (kbd w))) as Hy.
  cbv zeta in Hx, Hy. rewrite Hx. cbn [kbd]. rewrite Hy.
  unfold input_sync, emit. cbn [kbd bus reads out timer].
  destruct (s8 rx =? 0), (s8 ry =? 0); cbn [negb orb andb];
    rewrite <- ?app_assoc, ?app_nil_r; reflexivity.
Qed.

(** C4. When both delta registers are read, the mouse processor reports the
    X axis, then the Y axis, then a sync if either moved.  An axis whose
    delta is 0 gets no relative-motion report, whatever the speed.  An axis
    with a non-zero delta [d] gets exactly one report; for a speed [s] in
    [10, 500] its amount is [(d * s) / 100] truncated toward zero, or
    [sign d] when that quotient is 0, so it is never 0 and has the sign
    of [d]. *)
Theorem mouse_scaling (w : world) :
  let rx := bus w (length (reads w)) REG_MOUSE_X in
  let ry := bus w (S (length (reads w))) REG_MOUSE_Y in
  let sx := mouse_speed_x (kbd w) in
  let sy := mouse_speed_y (kbd w) in
  let dx := s8 rx in
  let dy := s8 ry in
  0 <= rx -> 0 <= ry ->
  exists cx cy,
    let emitted :=
      cx ++ cy ++ (if (dx =? 0) && (dy =? 0) then [] else [Sync mouse_input]) in
    out (lyra_kbd_process_mouse w) = out w ++ emitted /\
    (dx = 0 -> cx = [] /\ List.filter (is_rel_on REL_X) emitted = []) /\
    (dy = 0 -> cy = [] /\ List.filter (is_rel_on REL_Y) emitted = []) /\
    (dx <> 0 ->
       exists a, cx = [ReportRel mouse_input REL_X a] /\
         (10 <= sx <= 500 ->
            a = scaled_amount dx sx /\ a <> 0 /\ Z.sgn a = Z.sgn dx)) /\
    (dy <> 0 ->
       exists a, cy = [ReportRel mouse_input REL_Y a] /\
         (10 <= sy <= 500 ->
            a = scaled_amount dy sy /\ a <> 0 /\ Z.sgn a = Z.sgn dy)).
Proof.
  intros rx ry sx sy dx dy Hrx Hry.
  pose proof (s8_range rx) as Hdx. pose proof (s8_range ry) as Hdy.
  fold dx in Hdx. fold dy in Hdy.
  assert (Hsync : forall axis,
    List.filter (is_rel_on axis)
      (if (dx =? 0) && (dy =? 0) then [] else [Sync mouse_input]) = []).
  { intros axis. destruct ((dx =? 0) && (dy =? 0)); reflexivity. }
  assert (Hamount : forall d s, -128 <= d <= 127 -> d <> 0 -> 10 <= s <= 500 ->
    adjusted d s = scaled_amount d s /\ adjusted d s <> 0 /\
    Z.sgn (adjusted d s) = Z.sgn d).
  { intros d s Hd Hnz Hs. rewrite adjusted_scaled by assumption.
    split; [reflexivity | apply scaled_amount_sign; lia]. }
  exists (axis_report REL_X dx sx), (axis_report REL_Y dy sy). cbv zeta.
  split; [apply (process_mouse_out w Hrx Hry)|].
  split; [|split; [|split]].
  - intros H0.
    assert (Hcx : axis_report REL_X dx sx = [])
      by (unfold axis_report; rewrite H0; reflexivity).
    split; [exact Hcx|].
    rewrite !List.filter_app, Hsync, Hcx, (axis_report_other REL_X REL_Y)
      by (cbv; discriminate).
    reflexivity.
  - intros H0.
    assert (Hcy : axis_report REL_Y dy sy = [])
      by (unfold axis_report; rewrite H0; reflexivity).
    split; [exact Hcy|].
    rewrite !List.filter_app, Hsync, Hcy, (axis_report_other REL_Y REL_X)
      by (cbv; discriminate).
    reflexivity.
  - intros Hnz. exists (adjusted dx sx). split; [|auto].
    unfold axis_report. destruct (Z.eqb_spec dx 0); [contradiction | reflexivity].
  - intros Hnz. exists (adjusted dy sy). split; [|auto].
    unfold axis_report. destruct (Z.eqb_spec dy 0); [contradiction | reflexivity].
Qed.

(** ** PressState holds keymap entries; key events say nothing of the power key *)

Lemma table_not_power (l : layer) (v : Z) : v ∈ layer_table l -> v <> KEY_POWER.
Proof.
  intros Hin.
  assert (Hb : forallb (fun key => negb (key =? KEY_POWER)) (layer_table l) = true)
    by (destruct l; vm_compute; reflexivity).
  rewrite forallb_forall in Hb.
  apply list_elem_of_In, Hb, negb_true_iff, Z.eqb_neq in Hin. exact Hin.
Qed.

Lemma slot_not_power (v : Z) : slot_value_ok v -> v <> KEY_POWER.
Proof.
  intros [-> | [l Hin]]; [discriminate | exact (table_not_power l v Hin)].
Qed.

Lemma resolve_slot_ok (s k : Z) : k < MAX_KEYCODES -> slot_value_ok (resolve s k).
Proof. intros Hk. right. exists (layer_of s). apply resolve_in_table, Hk. Qed.

Lemma recorded_slot_ok (k : Z) (w : world) :
  k < MAX_KEYCODES -> press_state_ok (kbd w) ->
  slot_value_ok (get_last_key_pressed k w).
Proof.
  intros Hk [Hwf Hok]. unfold get_last_key_pressed.
  apply Forall_lookup_total_1; [exact Hok|].
  rewrite Hwf. unfold MAX_KEYCODES in *. lia.
Qed.

Lemma key_report_no_power (k key : Z) (p : bool) :
  key <> KEY_POWER -> power_reports (key_report k key p) = [].
Proof.
  intros Hne. unfold power_reports, key_report. cbn.
  rewrite (proj2 (Z.eqb_neq key KEY_POWER) Hne). reflexivity.
Qed.

Lemma quiet_refl (w : world) : quiet w w.
Proof.
  constructor; [tauto|]. intros _. exists []. rewrite app_nil_r. auto.
Qed.

Lemma quiet_trans (w1 w2 w3 : world) : quiet w1 w2 -> quiet w2 w3 -> quiet w1 w3.
Proof.
  intros [P12 O12] [P23 O23]. constructor; [tauto|].
  intros Hok. destruct (O12 Hok) as (c1 & E1 & N1).
  destruct (O23 (P12 Hok)) as (c2 & E2 & N2).
  exists (c1 ++ c2). split.
  - rewrite E2, E1, app_assoc. reflexivity.
  - unfold power_reports in *. rewrite omap_app, N1, N2. reflexivity.
Qed.

Ltac quiet_tac :=
  unfold input_sync, input_report_key, input_report_rel, input_event, emit;
  constructor; cbn; intros Hok;
  [ assumption
  | first [ exists []; split; [rewrite app_nil_r; reflexivity | reflexivity]
          | rewrite <- ?app_assoc; eexists; split; reflexivity ] ].

Lemma read_reg_quiet (reg : Z) (w : world) :
  quiet w (snd (lyra_kbd_read_reg reg w)).
Proof. quiet_tac. Qed.

(** At a modifier position nothing is reported, or ctrl is. *)
Lemma key_event_modifier (k : Z) (p : bool) (w : world) :
  k < MAX_KEYCODES -> 0 <= bus w (length (reads w)) REG_KEY_STATUS ->
  is_modifier_position k = true ->
  let w1 := snd (lyra_kbd_read_reg REG_KEY_STATUS w) in
  lyra_kbd_process_key_event k p w = w1 \/
  lyra_kbd_process_key_event k p w =
    input_sync kbd_input (input_report_key kbd_input KEY_LEFTCTRL p w1).
Proof.
  intros Hk Hs Hx w1. unfold lyra_kbd_process_key_event.
  destruct (Z.leb_spec MAX_KEYCODES k); [lia|].
  rewrite read_reg_eq. fold w1.
  destruct (Z.ltb_spec (bus w (length (reads w)) REG_KEY_STATUS) 0); [lia|].
  unfold is_modifier_position, modifier_exclusion in Hx. cbn [existsb] in Hx.
  destruct (k =? 25); [auto|]. destruct (k =? 41); [auto|].
  destruct (k =? 30); [auto|]. destruct (k =? 33); [auto|].
  destruct (k =? 37); [auto|]. discriminate.
Qed.

Lemma key_event_quiet (k : Z) (p : bool) (w : world) :
  quiet w (lyra_kbd_process_key_event k p w).
Proof.
  destruct (Z_le_dec MAX_KEYCODES k) as [Hbig|Hk].
  { rewrite key_event_invalid by assumption. apply quiet_refl. }
  assert (Hk' : k < MAX_KEYCODES) by lia.
  destruct (Z_lt_dec (bus w (length (reads w)) REG_KEY_STATUS) 0) as [Hf|Hs].
  { rewrite key_event_read_failed by assumption. apply read_reg_quiet. }
  destruct (is_modifier_position k) eqn:Hx.
  { destruct (key_event_modifier k p w Hk' ltac:(lia) Hx) as [-> | ->]; quiet_tac. }
  destruct p.
  - rewrite key_event_press by (assumption || lia). constructor; cbn.
    + intros [Hwf Hok]. split.
      * unfold kbd_wf in *. cbn. rewrite length_insert. exact Hwf.
      * apply Forall_insert; [exact Hok | apply resolve_slot_ok, Hk'].
    + intros _. eexists. split; [reflexivity|].
      apply key_report_no_power, slot_not_power, resolve_slot_ok, Hk'.
  - rewrite key_event_release by (assumption || lia). constructor; cbn.
    + intros [Hwf Hok]. split.
      * unfold kbd_wf in *. cbn. rewrite length_insert. exact Hwf.
      * apply Forall_insert; [exact Hok | left; reflexivity].
    + intros Hok. eexists. split; [reflexivity|].
      apply key_report_no_power, slot_not_power.
      destruct (get_last_key_pressed k w =? 0);
        [apply resolve_slot_ok, Hk' | apply recorded_slot_ok; assumption].
Qed.

Lemma fifo_body_quiet (w w' : world) (x : loop_exit) :
  fifo_body w = (x, w') -> quiet w w'.
Proof.
  rewrite fifo_body_eq. intros H.
  pose proof (read_reg_quiet REG_FIFO_ACCESS w) as Hr.
  revert H. split_ifs; intros [= <- <-]; try exact Hr;
    (eapply quiet_trans; [exact Hr | apply key_event_quiet]).
Qed.

Lemma fifo_loop_quiet (i : Z) (w : world) : quiet w (fifo_loop i w).
Proof.
  apply (fifo_loop_rect (fun _ w w' => quiet w w')); clear i w.
  - intros _ w _. apply quiet_refl.
  - intros _ w w' _ H. exact (fifo_body_quiet _ _ _ H).
  - intros _ w w' _ H. exact (fifo_body_quiet _ _ _ H).
  - intros _ w w' w'' _ H IH.
    exact (quiet_trans _ _ _ (fifo_body_quiet _ _ _ H) IH).
Qed.

Lemma sync_modifiers_quiet (w : world) : quiet w (lyra_kbd_sync_modifiers w).
Proof.
  unfold lyra_kbd_sync_modifiers. rewrite read_reg_eq.
  split_ifs; quiet_tac.
Qed.

Lemma process_mouse_quiet (w : world) : quiet w (lyra_kbd_process_mouse w).
Proof.
  unfold lyra_kbd_process_mouse. rewrite !read_reg_eq.
  split_ifs; quiet_tac.
Qed.

(** ** Reads of the queue-entry register outside the drain loop *)

Lemma fifo_reads_le_refl (w : world) : fifo_reads_le 0 w w.
Proof. exists []. rewrite app_nil_r. split; [reflexivity | cbn; lia]. Qed.

Lemma fifo_reads_le_trans (n m : nat) (w1 w2 w3 : world) :
  fifo_reads_le n w1 w2 -> fifo_reads_le m w2 w3 -> fifo_reads_le (n + m) w1 w3.
Proof.
  intros (r1 & E1 & L1) (r2 & E2 & L2). exists (r1 ++ r2). split.
  - rewrite E2, E1, app_assoc. reflexivity.
  - rewrite fifo_read_count_app. lia.
Qed.

Ltac no_fifo_tac :=
  unfold fifo_reads_le, input_sync, input_report_key, input_report_rel, emit;
  cbn [reads];
  first [ exists []; split; [rewrite app_nil_r; reflexivity | cbn; lia]
        | rewrite <- ?app_assoc; eexists; split; [reflexivity | cbn; lia] ].

Lemma sync_modifiers_no_fifo (w : world) :
  fifo_reads_le 0 w (lyra_kbd_sync_modifiers w).
Proof.
  unfold lyra_kbd_sync_modifiers. rewrite read_reg_eq.
  split_ifs; no_fifo_tac.
Qed.

Lemma process_mouse_no_fifo (w : world) :
  fifo_reads_le 0 w (lyra_kbd_process_mouse w).
Proof.
  unfold lyra_kbd_process_mouse. rewrite !read_reg_eq.
  split_ifs; no_fifo_tac.
Qed.

Lemma process_fifo_reads_le (w : world) :
  fifo_reads_le (Z.to_nat FIFO_MAX_READ) w (lyra_kbd_process_fifo w).
Proof.
  destruct (fifo_loop_reads 0 w) as (rs & Hr & Hle & _).
  rewrite Z.sub_0_r in Hle. exists rs. auto.
Qed.

(** ** The poll tick *)

Lemma sync_modifiers_frame (w : world) : frame w (lyra_kbd_sync_modifiers w).
Proof.
  unfold lyra_kbd_sync_modifiers. rewrite read_reg_eq.
  unfold input_sync, input_report_key, emit.
  split_ifs; frame_tac.
Qed.

Lemma process_mouse_frame (w : world) : frame w (lyra_kbd_process_mouse w).
Proof.
  unfold lyra_kbd_process_mouse. rewrite !read_reg_eq.
  unfold input_sync, input_report_rel, emit.
  split_ifs; frame_tac.
Qed.

(** The detector asked for the negation of the stored state always fires. *)
Lemma power_button_negated (w : world) :
  let p := power_btn_pressed (kbd w) in
  lyra_kbd_process_power_button (negb p) w =
  mk_world (kbd (set_power_btn_pressed (negb p) w)) (bus w) (reads w)
           (out w ++ [ReportKey kbd_input KEY_POWER (negb p); Sync kbd_input])
           (timer w).
Proof.
  intros p. unfold lyra_kbd_process_power_button. fold p.
  unfold input_sync, input_report_key, emit, set_power_btn_pressed, with_kbd.
  destruct p; cbn; rewrite <- ?app_assoc; reflexivity.
Qed.

Lemma poll_dispatch_read_failed (w : world) :
  bus w (length (reads w)) REG_INT_STATUS < 0 ->
  poll_dispatch w = snd (lyra_kbd_read_reg REG_INT_STATUS w).
Proof.
  intros Hret. unfold poll_dispatch. rewrite read_reg_eq. cbn [snd].
  destruct (Z.ltb_spec (bus w (length (reads w)) REG_INT_STATUS) 0);
    [reflexivity | lia].
Qed.

Lemma lor_eqb_0 (a b : Z) : (Z.lor a b =? 0) = (a =? 0) && (b =? 0).
Proof.
  destruct (Z.eqb_spec (Z.lor a b) 0) as [H|H].
  - apply Z.lor_eq_0_iff in H as [-> ->]. reflexivity.
  - destruct (Z.eqb_spec a 0) as [->|]; [|reflexivity].
    destruct (Z.eqb_spec b 0) as [->|]; [|reflexivity].
    contradiction H. reflexivity.
Qed.

(** The mask of the three modifier-change bits. *)
Lemma change_mask_bits (x : Z) :
  negb (Z.land (u8 x)
          (Z.lor (Z.lor INT_STATUS_SHIFT_CHANGE INT_STATUS_ALT_CHANGE)
                 INT_STATUS_FN_CHANGE) =? 0) =
  Z.testbit x 1 || Z.testbit x 3 || Z.testbit x 2.
Proof.
  rewrite !Z.land_lor_distr_r, !lor_eqb_0, !negb_andb.
  unfold INT_STATUS_SHIFT_CHANGE, INT_STATUS_ALT_CHANGE, INT_STATUS_FN_CHANGE.
  rewrite !status_bit by lia. reflexivity.
Qed.

(** The gates of a tick, bit by bit of the interrupt status. *)
Lemma poll_dispatch_eq (w : world) :
  let st := bus w (length (reads w)) REG_INT_STATUS in
  0 <= st ->
  poll_dispatch w =
  let w0 := snd (lyra_kbd_read_reg REG_INT_STATUS w) in
  let w1 := if Z.testbit st 1 || Z.testbit st 3 || Z.testbit st 2
            then lyra_kbd_sync_modifiers w0 else w0 in
  let w2 := if Z.testbit st 4 then lyra_kbd_process_fifo w1 else w1 in
  let w3 := if Z.testbit st 5 then lyra_kbd_process_mouse w2 else w2 in
  if Z.testbit st 6
  then lyra_kbd_process_power_button (negb (power_btn_pressed (kbd w3))) w3
  else w3.
Proof.
  intros st Hst. unfold poll_dispatch. rewrite read_reg_eq. fold st.
  destruct (Z.ltb_spec st 0); [lia|].
  rewrite change_mask_bits.
  unfold INT_STATUS_KEY_EVENT, INT_STATUS_MOUSE_EVENT, INT_STATUS_POWER_BTN.
  rewrite !status_bit by lia. reflexivity.
Qed.

Section Stages.

(** Any relation between worlds that is a preorder and that the stages
    before the power-button stage respect, holds across those stages. *)
Variable R : world -> world -> Prop.
Hypothesis R_refl : forall w, R w w.
Hypothesis R_trans : forall w1 w2 w3, R w1 w2 -> R w2 w3 -> R w1 w3.
Hypothesis R_status : forall w, R w (snd (lyra_kbd_read_reg REG_INT_STATUS w)).
Hypothesis R_sync : forall w, R w (lyra_kbd_sync_modifiers w).
Hypothesis R_fifo : forall w, R w (lyra_kbd_process_fifo w).
Hypothesis R_mouse : forall w, R w (lyra_kbd_process_mouse w).

Lemma poll_dispatch_stages (w : world) :
  let st := bus w (length (reads w)) REG_INT_STATUS in
  0 <= st ->
  exists w3,
    R w w3 /\
    poll_dispatch w =
      if Z.testbit st 6
      then lyra_kbd_process_power_button (negb (power_btn_pressed (kbd w3))) w3
      else w3.
Proof.
  intros st Hst. rewrite poll_dispatch_eq by exact Hst. fold st. cbv zeta.
  eexists. split; [|reflexivity].
  eapply R_trans; [apply R_status|].
  eapply R_trans; [|destruct (Z.testbit st 5); [apply R_mouse | apply R_refl]].
  eapply R_trans; [|destruct (Z.testbit st 4); [apply R_fifo | apply R_refl]].
  destruct (Z.testbit st 1 || Z.testbit st 3 || Z.testbit st 2);
    [apply R_sync | apply R_refl].
Qed.

End Stages.

Lemma poll_dispatch_steady (w : world) :
  let st := bus w (length (reads w)) REG_INT_STATUS in
  0 <= st ->
  exists w3,
    (frame w w3 /\ quiet w w3) /\
    poll_dispatch w =
      if Z.testbit st 6
      then lyra_kbd_process_power_button (negb (power_btn_pressed (kbd w3))) w3
      else w3.
Proof.
  apply (poll_dispatch_stages (fun w w' => frame w w' /\ quiet w w')).
  - intros w0. split; [apply frame_refl | apply quiet_refl].
  - intros w1 w2 w3 [F12 Q12] [F23 Q23].
    split; [exact (frame_trans _ _ _ F12 F23) | exact (quiet_trans _ _ _ Q12 Q23)].
  - intros w0. split; [apply read_reg_frame | apply read_reg_quiet].
  - intros w0. split; [apply sync_modifiers_frame | apply sync_modifiers_quiet].
  - intros w0. split; [apply fifo_loop_frame | apply fifo_loop_quiet].
  - intros w0. split; [apply process_mouse_frame | apply process_mouse_quiet].
Qed.

Lemma poll_dispatch_keeps_schedule (w : world) :
  timer (poll_dispatch w) = timer w /\
  poll_interval_ms (kbd (poll_dispatch w)) = poll_interval_ms (kbd w).
Proof.
  destruct (Z_lt_dec (bus w (length (reads w)) REG_INT_STATUS) 0) as [Hf|Hok].
  - rewrite poll_dispatch_read_failed by assumption. split; reflexivity.
  - destruct (poll_dispatch_steady w) as (w3 & [F _] & ->); [lia|].
    destruct (Z.testbit _ 6).
    + rewrite power_button_negated. cbn.
      split; [apply (frame_timer _ _ F) | apply (frame_interval _ _ F)].
    + split; [apply (frame_timer _ _ F) | apply (frame_interval _ _ F)].
Qed.

(** One tick with the power-button bit set. *)
Lemma poll_work_power (w : world) :
  let st := bus w (length (reads w)) REG_INT_STATUS in
  let p := power_btn_pressed (kbd w) in
  0 <= st -> Z.testbit st 6 = true ->
  power_btn_pressed (kbd (lyra_kbd_poll_work w)) = negb p /\
  exists cs,
    out (lyra_kbd_poll_work w) =
      out w ++ cs ++ [ReportKey kbd_input KEY_POWER (negb p); Sync kbd_input] /\
    (press_state_ok (kbd w) -> power_reports cs = []).
Proof.
  intros st p Hst Hbit. unfold lyra_kbd_poll_work.
  destruct (poll_dispatch_steady w) as (w3 & [F Q] & ->); [exact Hst|].
  fold st. rewrite Hbit, power_button_negated. cbn.
  rewrite (frame_power _ _ F). split; [reflexivity|].
  destruct (frame_out _ _ F) as [cs Hcs]. exists cs. split.
  - rewrite Hcs, <- app_assoc. reflexivity.
  - intros Hok. destruct (quiet_out _ _ Q Hok) as (cs' & Hcs' & Hnone).
    rewrite Hcs in Hcs'. apply app_inv_head in Hcs'. subst cs'. exact Hnone.
Qed.

(** PressState stays within [press_state_ok] across a tick. *)
Lemma poll_work_press_state_ok (w : world) :
  press_state_ok (kbd w) -> press_state_ok (kbd (lyra_kbd_poll_work w)).
Proof.
  intros Hok. unfold lyra_kbd_poll_work, schedule_delayed_work. cbn [kbd].
  destruct (Z_lt_dec (bus w (length (reads w)) REG_INT_STATUS) 0) as [Hf|Hs].
  - rewrite poll_dispatch_read_failed by assumption. exact Hok.
  - destruct (poll_dispatch_steady w) as (w3 & [F Q] & ->); [lia|].
    pose proof (quiet_press_state _ _ Q Hok) as Hok3.
    destruct (Z.testbit _ 6); [|exact Hok3].
    rewrite power_button_negated. exact Hok3.
Qed.

(** C5. A tick whose interrupt status has the power-button bit set flips
    the stored power-button state and ends by reporting the power key at
    the new state; two such ticks in a row flip the state twice.  When
    PressState holds what the driver puts there (0 or keymap entries),
    nothing else in those ticks reports the power key: the two ticks report
    it at the negation of the original state, then at the original state. *)
Theorem power_button_toggle (w : world) :
  let st1 := bus w (length (reads w)) REG_INT_STATUS in
  let w1 := lyra_kbd_poll_work w in
  let st2 := bus w1 (length (reads w1)) REG_INT_STATUS in
  let w2 := lyra_kbd_poll_work w1 in
  let p := power_btn_pressed (kbd w) in
  0 <= st1 -> Z.testbit st1 6 = true ->
  0 <= st2 -> Z.testbit st2 6 = true ->
  power_btn_pressed (kbd w1) = negb p /\
  (exists cs,
     out w1 = out w ++ cs ++ [ReportKey kbd_input KEY_POWER (negb p); Sync kbd_input]) /\
  power_btn_pressed (kbd w2) = p /\
  (exists cs,
     out w2 = out w1 ++ cs ++ [ReportKey kbd_input KEY_POWER p; Sync kbd_input]) /\
  (press_state_ok (kbd w) ->
     power_reports (out w2) = power_reports (out w) ++ [negb p; p]).
Proof.
  intros st1 w1 st2 w2 p H1 B1 H2 B2.
  destruct (poll_work_power w H1 B1) as (Hp1 & c1 & Ho1 & N1).
  fold w1 in Hp1, Ho1. fold p in Hp1, Ho1, N1.
  destruct (poll_work_power w1 H2 B2) as (Hp2 & c2 & Ho2 & N2).
  fold w2 in Hp2, Ho2. rewrite Hp1, negb_involutive in Hp2, Ho2.
  split; [exact Hp1|]. split; [exists c1; exact Ho1|].
  split; [exact Hp2|]. split; [exists c2; exact Ho2|].
  intros Hok. specialize (N1 Hok).
  specialize (N2 (poll_work_press_state_ok w Hok)).
  rewrite Ho2, Ho1. unfold power_reports in *.
  rewrite !omap_app, N1, N2. cbn. rewrite <- app_assoc. reflexivity.
Qed.

(** C6. Every tick arms the delayed work again, once, with the configured
    interval.  A tick whose read of the interrupt-status register fails
    does nothing else: no other register is read, nothing is reported and
    the driver data is unchanged. *)
Theorem poll_always_reschedules (w : world) :
  timer (lyra_kbd_poll_work w) = timer w ++ [poll_interval_ms (kbd w)] /\
  (let st := bus w (length (reads w)) REG_INT_STATUS in
   st < 0 ->
   reads (lyra_kbd_poll_work w) = reads w ++ [(REG_INT_STATUS, st)] /\
   out (lyra_kbd_poll_work w) = out w /\
   kbd (lyra_kbd_poll_work w) = kbd w).
Proof.
  split.
  - unfold lyra_kbd_poll_work, schedule_delayed_work. cbn [timer].
    destruct (poll_dispatch_keeps_schedule w) as [-> ->]. reflexivity.
  - intros st Hst. unfold lyra_kbd_poll_work.
    rewrite poll_dispatch_read_failed by exact Hst.
    repeat split.
Qed.

(** A whole tick reads the queue-entry register at most 16 times. *)
Lemma poll_work_fifo_reads (w : world) :
  fifo_reads_le (Z.to_nat FIFO_MAX_READ) w (lyra_kbd_poll_work w).
Proof.
  assert (Hst : fifo_reads_le 0 w (snd (lyra_kbd_read_reg REG_INT_STATUS w))).
  { exists [(REG_INT_STATUS, bus w (length (reads w)) REG_INT_STATUS)].
    split; [reflexivity | cbn; lia]. }
  unfold lyra_kbd_poll_work, schedule_delayed_work, fifo_reads_le. cbn [reads].
  change (fifo_reads_le (Z.to_nat FIFO_MAX_READ) w (poll_dispatch w)).
  destruct (Z_lt_dec (bus w (length (reads w)) REG_INT_STATUS) 0) as [Hf|Hok].
  { rewrite poll_dispatch_read_failed by assumption.
    destruct Hst as (rs & E & L). exists rs. split; [exact E | lia]. }
  rewrite poll_dispatch_eq by lia. cbv zeta.
  set (st := bus w (length (reads w)) REG_INT_STATUS).
  set (w0 := snd (lyra_kbd_read_reg REG_INT_STATUS w)) in *.
  set (w1 := if Z.testbit st 1 || Z.testbit st 3 || Z.testbit st 2
             then lyra_kbd_sync_modifiers w0 else w0).
  set (w2 := if Z.testbit st 4 then lyra_kbd_process_fifo w1 else w1).
  set (w3 := if Z.testbit st 5 then lyra_kbd_process_mouse w2 else w2).
  assert (H1 : fifo_reads_le 0 w0 w1).
  { unfold w1. destruct (_ || _);
      [apply sync_modifiers_no_fifo | apply fifo_reads_le_refl]. }
  assert (H2 : fifo_reads_le (Z.to_nat FIFO_MAX_READ) w1 w2).
  { unfold w2. destruct (Z.testbit st 4); [apply process_fifo_reads_le|].
    destruct (fifo_reads_le_refl w1) as (rs & E & L). exists rs. split; [exact E | lia]. }
  assert (H3 : fifo_reads_le 0 w2 w3).
  { unfold w3. destruct (Z.testbit st 5);
      [apply process_mouse_no_fifo | apply fifo_reads_le_refl]. }
  pose proof (fifo_reads_le_trans _ _ _ _ _
                (fifo_reads_le_trans _ _ _ _ _
                   (fifo_reads_le_trans _ _ _ _ _ Hst H1) H2) H3) as H.
  replace (0 + 0 + Z.to_nat FIFO_MAX_READ + 0)%nat
    with (Z.to_nat FIFO_MAX_READ) in H by lia.
  destruct (Z.testbit st 6); [|exact H].
  rewrite power_button_negated. exact H.
Qed.

(** ** FIFO drain bound *)

(** C3. One call of the FIFO decoder reads the queue-entry register at most
    16 times; when it reads it fewer than 16 times, the last read it made
    is a read of that register that failed or returned an entry of type
    None; against a register that never fails and never returns None it
    reads exactly 16 entries.  The decoder runs at most once per tick: a
    whole tick reads the queue-entry register at most 16 times. *)
Theorem fifo_drain_bound (w : world) :
  (exists rs,
    reads (lyra_kbd_process_fifo w) = reads w ++ rs /\
    (fifo_read_count rs <= Z.to_nat FIFO_MAX_READ)%nat /\
    ((fifo_read_count rs < Z.to_nat FIFO_MAX_READ)%nat ->
     exists pre,
       let ret := bus w (length (reads w ++ pre)) REG_FIFO_ACCESS in
       rs = pre ++ [(REG_FIFO_ACCESS, ret)] /\
       (ret < 0 \/ entry_type ret = FIFO_EVENT_NONE)) /\
    ((forall n, 0 <= bus w n REG_FIFO_ACCESS /\
                entry_type (bus w n REG_FIFO_ACCESS) <> FIFO_EVENT_NONE) ->
     fifo_read_count rs = Z.to_nat FIFO_MAX_READ)) /\
  (exists rs,
    reads (lyra_kbd_poll_work w) = reads w ++ rs /\
    (fifo_read_count rs <= Z.to_nat FIFO_MAX_READ)%nat) /\
  Z.to_nat FIFO_MAX_READ = 16%nat.
Proof.
  split; [|split; [exact (poll_work_fifo_reads w) | reflexivity]].
  destruct (fifo_loop_reads 0 w) as (rs & Hr & Hle & Hlast).
  rewrite Z.sub_0_r in Hle, Hlast.
  exists rs. repeat split; try assumption.
  intros Hnever.
  destruct (Nat.eq_dec (fifo_read_count rs) (Z.to_nat FIFO_MAX_READ)) as [|Hne];
    [assumption|].
  destruct Hlast as (pre & _ & Hstop); [lia|]. cbn zeta in Hstop.
  destruct (Hnever (length (reads w ++ pre))) as [Hok Hty].
  destruct Hstop; [lia | contradiction].
Qed.

(** ** Sysfs stores *)

Section SysfsFacts.

Variable kstrtoint : string -> Z -> option Z.
Variable kstrtouint : string -> Z -> option Z.

(** C8. A store to [mouse_speed_x], [mouse_speed_y] or [poll_interval]
    whose text does not parse, or parses to a value outside the valid range
    ([10, 500] for the speeds, [5, 100] for the interval), returns [-EINVAL]
    and leaves the driver data as it was; a store of a value in range
    returns [count] and sets exactly that field to the value. *)
Theorem store_rejects_or_stores (buf : string) (count : Z) (k : lyra_kbd_data) :
  (forall val, kstrtoint buf 10 = Some val -> 10 <= val <= 500 ->
     mouse_speed_x_store kstrtoint buf count k =
       (count, mk_kbd (last_key_pressed k) val (mouse_speed_y k)
                      (power_btn_pressed k) (poll_interval_ms k)) /\
     mouse_speed_y_store kstrtoint buf count k =
       (count, mk_kbd (last_key_pressed k) (mouse_speed_x k) val
                      (power_btn_pressed k) (poll_interval_ms k))) /\
  (kstrtoint buf 10 = None \/
   (exists val, kstrtoint buf 10 = Some val /\ (val < 10 \/ 500 < val)) ->
     mouse_speed_x_store kstrtoint buf count k = (- EINVAL, k) /\
     mouse_speed_y_store kstrtoint buf count k = (- EINVAL, k)) /\
  (forall val, kstrtouint buf 10 = Some val -> 5 <= val <= 100 ->
     poll_interval_store kstrtouint buf count k =
       (count, mk_kbd (last_key_pressed k) (mouse_speed_x k) (mouse_speed_y k)
                      (power_btn_pressed k) val)) /\
  (kstrtouint buf 10 = None \/
   (exists val, kstrtouint buf 10 = Some val /\ (val < 5 \/ 100 < val)) ->
     poll_interval_store kstrtouint buf count k = (- EINVAL, k)) /\
  - EINVAL < 0.
Proof.
  unfold mouse_speed_x_store, mouse_speed_y_store, poll_interval_store.
  split; [|split; [|split; [|split; [|reflexivity]]]].
  - intros val -> Hr.
    destruct (Z.ltb_spec val 10), (Z.ltb_spec 500 val); try lia.
    split; reflexivity.
  - intros [-> | (val & -> & Hr)]; [split; reflexivity|].
    destruct (Z.ltb_spec val 10), (Z.ltb_spec 500 val); try lia;
      split; reflexivity.
  - intros val -> Hr.
    destruct (Z.ltb_spec val 5), (Z.ltb_spec 100 val); try lia.
    reflexivity.
  - intros [-> | (val & -> & Hr)]; [reflexivity|].
    destruct (Z.ltb_spec val 5), (Z.ltb_spec 100 val); try lia; reflexivity.
Qed.

End SysfsFacts.

(** ** The theorems at work on sample peripherals *)

Lemma probe_press_state_ok : press_state_ok probe_kbd.
Proof.
  split; [reflexivity|]. apply Forall_replicate. left. reflexivity.
Qed.

(** Key 48 pressed without modifiers and released under shift: the release
    is of the left button, though shift now maps the key to the right one. *)
Lemma press_release_symmetry_witness :
  out (lyra_kbd_process_key_event 48 false
         (lyra_kbd_process_key_event 48 true shift_comes_late)) =
    key_report 48 BTN_LEFT true ++ key_report 48 BTN_LEFT false /\
  resolve 1 48 = BTN_RIGHT.
Proof.
  split; [|reflexivity].
  destruct (press_release_symmetry shift_comes_late
              (lyra_kbd_process_key_event 48 true shift_comes_late) 48)
    as (Hpress & _ & Hrelease);
    [unfold MAX_KEYCODES; lia | reflexivity | reflexivity | reflexivity
    | apply Z.leb_le; reflexivity | apply Z.leb_le; reflexivity | reflexivity |].
  rewrite Hrelease, Hpress. reflexivity.
Defined.

(** Key 48 pressed with fn and shift held is the middle button. *)
Lemma layer_priority_witness :
  out (lyra_kbd_process_key_event 48 true fn_and_shift) =
    key_report 48 BTN_MIDDLE true.
Proof.
  destruct (layer_priority fn_and_shift 48) as (key & Hout & Hboth & _);
    [unfold MAX_KEYCODES; lia | reflexivity | apply Z.leb_le; reflexivity |].
  rewrite Hout, (Hboth eq_refl eq_refl). reflexivity.
Defined.

(** Deltas of 1 and -1 at 10 percent still move by 1 and -1. *)
Lemma mouse_scaling_witness :
  out (lyra_kbd_process_mouse slow_mouse) =
    [ReportRel mouse_input REL_X 1; ReportRel mouse_input REL_Y (-1);
     Sync mouse_input].
Proof.
  destruct (mouse_scaling slow_mouse) as (cx & cy & Hout & _ & _ & Hx & Hy);
    [apply Z.leb_le; reflexivity | apply Z.leb_le; reflexivity |].
  destruct (Hx ltac:(discriminate)) as (ax & -> & Hax).
  destruct (Hy ltac:(discriminate)) as (ay & -> & Hay).
  destruct (Hax ltac:(cbn; lia)) as (-> & _).
  destruct (Hay ltac:(cbn; lia)) as (-> & _).
  rewrite Hout. reflexivity.
Defined.

(** Two power-button interrupts after probe: pressed, then released. *)
Lemma power_button_toggle_witness :
  power_reports (out (lyra_kbd_poll_work (lyra_kbd_poll_work power_only))) =
    [true; false].
Proof.
  destruct (power_button_toggle power_only) as (_ & _ & _ & _ & Hreports);
    [apply Z.leb_le; reflexivity | reflexivity
    | apply Z.leb_le; reflexivity | reflexivity |].
  rewrite (Hreports probe_press_state_ok). reflexivity.
Defined.

(** A Hold entry at the first pass of the loop. *)
Lemma hold_is_inert_witness :
  exists w',
    fifo_body hold_5 = (Next, w') /\
    kbd w' = kbd hold_5 /\
    out w' = out hold_5 /\
    reads w' = reads hold_5 ++ [(REG_FIFO_ACCESS, 22)] /\
    fifo_loop 0 hold_5 = fifo_loop (0 + 1) w'.
Proof.
  apply (hold_is_inert 0 hold_5);
    [apply Z.leb_le; reflexivity | reflexivity | reflexivity].
Defined.

(** A Press entry whose key-status read fails, at the first pass. *)
Lemma key_status_error_drops_event_witness :
  exists w',
    fifo_body press_5_status_down = (Next, w') /\
    kbd w' = kbd press_5_status_down /\
    out w' = out press_5_status_down /\
    reads w' = reads press_5_status_down ++
               [(REG_FIFO_ACCESS, 21); (REG_KEY_STATUS, -5)] /\
    fifo_loop 0 press_5_status_down = fifo_loop (0 + 1) w'.
Proof.
  apply (key_status_error_drops_event 0 press_5_status_down);
    [apply Z.leb_le; reflexivity | left; reflexivity | reflexivity
    | reflexivity | reflexivity].
Defined.

(** * Further properties of the driver *)

(** ** Queue entries: the byte and its two fields *)

Lemma land_3_mod (x : Z) : Z.land x 3 = x mod 4.
Proof. change 3 with (Z.ones 2). rewrite Z.land_ones by lia. reflexivity. Qed.

Lemma shiftr_2_div (x : Z) : Z.shiftr x 2 = x / 4.
Proof. rewrite Z.shiftr_div_pow2 by lia. reflexivity. Qed.

(** X1. The decoder of the drain loop splits a byte into type (low two
    bits) and keycode (upper six bits) without loss: the byte made of a
    keycode and a type decodes to them, and every answer of the register
    decodes to a type in 0..3 and a keycode in 0..63 that make up its low
    byte again. *)
Theorem fifo_entry_roundtrip (keycode type : Z) :
  0 <= keycode < 64 -> 0 <= type < 4 ->
  let byte := keycode * 4 + type in
  0 <= byte < 256 /\
  Z.land (u8 byte) FIFO_EVENT_TYPE_MASK = type /\
  Z.shiftr (Z.land (u8 byte) FIFO_KEYCODE_MASK) FIFO_KEYCODE_SHIFT = keycode /\
  (forall ret,
     let t := Z.land (u8 ret) FIFO_EVENT_TYPE_MASK in
     let k := Z.shiftr (Z.land (u8 ret) FIFO_KEYCODE_MASK) FIFO_KEYCODE_SHIFT in
     0 <= t < 4 /\ 0 <= k < 64 /\ u8 ret = k * 4 + t).
Proof.
  intros Hk Ht byte.
  assert (Hb : 0 <= byte < 256) by (unfold byte; lia).
  assert (Hu : u8 byte = byte) by (unfold u8; apply Z.mod_small; exact Hb).
  split; [exact Hb|]. split; [|split].
  - rewrite Hu. unfold FIFO_EVENT_TYPE_MASK. rewrite land_3_mod.
    unfold byte. rewrite Z.add_comm, Z.mod_add by lia. apply Z.mod_small, Ht.
  - rewrite keycode_mask_shift. unfold entry_keycode. rewrite Hu, shiftr_2_div.
    unfold byte. rewrite Z.add_comm, Z.div_add by lia.
    rewrite Z.div_small by lia. reflexivity.
  - intros ret. cbv zeta. rewrite keycode_mask_shift.
    unfold entry_keycode, FIFO_EVENT_TYPE_MASK. rewrite land_3_mod, shiftr_2_div.
    assert (Hr : 0 <= u8 ret < 256) by (unfold u8; apply Z.mod_pos_bound; lia).
    pose proof (Z.mod_pos_bound (u8 ret) 4 ltac:(lia)).
    pose proof (Z.div_mod (u8 ret) 4 ltac:(lia)).
    assert (0 <= u8 ret / 4 < 64)
      by (split; [apply Z.div_pos; lia | apply Z.div_lt_upper_bound; lia]).
    lia.
Qed.

(** ** Key events at the edges *)

Lemma modifier_position_cases (k : Z) :
  is_modifier_position k = true ->
  k = 25 \/ k = 41 \/ k = 30 \/ k = 37 \/ k = 33.
Proof.
  unfold is_modifier_position, modifier_exclusion. cbn [existsb].
  rewrite !orb_true_iff, !Z.eqb_eq.
  intros [?|[?|[?|[?|[?|?]]]]]; auto 10. discriminate.
Qed.

(** X2. At the positions of shift, alt and fn a key event reports nothing,
    and at the position of ctrl it reports the left-ctrl key, pressed or
    released, without a scan code; in all five cases PressState and the
    rest of the driver data are untouched, whatever the modifiers. *)
Theorem modifier_positions_bypass_keymap (k : Z) (p : bool) (w : world) :
  is_modifier_position k = true ->
  0 <= bus w (length (reads w)) REG_KEY_STATUS ->
  let w' := lyra_kbd_process_key_event k p w in
  kbd w' = kbd w /\
  reads w' = reads w ++ [(REG_KEY_STATUS, bus w (length (reads w)) REG_KEY_STATUS)] /\
  out w' = out w ++ (if k =? 33
                     then [ReportKey kbd_input KEY_LEFTCTRL p; Sync kbd_input]
                     else []).
Proof.
  intros Hx Hs w'. unfold w', lyra_kbd_process_key_event.
  rewrite read_reg_eq.
  destruct (Z.ltb_spec (bus w (length (reads w)) REG_KEY_STATUS) 0); [lia|].
  apply modifier_position_cases in Hx.
  destruct Hx as [-> | [-> | [-> | [-> | ->]]]]; cbn;
    rewrite <- ?app_assoc, ?app_nil_r; auto.
Qed.

(** X3. A press or release entry whose keycode is 53 or more is dropped
    before the key-status register is read: the entry costs one read of
    the queue, changes nothing and reports nothing, and the loop goes on. *)
Theorem out_of_range_entry_dropped (i : Z) (w : world) :
  let ret := bus w (length (reads w)) REG_FIFO_ACCESS in
  0 <= ret ->
  entry_type ret = FIFO_EVENT_PRESS \/ entry_type ret = FIFO_EVENT_RELEASE ->
  MAX_KEYCODES <= entry_keycode ret ->
  i < FIFO_MAX_READ ->
  exists w',
    fifo_body w = (Next, w') /\
    kbd w' = kbd w /\
    out w' = out w /\
    reads w' = reads w ++ [(REG_FIFO_ACCESS, ret)] /\
    fifo_loop i w = fifo_loop (i + 1) w'.
Proof.
  intros ret Hret Hty Hk Hi.
  assert (Hb : fifo_body w = (Next, snd (lyra_kbd_read_reg REG_FIFO_ACCESS w))).
  { rewrite fifo_body_eq. fold ret.
    destruct (Z.ltb_spec ret 0); [lia|].
    destruct Hty as [-> | ->]; cbn [Z.eqb FIFO_EVENT_NONE FIFO_EVENT_PRESS
      FIFO_EVENT_RELEASE Pos.eqb]; rewrite key_event_invalid by exact Hk;
      reflexivity. }
  eexists. split; [exact Hb|]. repeat split.
  apply fifo_loop_next; assumption.
Qed.

(** The driver data after a key event: as before, or with the slot of the
    keycode rewritten. *)
Lemma key_event_kbd (k : Z) (p : bool) (w : world) :
  kbd (lyra_kbd_process_key_event k p w) = kbd w \/
  exists v, kbd (lyra_kbd_process_key_event k p w) =
            kbd (set_last_key_pressed k v w).
Proof.
  unfold lyra_kbd_process_key_event. rewrite read_reg_eq.
  unfold input_sync, input_report_key, input_event, emit, set_last_key_pressed,
    get_last_key_pressed, with_kbd.
  split_ifs; cbn; eauto.
Qed.

(** X4. A key event for one keycode never changes the PressState slot of
    another keycode, nor the tunables or the power-button state. *)
Theorem key_event_keeps_other_slots (k j : Z) (p : bool) (w : world) :
  0 <= k -> 0 <= j -> j <> k ->
  let w' := lyra_kbd_process_key_event k p w in
  get_last_key_pressed j w' = get_last_key_pressed j w /\
  length (last_key_pressed (kbd w')) = length (last_key_pressed (kbd w)) /\
  mouse_speed_x (kbd w') = mouse_speed_x (kbd w) /\
  mouse_speed_y (kbd w') = mouse_speed_y (kbd w) /\
  poll_interval_ms (kbd w') = poll_interval_ms (kbd w) /\
  power_btn_pressed (kbd w') = power_btn_pressed (kbd w).
Proof.
  intros Hk Hj Hne w'. unfold w', get_last_key_pressed.
  destruct (key_event_kbd k p w) as [-> | [v ->]]; [repeat split|].
  cbn. rewrite length_insert. repeat split.
  apply list_lookup_total_insert_ne. lia.
Qed.

Lemma get_last_key_pressed_kbd (k : Z) (w w' : world) :
  kbd w = kbd w' -> get_last_key_pressed k w = get_last_key_pressed k w'.
Proof. unfold get_last_key_pressed. intros ->. reflexivity. Qed.

(** A successful press of a non-modifier key, field by field. *)
Lemma press_facts (k : Z) (w : world) :
  k < MAX_KEYCODES -> is_modifier_position k = false ->
  0 <= bus w (length (reads w)) REG_KEY_STATUS ->
  let s := bus w (length (reads w)) REG_KEY_STATUS in
  let w' := lyra_kbd_process_key_event k true w in
  bus w' = bus w /\ timer w' = timer w /\
  reads w' = reads w ++ [(REG_KEY_STATUS, s)] /\
  out w' = out w ++ key_report k (resolve s k) true /\
  kbd w' = kbd (set_last_key_pressed k (resolve s k) w).
Proof.
  intros Hk Hx Hs s w'. unfold w'.
  rewrite key_event_press by assumption. repeat split.
Qed.

(** A successful release of a non-modifier key, field by field. *)
Lemma release_facts (k : Z) (w : world) :
  k < MAX_KEYCODES -> is_modifier_position k = false ->
  0 <= bus w (length (reads w)) REG_KEY_STATUS ->
  let s := bus w (length (reads w)) REG_KEY_STATUS in
  let recorded := get_last_key_pressed k w in
  let w' := lyra_kbd_process_key_event k false w in
  bus w' = bus w /\ timer w' = timer w /\
  reads w' = reads w ++ [(REG_KEY_STATUS, s)] /\
  out w' = out w ++
           key_report k (if recorded =? 0 then resolve s k else recorded) false /\
  kbd w' = kbd (set_last_key_pressed k 0 w).
Proof.
  intros Hk Hx Hs s recorded w'. unfold w'.
  rewrite key_event_release by assumption. repeat split.
Qed.

Lemma length_snoc_reads (rs : list (Z * Z)) (r : Z * Z) :
  length (rs ++ [r]) = S (length rs).
Proof. rewrite length_app. cbn. lia. Qed.

(** X5. A second press of a key that was not released overwrites its
    PressState slot: the release that follows reports the key of the second
    press, and the key reported by the first press is never released. *)
Theorem second_press_overwrites (k : Z) (w : world) :
  0 <= k < MAX_KEYCODES -> is_modifier_position k = false ->
  kbd_wf (kbd w) ->
  let n := length (reads w) in
  let s1 := bus w n REG_KEY_STATUS in
  let s2 := bus w (S n) REG_KEY_STATUS in
  let s3 := bus w (S (S n)) REG_KEY_STATUS in
  0 <= s1 -> 0 <= s2 -> 0 <= s3 ->
  let w1 := lyra_kbd_process_key_event k true w in
  let w2 := lyra_kbd_process_key_event k true w1 in
  let w3 := lyra_kbd_process_key_event k false w2 in
  out w3 = out w ++ key_report k (resolve s1 k) true ++
                    key_report k (resolve s2 k) true ++
                    key_report k (resolve s2 k) false /\
  get_last_key_pressed k w2 = resolve s2 k /\
  get_last_key_pressed k w3 = 0.
Proof.
  intros Hk Hx Hwf n s1 s2 s3 H1 H2 H3 w1 w2 w3.
  destruct (press_facts k w (proj2 Hk) Hx H1) as (B1 & _ & R1 & O1 & K1).
  fold w1 in B1, R1, O1, K1. fold n s1 in R1, O1, K1.
  assert (L1 : length (reads w1) = S n) by (rewrite R1; apply length_snoc_reads).
  assert (Hwf1 : kbd_wf (kbd w1)) by (apply (frame_wf _ _ (key_event_frame k true w)), Hwf).
  assert (E2 : bus w1 (length (reads w1)) REG_KEY_STATUS = s2)
    by (rewrite B1, L1; reflexivity).
  destruct (press_facts k w1 (proj2 Hk) Hx ltac:(rewrite E2; exact H2))
    as (B2 & _ & R2 & O2 & K2).
  fold w2 in B2, R2, O2, K2. rewrite E2 in R2, O2, K2.
  assert (L2 : length (reads w2) = S (S n))
    by (rewrite R2, length_snoc_reads, L1; reflexivity).
  assert (Hwf2 : kbd_wf (kbd w2)) by (apply (frame_wf _ _ (key_event_frame k true w1)), Hwf1).
  assert (E3 : bus w2 (length (reads w2)) REG_KEY_STATUS = s3)
    by (rewrite B2, B1, L2; reflexivity).
  assert (G2 : get_last_key_pressed k w2 = resolve s2 k).
  { rewrite (get_last_key_pressed_kbd k _ _ K2).
    apply get_set_last_key_pressed; assumption. }
  destruct (release_facts k w2 (proj2 Hk) Hx ltac:(rewrite E3; exact H3))
    as (_ & _ & _ & O3 & K3).
  fold w3 in O3, K3. rewrite E3, G2 in O3.
  split; [|split; [exact G2|]].
  - rewrite O3, O2, O1, <- !app_assoc.
    destruct (Z.eqb_spec (resolve s2 k) 0) as [H0|_]; [|reflexivity].
    exfalso. exact (resolve_nonzero s2 k (proj2 Hk) H0).
  - rewrite (get_last_key_pressed_kbd k _ _ K3).
    apply get_set_last_key_pressed; assumption.
Qed.

(** X6. A release empties the PressState slot of its key, so a release
    that comes again without a press in between finds no record and
    reports the key the modifiers of that moment resolve to. *)
Theorem repeated_release_falls_back (k : Z) (w : world) :
  0 <= k < MAX_KEYCODES -> is_modifier_position k = false ->
  kbd_wf (kbd w) ->
  let n := length (reads w) in
  let s1 := bus w n REG_KEY_STATUS in
  let s2 := bus w (S n) REG_KEY_STATUS in
  0 <= s1 -> 0 <= s2 ->
  let w1 := lyra_kbd_process_key_event k false w in
  let w2 := lyra_kbd_process_key_event k false w1 in
  get_last_key_pressed k w1 = 0 /\
  out w2 = out w1 ++ key_report k (resolve s2 k) false /\
  get_last_key_pressed k w2 = 0.
Proof.
  intros Hk Hx Hwf n s1 s2 H1 H2 w1 w2.
  destruct (release_facts k w (proj2 Hk) Hx H1) as (B1 & _ & R1 & _ & K1).
  fold w1 in B1, R1, K1. fold n s1 in R1.
  assert (L1 : length (reads w1) = S n) by (rewrite R1; apply length_snoc_reads).
  assert (Hwf1 : kbd_wf (kbd w1)) by (apply (frame_wf _ _ (key_event_frame k false w)), Hwf).
  assert (E2 : bus w1 (length (reads w1)) REG_KEY_STATUS = s2)
    by (rewrite B1, L1; reflexivity).
  assert (G1 : get_last_key_pressed k w1 = 0).
  { rewrite (get_last_key_pressed_kbd k _ _ K1).
    apply get_set_last_key_pressed; assumption. }
  destruct (release_facts k w1 (proj2 Hk) Hx ltac:(rewrite E2; exact H2))
    as (_ & _ & _ & O2 & K2).
  fold w2 in O2, K2. rewrite E2, G1 in O2.
  split; [exact G1|]. split; [exact O2|].
  rewrite (get_last_key_pressed_kbd k _ _ K2).
  apply get_set_last_key_pressed; assumption.
Qed.

(** ** Modifier synchronisation and the mouse at the edges *)

Lemma sync_modifiers_eq (w : world) :
  let ks := bus w (length (reads w)) REG_KEY_STATUS in
  lyra_kbd_sync_modifiers w =
  mk_world (kbd w) (bus w) (reads w ++ [(REG_KEY_STATUS, ks)])
    (out w ++ (if ks <? 0 then []
               else [ReportKey kbd_input KEY_LEFTSHIFT (Z.testbit ks 0);
                     ReportKey kbd_input KEY_LEFTALT (Z.testbit ks 1);
                     Sync kbd_input]))
    (timer w).
Proof.
  intros ks. unfold lyra_kbd_sync_modifiers. rewrite read_reg_eq. fold ks.
  destruct (ks <? 0).
  - rewrite app_nil_r. reflexivity.
  - unfold KEY_STATUS_SHIFT_BIT, KEY_STATUS_ALT_BIT.
    rewrite !status_bit by lia.
    unfold input_sync, input_report_key, emit. cbn.
    rewrite <- !app_assoc. reflexivity.
Qed.

(** X7. A tick whose interrupt status shows a modifier change (shift, fn or
    alt) and no other event reads the key status once and reports the
    states of shift and alt as they are in it, changed or not; the fn state
    is not reported, even when fn is what changed.  When the key-status
    read fails the tick reports nothing. *)
Theorem modifier_change_reports_shift_and_alt (w : world) :
  let n := length (reads w) in
  let st := bus w n REG_INT_STATUS in
  let ks := bus w (S n) REG_KEY_STATUS in
  0 <= st ->
  Z.testbit st 1 || Z.testbit st 3 || Z.testbit st 2 = true ->
  Z.testbit st 4 = false -> Z.testbit st 5 = false -> Z.testbit st 6 = false ->
  let w' := lyra_kbd_poll_work w in
  kbd w' = kbd w /\
  reads w' = reads w ++ [(REG_INT_STATUS, st); (REG_KEY_STATUS, ks)] /\
  (0 <= ks ->
     out w' = out w ++ [ReportKey kbd_input KEY_LEFTSHIFT (Z.testbit ks 0);
                        ReportKey kbd_input KEY_LEFTALT (Z.testbit ks 1);
                        Sync kbd_input]) /\
  (ks < 0 -> out w' = out w).
Proof.
  intros n st ks Hst Hchg H4 H5 H6 w'. unfold w', lyra_kbd_poll_work.
  rewrite poll_dispatch_eq by exact Hst. fold n st. cbv zeta.
  rewrite Hchg, H4, H5, H6, sync_modifiers_eq, read_reg_eq.
  cbn [snd kbd bus reads out timer schedule_delayed_work].
  rewrite length_app, Nat.add_1_r. fold n ks.
  rewrite <- app_assoc. repeat split.
  - intros Hks. destruct (Z.ltb_spec ks 0); [lia | reflexivity].
  - intros Hks. destruct (Z.ltb_spec ks 0); [apply app_nil_r | lia].
Qed.

(** The mouse processor, by outcome of its two reads. *)
Lemma process_mouse_cases (w : world) :
  let n := length (reads w) in
  let rx := bus w n REG_MOUSE_X in
  let ry := bus w (S n) REG_MOUSE_Y in
  let w' := lyra_kbd_process_mouse w in
  kbd w' = kbd w /\
  (rx < 0 -> out w' = out w /\ reads w' = reads w ++ [(REG_MOUSE_X, rx)]) /\
  (0 <= rx -> ry < 0 ->
     out w' = out w /\
     reads w' = reads w ++ [(REG_MOUSE_X, rx); (REG_MOUSE_Y, ry)]).
Proof.
  intros n rx ry w'. unfold w', lyra_kbd_process_mouse.
  rewrite read_reg_eq. fold n rx.
  destruct (Z.ltb_spec rx 0) as [Hx|Hx].
  { repeat split; lia. }
  rewrite read_reg_eq. cbn [reads bus kbd out timer].
  rewrite length_app, Nat.add_1_r. fold n ry.
  destruct (Z.ltb_spec ry 0) as [Hy|Hy].
  { cbn. rewrite <- app_assoc. repeat split; lia. }
  split; [|split; intros; lia].
  unfold input_sync, input_report_rel, emit. split_ifs; reflexivity.
Qed.

(** X8. The mouse processor never changes the driver data.  When the read
    of the X delta fails it stops there, without reading Y; when the read
    of the Y delta fails it reports nothing either, so a motion along X
    read just before is lost. *)
Theorem mouse_read_failure_reports_nothing (w : world) :
  let n := length (reads w) in
  let rx := bus w n REG_MOUSE_X in
  let ry := bus w (S n) REG_MOUSE_Y in
  let w' := lyra_kbd_process_mouse w in
  kbd w' = kbd w /\
  (rx < 0 -> out w' = out w /\ reads w' = reads w ++ [(REG_MOUSE_X, rx)]) /\
  (0 <= rx -> ry < 0 ->
     out w' = out w /\
     reads w' = reads w ++ [(REG_MOUSE_X, rx); (REG_MOUSE_Y, ry)]).
Proof. exact (process_mouse_cases w). Qed.

Lemma s8_u8 (d : Z) : -128 <= d <= 127 -> s8 (u8 d) = d.
Proof.
  intros Hd. unfold s8, u8. rewrite Z.mod_mod by lia.
  destruct (Z_lt_dec d 0) as [Hneg|Hpos].
  - replace (d mod 256) with (d + 256)
      by (apply (Z.mod_unique _ _ (-1)); lia).
    destruct (Z.ltb_spec (d + 256) 128); lia.
  - rewrite Z.mod_small by lia. destruct (Z.ltb_spec d 128); lia.
Qed.

Lemma adjusted_unit (d : Z) : -128 <= d <= 127 -> d <> 0 -> adjusted d 100 = d.
Proof.
  intros Hd Hnz. unfold adjusted. cbv zeta.
  rewrite s32_small by lia. rewrite Z.quot_mul by lia.
  rewrite (proj2 (Z.eqb_neq d 0) Hnz). reflexivity.
Qed.

(** X9. At the default speed of 100 percent the deltas go through
    unchanged: a delta [d] of -128..127, sent by the peripheral as the byte
    [d mod 256], is reported as a motion of [d]. *)
Theorem mouse_unit_speed_passes_delta (dx dy : Z) (w : world) :
  -128 <= dx <= 127 -> -128 <= dy <= 127 ->
  mouse_speed_x (kbd w) = 100 -> mouse_speed_y (kbd w) = 100 ->
  bus w (length (reads w)) REG_MOUSE_X = u8 dx ->
  bus w (S (length (reads w))) REG_MOUSE_Y = u8 dy ->
  out (lyra_kbd_process_mouse w) =
    out w ++
    (if dx =? 0 then [] else [ReportRel mouse_input REL_X dx]) ++
    (if dy =? 0 then [] else [ReportRel mouse_input REL_Y dy]) ++
    (if (dx =? 0) && (dy =? 0) then [] else [Sync mouse_input]).
Proof.
  intros Hdx Hdy Hsx Hsy Hrx Hry.
  assert (Hu : forall d, 0 <= u8 d) by (intros d; unfold u8; apply Z.mod_pos_bound; lia).
  rewrite process_mouse_out by (rewrite ?Hrx, ?Hry; apply Hu).
  rewrite Hrx, Hry, Hsx, Hsy, !s8_u8 by assumption.
  unfold axis_report.
  destruct (Z.eqb_spec dx 0), (Z.eqb_spec dy 0);
    rewrite ?adjusted_unit by assumption; reflexivity.
Qed.

Lemma adjusted_nonzero (d s : Z) : d <> 0 -> adjusted d s <> 0.
Proof.
  intros Hnz. unfold adjusted. cbv zeta.
  rewrite (proj2 (Z.eqb_neq d 0) Hnz), andb_true_r.
  destruct (Z.eqb_spec (Z.quot (s32 (d * s)) 100) 0); [|assumption].
  destruct (0 <? d); discriminate.
Qed.

Lemma adjusted_bounds (d s : Z) :
  -128 <= d <= 127 -> d <> 0 -> 10 <= s <= 500 ->
  1 <= Z.abs (adjusted d s) <= 5 * Z.abs d.
Proof.
  intros Hd Hnz Hs.
  pose proof (adjusted_nonzero d s Hnz) as Hne.
  split; [lia|].
  rewrite adjusted_scaled by assumption. unfold scaled_amount.
  destruct (Z.eqb_spec (Z.quot (d * s) 100) 0).
  - rewrite Z.mul_1_r. destruct d; cbn; lia.
  - rewrite <- Z.quot_abs by lia. change (Z.abs 100) with 100.
    rewrite Z.quot_div_nonneg by lia.
    apply Z.div_le_upper_bound; [lia|].
    rewrite Z.abs_mul. nia.
Qed.

(** X10. With speeds in the valid range every motion the mouse processor
    reports is at least 1 and at most 5 times the delta in magnitude, hence
    within -640..640. *)
Theorem mouse_amount_bounded (w : world) :
  let rx := bus w (length (reads w)) REG_MOUSE_X in
  let ry := bus w (S (length (reads w))) REG_MOUSE_Y in
  0 <= rx -> 0 <= ry ->
  10 <= mouse_speed_x (kbd w) <= 500 -> 10 <= mouse_speed_y (kbd w) <= 500 ->
  exists cs,
    out (lyra_kbd_process_mouse w) = out w ++ cs /\
    Forall (fun c => forall code v, c = ReportRel mouse_input code v ->
              1 <= Z.abs v <= 640 /\
              (code = REL_X -> Z.abs v <= 5 * Z.abs (s8 rx)) /\
              (code = REL_Y -> Z.abs v <= 5 * Z.abs (s8 ry))) cs.
Proof.
  intros rx ry Hrx Hry Hsx Hsy.
  pose proof (s8_range rx) as Hdx. pose proof (s8_range ry) as Hdy.
  eexists. split; [apply (process_mouse_out w Hrx Hry)|]. fold rx ry.
  rewrite !Forall_app. unfold axis_report. split; [|split].
  - destruct (Z.eqb_spec (s8 rx) 0) as [|Hnz]; constructor; [|constructor].
    intros c1 v1 Heq. injection Heq as Hc Hv. subst c1 v1.
    pose proof (adjusted_bounds _ _ Hdx Hnz Hsx).
    repeat split; try lia; discriminate.
  - destruct (Z.eqb_spec (s8 ry) 0) as [|Hnz]; constructor; [|constructor].
    intros c1 v1 Heq. injection Heq as Hc Hv. subst c1 v1.
    pose proof (adjusted_bounds _ _ Hdy Hnz Hsy).
    repeat split; try lia; discriminate.
  - destruct ((s8 rx =? 0) && (s8 ry =? 0)); constructor; [|constructor].
    intros c1 v1 Heq. discriminate Heq.
Qed.

(** ** What a tick reads *)

Ltac in_list :=
  intros; rewrite ?elem_of_app, ?elem_of_cons, ?elem_of_nil in *; tauto.

Lemma reads_within_refl (regs : list Z) (w : world) : reads_within regs w w.
Proof. exists []. rewrite app_nil_r. auto. Qed.

Lemma reads_within_trans (regs : list Z) (w1 w2 w3 : world) :
  reads_within regs w1 w2 -> reads_within regs w2 w3 -> reads_within regs w1 w3.
Proof.
  intros (r1 & E1 & F1) (r2 & E2 & F2). exists (r1 ++ r2). split.
  - rewrite E2, E1, app_assoc. reflexivity.
  - apply Forall_app. auto.
Qed.

Lemma reads_within_mono (regs regs' : list Z) (w w' : world) :
  (forall r, r ∈ regs -> r ∈ regs') ->
  reads_within regs w w' -> reads_within regs' w w'.
Proof.
  intros Hsub (rs & E & F). exists rs. split; [exact E|].
  eapply Forall_impl; [exact F|]. intros r. apply Hsub.
Qed.

Lemma read_reg_within (reg : Z) (w : world) :
  reads_within [reg] w (snd (lyra_kbd_read_reg reg w)).
Proof.
  eexists. split; [reflexivity|]. repeat constructor.
Qed.

Lemma key_event_within (k : Z) (p : bool) (w : world) :
  reads_within [REG_KEY_STATUS] w (lyra_kbd_process_key_event k p w).
Proof.
  destruct (key_event_reads k p w) as [E | E].
  - exists []. rewrite app_nil_r. auto.
  - eexists. split; [exact E|]. repeat constructor.
Qed.

Lemma fifo_body_within (w w' : world) (x : loop_exit) :
  fifo_body w = (x, w') ->
  reads_within [REG_FIFO_ACCESS; REG_KEY_STATUS] w w'.
Proof.
  rewrite fifo_body_eq. intros H.
  assert (Hr : reads_within [REG_FIFO_ACCESS; REG_KEY_STATUS] w
                 (snd (lyra_kbd_read_reg REG_FIFO_ACCESS w))).
  { eapply reads_within_mono; [|apply read_reg_within]. in_list. }
  assert (Hk : forall k p w0,
    reads_within [REG_FIFO_ACCESS; REG_KEY_STATUS] w0
      (lyra_kbd_process_key_event k p w0)).
  { intros k p w0. eapply reads_within_mono; [|apply key_event_within]. in_list. }
  revert H. split_ifs; intros [= <- <-]; try exact Hr;
    (eapply reads_within_trans; [exact Hr | apply Hk]).
Qed.

Lemma process_fifo_within (w : world) :
  reads_within [REG_FIFO_ACCESS; REG_KEY_STATUS] w (lyra_kbd_process_fifo w).
Proof.
  unfold lyra_kbd_process_fifo. generalize 0 at 1. intros i.
  apply (fifo_loop_rect
           (fun _ w w' => reads_within [REG_FIFO_ACCESS; REG_KEY_STATUS] w w'));
    clear i w.
  - intros _ w _. apply reads_within_refl.
  - intros _ w w' _ H. exact (fifo_body_within _ _ _ H).
  - intros _ w w' _ H. exact (fifo_body_within _ _ _ H).
  - intros _ w w' w'' _ H IH.
    exact (reads_within_trans _ _ _ _ (fifo_body_within _ _ _ H) IH).
Qed.

Lemma sync_modifiers_within (w : world) :
  reads_within [REG_KEY_STATUS] w (lyra_kbd_sync_modifiers w).
Proof.
  rewrite sync_modifiers_eq. eexists. split; [reflexivity|]. repeat constructor.
Qed.

Lemma process_mouse_within (w : world) :
  reads_within [REG_MOUSE_X; REG_MOUSE_Y] w (lyra_kbd_process_mouse w).
Proof.
  unfold lyra_kbd_process_mouse. rewrite !read_reg_eq.
  unfold input_sync, input_report_rel, emit, reads_within.
  split_ifs; cbn [reads]; rewrite <- ?app_assoc;
    (eexists; split; [reflexivity|]); repeat constructor; in_list.
Qed.

(** X11. A tick reads the interrupt status exactly once, first, and then
    only the registers its gates open: the key status when a modifier
    change or a key event is flagged, the queue when a key event is, the
    two delta registers when a mouse event is; when the status read fails
    it reads nothing more. *)
Theorem tick_register_gating (w : world) :
  let st := bus w (length (reads w)) REG_INT_STATUS in
  exists rs,
    reads (lyra_kbd_poll_work w) = reads w ++ (REG_INT_STATUS, st) :: rs /\
    Forall (fun r => fst r ∈ gated_registers st) rs /\
    Forall (fun r => fst r <> REG_INT_STATUS) rs.
Proof.
  intros st.
  assert (Hno : forall r, r ∈ gated_registers st -> r <> REG_INT_STATUS).
  { intros r. unfold gated_registers.
    destruct (st <? 0); [in_list|].
    destruct (_ || _), (Z.testbit st 4), (Z.testbit st 5); cbn [app];
      rewrite ?elem_of_cons, ?elem_of_nil; intros H Hr; subst r;
      repeat destruct H as [H | H]; try discriminate H; exact H. }
  assert (Hgoal : exists rs,
    reads (lyra_kbd_poll_work w) = reads w ++ (REG_INT_STATUS, st) :: rs /\
    Forall (fun r => fst r ∈ gated_registers st) rs).
  { unfold lyra_kbd_poll_work, schedule_delayed_work. cbn [reads].
    destruct (Z_lt_dec st 0) as [Hf|Hok].
    { rewrite poll_dispatch_read_failed by exact Hf. exists []. auto. }
    rewrite poll_dispatch_eq by (fold st; lia). fold st. cbv zeta.
    set (w0 := snd (lyra_kbd_read_reg REG_INT_STATUS w)).
    set (b1 := Z.testbit st 1 || Z.testbit st 3 || Z.testbit st 2).
    set (w1 := if b1 then lyra_kbd_sync_modifiers w0 else w0).
    set (w2 := if Z.testbit st 4 then lyra_kbd_process_fifo w1 else w1).
    set (w3 := if Z.testbit st 5 then lyra_kbd_process_mouse w2 else w2).
    assert (Hg : gated_registers st =
      (if b1 || Z.testbit st 4 then [REG_KEY_STATUS] else []) ++
      (if Z.testbit st 4 then [REG_FIFO_ACCESS] else []) ++
      (if Z.testbit st 5 then [REG_MOUSE_X; REG_MOUSE_Y] else [])).
    { unfold gated_registers. destruct (Z.ltb_spec st 0); [lia | reflexivity]. }
    assert (H1 : reads_within (gated_registers st) w0 w1).
    { unfold w1. destruct b1 eqn:E; [|apply reads_within_refl].
      eapply reads_within_mono; [|apply sync_modifiers_within].
      rewrite Hg. cbn [orb]. in_list. }
    assert (H2 : reads_within (gated_registers st) w1 w2).
    { unfold w2. destruct (Z.testbit st 4) eqn:E; [|apply reads_within_refl].
      eapply reads_within_mono; [|apply process_fifo_within].
      rewrite Hg, orb_true_r. in_list. }
    assert (H3 : reads_within (gated_registers st) w2 w3).
    { unfold w3. destruct (Z.testbit st 5) eqn:E; [|apply reads_within_refl].
      eapply reads_within_mono; [|apply process_mouse_within].
      rewrite Hg. in_list. }
    destruct (reads_within_trans _ _ _ _ (reads_within_trans _ _ _ _ H1 H2) H3)
      as (rs & E & F).
    exists rs. split; [|exact F].
    assert (E3 : reads w3 = reads w ++ (REG_INT_STATUS, st) :: rs).
    { rewrite E. unfold w0. cbn. rewrite <- app_assoc. reflexivity. }
    destruct (Z.testbit st 6); [|exact E3].
    rewrite power_button_negated. exact E3. }
  destruct Hgoal as (rs & E & F). exists rs. split; [exact E|]. split; [exact F|].
  eapply Forall_impl; [exact F|]. intros r. apply Hno.
Qed.


(** X13. A tick whose status read fails, or whose status does not flag the
    power button, leaves the stored power-button state alone and, with
    PressState holding what the driver puts there, reports nothing about
    the power key. *)
Theorem tick_without_power_interrupt (w : world) :
  let st := bus w (length (reads w)) REG_INT_STATUS in
  st < 0 \/ Z.testbit st 6 = false ->
  power_btn_pressed (kbd (lyra_kbd_poll_work w)) = power_btn_pressed (kbd w) /\
  (press_state_ok (kbd w) ->
   exists cs, out (lyra_kbd_poll_work w) = out w ++ cs /\ power_reports cs = []).
Proof.
  intros st Hno. unfold lyra_kbd_poll_work, schedule_delayed_work. cbn [kbd out].
  destruct (Z_lt_dec st 0) as [Hf|Hok].
  { rewrite poll_dispatch_read_failed by exact Hf. split; [reflexivity|].
    intros _. exists []. rewrite app_nil_r. auto. }
  destruct Hno as [Hf|H6]; [lia|].
  destruct (poll_dispatch_steady w) as (w3 & [F Q] & ->); [fold st; lia|].
  fold st. rewrite H6. split; [exact (frame_power _ _ F)|].
  exact (quiet_out _ _ Q).
Qed.

(** ** What a tick reports *)

(** The calls of one key event. *)
Lemma key_event_out (k : Z) (p : bool) (w : world) :
  exists cs,
    out (lyra_kbd_process_key_event k p w) = out w ++ cs /\
    (cs = [] \/
     cs = [ReportKey kbd_input KEY_LEFTCTRL p; Sync kbd_input] \/
     exists key,
       cs = key_report k key p /\ k < MAX_KEYCODES /\
       (key = resolve (bus w (length (reads w)) REG_KEY_STATUS) k \/
        (key = get_last_key_pressed k w /\ key <> 0))).
Proof.
  destruct (Z_le_dec MAX_KEYCODES k) as [Hbig|Hk].
  { rewrite key_event_invalid by assumption. exists []. rewrite app_nil_r. auto. }
  assert (Hk' : k < MAX_KEYCODES) by lia.
  destruct (Z_lt_dec (bus w (length (reads w)) REG_KEY_STATUS) 0) as [Hf|Hs].
  { rewrite key_event_read_failed by assumption. exists []. cbn.
    rewrite app_nil_r. auto. }
  destruct (is_modifier_position k) eqn:Hx.
  { destruct (key_event_modifier k p w Hk' ltac:(lia) Hx) as [-> | ->].
    - exists []. cbn. rewrite app_nil_r. auto.
    - eexists. unfold input_sync, input_report_key, emit. cbn.
      rewrite <- app_assoc. split; [reflexivity | auto]. }
  destruct p.
  - rewrite key_event_press by (assumption || lia). cbn [out].
    eexists. split; [reflexivity|]. right. right. eauto.
  - rewrite key_event_release by (assumption || lia). cbn [out].
    eexists. split; [reflexivity|]. right. right. eexists.
    split; [reflexivity|]. split; [exact Hk'|].
    destruct (Z.eqb_spec (get_last_key_pressed k w) 0); auto.
Qed.

(** The calls of the mouse processor. *)
Lemma process_mouse_calls (w : world) :
  exists cs,
    out (lyra_kbd_process_mouse w) = out w ++ cs /\
    (cs = [] \/
     exists rx ry,
       cs = axis_report REL_X (s8 rx) (mouse_speed_x (kbd w)) ++
            axis_report REL_Y (s8 ry) (mouse_speed_y (kbd w)) ++
            (if (s8 rx =? 0) && (s8 ry =? 0) then [] else [Sync mouse_input])).
Proof.
  destruct (process_mouse_cases w) as (_ & Hx & Hy).
  destruct (Z_lt_dec (bus w (length (reads w)) REG_MOUSE_X) 0) as [Fx|Okx].
  { exists []. rewrite app_nil_r. split; [apply Hx, Fx | auto]. }
  destruct (Z_lt_dec (bus w (S (length (reads w))) REG_MOUSE_Y) 0) as [Fy|Oky].
  { exists []. rewrite app_nil_r. split; [apply Hy; lia | auto]. }
  eexists. split; [apply process_mouse_out; lia|]. right. eauto.
Qed.

Lemma entry_keycode_range (ret : Z) : 0 <= entry_keycode ret < 64.
Proof.
  unfold entry_keycode. rewrite shiftr_2_div.
  assert (0 <= u8 ret < 256) by (unfold u8; apply Z.mod_pos_bound; lia).
  split; [apply Z.div_pos; lia | apply Z.div_lt_upper_bound; lia].
Qed.

Section Emits.

(** An invariant of the driver data and a property of call sequences that
    each part of a tick respects are respected by the whole tick. *)
Variable I : lyra_kbd_data -> Prop.
Variable Q : list sink_call -> Prop.
Hypothesis Q_nil : Q [].
Hypothesis Q_app : forall a b, Q a -> Q b -> Q (a ++ b).
Hypothesis E_key : forall k p w,
  0 <= k -> emits I Q w (lyra_kbd_process_key_event k p w).
Hypothesis E_sync : forall w, emits I Q w (lyra_kbd_sync_modifiers w).
Hypothesis E_mouse : forall w, emits I Q w (lyra_kbd_process_mouse w).
Hypothesis E_power : forall b w, emits I Q w (lyra_kbd_process_power_button b w).

Lemma emits_refl (w : world) : emits I Q w w.
Proof. intros Hi. split; [exact Hi|]. exists []. rewrite app_nil_r. auto. Qed.

Lemma emits_trans (w1 w2 w3 : world) :
  emits I Q w1 w2 -> emits I Q w2 w3 -> emits I Q w1 w3.
Proof.
  intros H12 H23 Hi. destruct (H12 Hi) as (Hi2 & c1 & E1 & Q1).
  destruct (H23 Hi2) as (Hi3 & c2 & E2 & Q2).
  split; [exact Hi3|]. exists (c1 ++ c2). split; [|auto].
  rewrite E2, E1, app_assoc. reflexivity.
Qed.

Lemma emits_read (reg : Z) (w : world) :
  emits I Q w (snd (lyra_kbd_read_reg reg w)).
Proof. intros Hi. split; [exact Hi|]. exists []. cbn. rewrite app_nil_r. auto. Qed.

Lemma emits_fifo_body (w w' : world) (x : loop_exit) :
  fifo_body w = (x, w') -> emits I Q w w'.
Proof.
  rewrite fifo_body_eq. intros H.
  pose proof (emits_read REG_FIFO_ACCESS w) as Hr.
  pose proof (entry_keycode_range (bus w (length (reads w)) REG_FIFO_ACCESS))
    as [Hk _].
  revert H. split_ifs; intros [= <- <-]; try exact Hr;
    (eapply emits_trans; [exact Hr | apply E_key, Hk]).
Qed.

Lemma emits_process_fifo (w : world) : emits I Q w (lyra_kbd_process_fifo w).
Proof.
  unfold lyra_kbd_process_fifo. generalize 0 at 1. intros i.
  apply (fifo_loop_rect (fun _ w w' => emits I Q w w')); clear i w.
  - intros _ w _. apply emits_refl.
  - intros _ w w' _ H. exact (emits_fifo_body _ _ _ H).
  - intros _ w w' _ H. exact (emits_fifo_body _ _ _ H).
  - intros _ w w' w'' _ H IH.
    exact (emits_trans _ _ _ (emits_fifo_body _ _ _ H) IH).
Qed.

Lemma emits_poll_work (w : world) : emits I Q w (lyra_kbd_poll_work w).
Proof.
  unfold lyra_kbd_poll_work.
  assert (Hd : emits I Q w (poll_dispatch w)).
  { destruct (Z_lt_dec (bus w (length (reads w)) REG_INT_STATUS) 0) as [Hf|Hok].
    { rewrite poll_dispatch_read_failed by exact Hf. apply emits_read. }
    destruct (poll_dispatch_stages (emits I Q) emits_refl emits_trans
                (emits_read REG_INT_STATUS) E_sync emits_process_fifo E_mouse w)
      as (w3 & H3 & ->); [lia|].
    destruct (Z.testbit _ 6); [|exact H3].
    eapply emits_trans; [exact H3 | apply E_power]. }
  intros Hi. destruct (Hd Hi) as (Hi' & cs & E & Hq).
  split; [exact Hi'|]. exists cs. auto.
Qed.

End Emits.

(** *** Packets *)

Lemma framed_app (a b : list sink_call) : framed a -> framed b -> framed (a ++ b).
Proof.
  induction 1 as [|d body rest Hbody _ IH]; intros Hb; [exact Hb|].
  rewrite <- app_assoc, <- app_comm_cons. constructor; auto.
Qed.

Lemma framed_one (d : input_dev) (body : list sink_call) :
  Forall (fun c => call_device c = d /\ is_sync c = false) body ->
  framed (body ++ [Sync d]).
Proof. intros H. constructor; [exact H | constructor]. Qed.

Lemma framed_key_report (k key : Z) (p : bool) : framed (key_report k key p).
Proof.
  apply (framed_one kbd_input
           [InputEvent kbd_input EV_MSC MSC_SCAN k; ReportKey kbd_input key p]).
  repeat constructor.
Qed.

Lemma axis_report_body (axis d s : Z) :
  Forall (fun c => call_device c = mouse_input /\ is_sync c = false)
         (axis_report axis d s).
Proof. unfold axis_report. destruct (d =? 0); repeat constructor. Qed.

Lemma framed_key_event (k : Z) (p : bool) (w : world) :
  emits (fun _ => True) framed w (lyra_kbd_process_key_event k p w).
Proof.
  intros _. split; [exact Logic.I|].
  destruct (key_event_out k p w) as (cs & E & [-> | [-> | (key & -> & _)]]);
    eexists; (split; [exact E|]).
  - constructor.
  - apply (framed_one kbd_input [ReportKey kbd_input KEY_LEFTCTRL p]).
    repeat constructor.
  - apply framed_key_report.
Qed.

Lemma framed_sync_modifiers (w : world) :
  emits (fun _ => True) framed w (lyra_kbd_sync_modifiers w).
Proof.
  intros _. split; [exact Logic.I|]. rewrite sync_modifiers_eq. cbn [out].
  eexists. split; [reflexivity|].
  destruct (_ <? 0); [constructor|].
  apply (framed_one kbd_input [ReportKey kbd_input KEY_LEFTSHIFT _;
                               ReportKey kbd_input KEY_LEFTALT _]).
  repeat constructor.
Qed.

Lemma framed_process_mouse (w : world) :
  emits (fun _ => True) framed w (lyra_kbd_process_mouse w).
Proof.
  intros _. split; [exact Logic.I|].
  destruct (process_mouse_calls w) as (cs & E & [-> | (rx & ry & ->)]);
    eexists; (split; [exact E|]); [constructor|].
  destruct ((s8 rx =? 0) && (s8 ry =? 0)) eqn:Hz.
  - apply andb_true_iff in Hz as [Hx Hy]. unfold axis_report.
    rewrite Hx, Hy. constructor.
  - rewrite app_assoc. apply framed_one, Forall_app.
    split; apply axis_report_body.
Qed.

Lemma framed_power_button (b : bool) (w : world) :
  emits (fun _ => True) framed w (lyra_kbd_process_power_button b w).
Proof.
  intros _. split; [exact Logic.I|]. unfold lyra_kbd_process_power_button.
  destruct (negb _).
  - unfold input_sync, input_report_key, emit. cbn. rewrite <- app_assoc.
    eexists. split; [reflexivity|].
    apply (framed_one kbd_input [ReportKey kbd_input KEY_POWER b]).
    repeat constructor.
  - exists []. rewrite app_nil_r. split; [reflexivity | constructor].
Qed.

Lemma poll_work_framed (w : world) :
  exists cs, out (lyra_kbd_poll_work w) = out w ++ cs /\ framed cs.
Proof.
  apply (emits_poll_work (fun _ => True) framed framed_nil framed_app
           (fun k p w _ => framed_key_event k p w)
           framed_sync_modifiers framed_process_mouse framed_power_button w).
  exact Logic.I.
Qed.

(** X14. Whatever the peripheral answers, the calls a tick makes to the
    input layer come in complete packets: events of a single device,
    closed by the sync of that device.  No event is left without its sync
    and keyboard and mouse events never share a packet. *)
Theorem tick_output_is_framed (w : world) :
  exists cs, out (lyra_kbd_poll_work w) = out w ++ cs /\ framed cs.
Proof. exact (poll_work_framed w). Qed.

(** *** The calls a tick can make *)

Lemma table_entry (l : layer) (i : nat) (key : Z) :
  layer_table l !! i = Some key -> exists l', key ∈ layer_table l'.
Proof. intros H. exists l. exact (list_elem_of_lookup_2 _ _ _ H). Qed.

Lemma slot_in_table (v : Z) :
  slot_value_ok v -> v <> 0 -> exists l, v ∈ layer_table l.
Proof. intros [-> | H] Hnz; [contradiction | exact H]. Qed.

Ltac each_call :=
  repeat match goal with
         | |- Forall _ (_ :: _) => constructor
         | |- Forall _ [] => constructor
         end;
  cbn [tick_alphabet]; try exact Logic.I.

Lemma alphabet_key_event (k : Z) (p : bool) (w : world) :
  0 <= k ->
  emits press_state_ok (Forall tick_alphabet) w (lyra_kbd_process_key_event k p w).
Proof.
  intros Hk0 Hok. split; [exact (quiet_press_state _ _ (key_event_quiet k p w) Hok)|].
  destruct (key_event_out k p w)
    as (cs & E & [-> | [-> | (key & -> & Hk & Hkey)]]);
    eexists; (split; [exact E|]).
  - constructor.
  - each_call. split; [reflexivity|]. right.
    exact (table_entry Normal 33 _ eq_refl).
  - unfold key_report. each_call; [auto|]. split; [reflexivity|]. right.
    destruct Hkey as [-> | [-> Hnz]].
    + exists (layer_of (bus w (length (reads w)) REG_KEY_STATUS)).
      apply resolve_in_table, Hk.
    + apply slot_in_table; [apply recorded_slot_ok; assumption | exact Hnz].
Qed.

Lemma alphabet_sync_modifiers (w : world) :
  emits press_state_ok (Forall tick_alphabet) w (lyra_kbd_sync_modifiers w).
Proof.
  intros Hok. rewrite sync_modifiers_eq. cbn [kbd out]. split; [exact Hok|].
  eexists. split; [reflexivity|].
  destruct (_ <? 0); each_call; (split; [reflexivity|]); right.
  - exact (table_entry Normal 25 _ eq_refl).
  - exact (table_entry Normal 30 _ eq_refl).
Qed.

Lemma alphabet_axis_report (axis d s : Z) :
  axis = REL_X \/ axis = REL_Y ->
  Forall tick_alphabet (axis_report axis d s).
Proof.
  intros Hax. unfold axis_report.
  destruct (Z.eqb_spec d 0); each_call.
  split; [reflexivity|]. split; [exact Hax|].
  apply adjusted_nonzero. assumption.
Qed.

Lemma alphabet_process_mouse (w : world) :
  emits press_state_ok (Forall tick_alphabet) w (lyra_kbd_process_mouse w).
Proof.
  intros Hok. destruct (process_mouse_cases w) as (-> & _). split; [exact Hok|].
  destruct (process_mouse_calls w) as (cs & E & [-> | (rx & ry & ->)]);
    eexists; (split; [exact E|]); [constructor|].
  rewrite !Forall_app. split; [|split].
  - apply alphabet_axis_report. auto.
  - apply alphabet_axis_report. auto.
  - destruct (_ && _); each_call.
Qed.

Lemma alphabet_power_button (b : bool) (w : world) :
  emits press_state_ok (Forall tick_alphabet) w
        (lyra_kbd_process_power_button b w).
Proof.
  intros Hok. unfold lyra_kbd_process_power_button.
  destruct (negb _).
  - unfold input_sync, input_report_key, emit. cbn. rewrite <- app_assoc.
    split; [exact Hok|]. eexists. split; [reflexivity|].
    cbn [app]. each_call. split; [reflexivity|]. left. reflexivity.
  - split; [exact Hok|]. exists []. rewrite app_nil_r. auto.
Qed.

Lemma poll_work_alphabet (w : world) :
  press_state_ok (kbd w) ->
  exists cs, out (lyra_kbd_poll_work w) = out w ++ cs /\ Forall tick_alphabet cs.
Proof.
  intros Hok.
  apply (emits_poll_work press_state_ok (Forall tick_alphabet)
           (Forall_nil_2 _) (fun a b Ha Hb => proj2 (Forall_app _ a b) (conj Ha Hb))
           alphabet_key_event alphabet_sync_modifiers alphabet_process_mouse
           alphabet_power_button w Hok).
Qed.

(** X15. With PressState holding what the driver puts there, a tick makes
    no call outside this list: the scan code of a keycode below 53 and the
    report of a keymap entry or of the power key, on the keyboard device;
    a motion along X or Y, never of amount 0, on the mouse device; syncs.
    In particular the mouse device never gets a key report: the three mouse
    buttons are reported on the keyboard device. *)
Theorem tick_reports_within_alphabet (w : world) :
  press_state_ok (kbd w) ->
  exists cs,
    out (lyra_kbd_poll_work w) = out w ++ cs /\
    Forall tick_alphabet cs /\
    (forall code value, ReportKey mouse_input code value ∉ cs) /\
    (forall d code, ReportRel d code 0 ∉ cs).
Proof.
  intros Hok. destruct (poll_work_alphabet w Hok) as (cs & E & Ha).
  exists cs. split; [exact E|]. split; [exact Ha|].
  rewrite Forall_forall in Ha. split.
  - intros code value Hin. destruct (Ha _ Hin) as [Hd _]. discriminate Hd.
  - intros d code Hin. destruct (Ha _ Hin) as (_ & _ & Hnz). contradiction.
Qed.

(** ** Registration of the input devices *)

Lemma keymap_bits_fold (idxs : list nat) (d : input_device) :
  let d' := fold_left set_keymap_bits idxs d in
  evbit d' = evbit d /\ relbit d' = relbit d /\ mscbit d' = mscbit d /\
  forall c, c ∈ keybit d' <->
    c ∈ keybit d \/
    exists i, i ∈ idxs /\
      (c = keymap_normal !!! i \/ c = keymap_shift !!! i \/ c = keymap_fn !!! i).
Proof.
  revert d. induction idxs as [|i idxs IH]; intros d; cbn [fold_left].
  - repeat split; auto. intros [H | (i & Hi & _)]; [exact H|].
    apply elem_of_nil in Hi. contradiction.
  - specialize (IH (set_keymap_bits d i)). cbv zeta in IH.
    destruct IH as (He & Hr & Hm & Hk). repeat split; try assumption.
    + intros Hc. apply Hk in Hc as [Hc | (j & Hj & Hc)].
      * unfold set_keymap_bits, set_keybit in Hc. cbn in Hc.
        rewrite !elem_of_union, !elem_of_singleton in Hc.
        destruct Hc as [Hc | [Hc | [Hc | Hc]]]; [| | | left; exact Hc];
          right; exists i; (split; [left|]); auto.
      * right. exists j. split; [right; exact Hj | exact Hc].
    + intros Hc. apply Hk. destruct Hc as [Hc | (j & Hj & Hc)].
      * left. unfold set_keymap_bits, set_keybit. cbn.
        rewrite !elem_of_union. auto.
      * apply elem_of_cons in Hj as [-> | Hj].
        -- left. unfold set_keymap_bits, set_keybit. cbn.
           rewrite !elem_of_union, !elem_of_singleton. tauto.
        -- right. exists j. auto.
Qed.

Lemma indexed_entries (c : Z) :
  (exists i, i ∈ seq 0 (Z.to_nat MAX_KEYCODES) /\
     (c = keymap_normal !!! i \/ c = keymap_shift !!! i \/ c = keymap_fn !!! i)) <->
  exists l, c ∈ layer_table l.
Proof.
  split.
  - intros (i & Hi & Hc). apply elem_of_seq in Hi.
    assert (Hlt : forall l, (i < length (layer_table l))%nat)
      by (intros l; rewrite layer_table_length; lia).
    destruct Hc as [-> | [-> | ->]].
    + exists Normal. apply (list_elem_of_lookup_total_2 (layer_table Normal)), Hlt.
    + exists Shift. apply (list_elem_of_lookup_total_2 (layer_table Shift)), Hlt.
    + exists Fn. apply (list_elem_of_lookup_total_2 (layer_table Fn)), Hlt.
  - intros (l & Hin). apply list_elem_of_lookup_total_1 in Hin as (i & Hi & <-).
    rewrite layer_table_length in Hi. exists i. split.
    + apply elem_of_seq. lia.
    + destruct l; cbn [layer_table]; auto.
Qed.

Lemma keybit_set_keybit (nr : Z) (d : input_device) :
  keybit (set_keybit nr d) = {[nr]} ∪ keybit d.
Proof. reflexivity. Qed.

(** The capabilities the keyboard ends with, whatever it started from. *)
Lemma keyboard_caps (idxs : list nat) (d : input_device) :
  idxs = seq 0 (Z.to_nat MAX_KEYCODES) ->
  evbit (set_keybit KEY_POWER (fold_left set_keymap_bits idxs d)) = evbit d /\
  relbit (set_keybit KEY_POWER (fold_left set_keymap_bits idxs d)) = relbit d /\
  mscbit (set_keybit KEY_POWER (fold_left set_keymap_bits idxs d)) = mscbit d /\
  forall c, c ∈ keybit (set_keybit KEY_POWER (fold_left set_keymap_bits idxs d)) <->
            c ∈ keybit d \/ c = KEY_POWER \/ exists l, c ∈ layer_table l.
Proof.
  intros Hidx.
  destruct (keymap_bits_fold idxs d) as (He & Hr & Hm & Hk).
  split; [exact He|]. split; [exact Hr|]. split; [exact Hm|].
  intros c. rewrite keybit_set_keybit, elem_of_union, elem_of_singleton, Hk.
  subst idxs. rewrite indexed_entries. tauto.
Qed.

(** Setup, with the two descriptors it builds called by name. *)
Lemma setup_eq (env : kernel_answers) :
  lyra_kbd_setup_input_devices env no_devices =
  if negb (alloc_kbd_ok env) then (- ENOMEM, no_devices)
  else if negb (register_kbd env =? 0) then (register_kbd env, no_devices)
  else if negb (alloc_mouse_ok env)
       then (- ENOMEM, mk_devices (Some keyboard_descriptor) None [keyboard_descriptor])
  else if negb (register_mouse env =? 0)
       then (register_mouse env,
             mk_devices (Some keyboard_descriptor) None [keyboard_descriptor])
  else (0, mk_devices (Some keyboard_descriptor) (Some mouse_descriptor)
                      [keyboard_descriptor; mouse_descriptor]).
Proof. reflexivity. Qed.

Lemma keyboard_descriptor_caps :
  (forall t, t ∈ evbit keyboard_descriptor <-> t = EV_KEY \/ t = EV_REP \/ t = EV_MSC) /\
  (forall c, c ∈ mscbit keyboard_descriptor <-> c = MSC_SCAN) /\
  (forall c, c ∈ keybit keyboard_descriptor <->
             c = KEY_POWER \/ exists l, c ∈ layer_table l) /\
  (forall c, c ∉ relbit keyboard_descriptor).
Proof.
  unfold keyboard_descriptor.
  match goal with
  | |- context [fold_left set_keymap_bits ?idxs ?d] =>
      destruct (keyboard_caps idxs d eq_refl) as (He & Hr & Hm & Hk)
  end.
  rewrite He, Hr, Hm.
  split; [|split; [|split]].
  - intros t. cbn [evbit set_mscbit set_evbit set_identity blank_device].
    rewrite !elem_of_union, !elem_of_singleton, elem_of_empty. tauto.
  - intros c. cbn [mscbit set_mscbit set_evbit set_identity blank_device].
    rewrite elem_of_union, elem_of_singleton, elem_of_empty. tauto.
  - intros c. rewrite Hk.
    cbn [keybit set_mscbit set_evbit set_identity blank_device].
    rewrite elem_of_empty. tauto.
  - intros c. cbn [relbit set_mscbit set_evbit set_identity blank_device].
    apply not_elem_of_empty.
Qed.

Lemma mouse_descriptor_caps :
  (forall t, t ∈ evbit mouse_descriptor <-> t = EV_REL \/ t = EV_KEY) /\
  (forall c, c ∈ relbit mouse_descriptor <-> c = REL_X \/ c = REL_Y \/ c = REL_WHEEL) /\
  (forall c, c ∈ keybit mouse_descriptor <->
             c = BTN_LEFT \/ c = BTN_RIGHT \/ c = BTN_MIDDLE) /\
  (forall c, c ∉ mscbit mouse_descriptor).
Proof.
  unfold mouse_descriptor.
  cbn [evbit relbit keybit mscbit set_keybit set_relbit set_evbit set_identity
       blank_device].
  split; [|split; [|split]].
  - intros t. rewrite !elem_of_union, !elem_of_singleton, elem_of_empty. tauto.
  - intros c. rewrite !elem_of_union, !elem_of_singleton, elem_of_empty. tauto.
  - intros c. rewrite !elem_of_union, !elem_of_singleton, elem_of_empty. tauto.
  - intros c. apply not_elem_of_empty.
Qed.

(** Setup returns 0 exactly when its four fallible steps succeed. *)
Lemma setup_ret_zero (env : kernel_answers) :
  fst (lyra_kbd_setup_input_devices env no_devices) = 0 <->
  alloc_kbd_ok env = true /\ register_kbd env = 0 /\
  alloc_mouse_ok env = true /\ register_mouse env = 0.
Proof.
  rewrite setup_eq.
  destruct (alloc_kbd_ok env); cbn [negb fst];
    [|split; [intros [=] | intros [[=] _]]].
  destruct (Z.eqb_spec (register_kbd env) 0) as [Hk|Hk]; cbn [negb fst];
    [|split; [intros ?; contradiction | intros (_ & ? & _); contradiction]].
  destruct (alloc_mouse_ok env); cbn [negb fst];
    [|split; [intros [=] | intros (_ & _ & [=] & _)]].
  destruct (Z.eqb_spec (register_mouse env) 0) as [Hm|Hm]; cbn [negb fst];
    [tauto | split; [intros ?; contradiction | intros (_ & _ & _ & ?); contradiction]].
Qed.

(** The devices a successful setup leaves. *)
Lemma setup_success (env : kernel_answers) (devs : input_devices) :
  lyra_kbd_setup_input_devices env no_devices = (0, devs) ->
  devs = mk_devices (Some keyboard_descriptor) (Some mouse_descriptor)
                    [keyboard_descriptor; mouse_descriptor].
Proof.
  rewrite setup_eq.
  destruct (alloc_kbd_ok env); cbn [negb]; [|intros [=]].
  destruct (Z.eqb_spec (register_kbd env) 0) as [_|Hne]; cbn [negb];
    [|intros [= H0 _]; contradiction].
  destruct (alloc_mouse_ok env); cbn [negb]; [|intros [=]].
  destruct (Z.eqb_spec (register_mouse env) 0) as [_|Hne]; cbn [negb];
    [|intros [= H0 _]; contradiction].
  intros Heq. apply (f_equal snd) in Heq. symmetry. exact Heq.
Qed.

(** X16. Setting up the input devices succeeds exactly when both
    allocations and both registrations do.  It then leaves two registered
    devices: a keyboard that declares key, repeat and scan events, with as
    keys exactly the entries of the three keymap layers and the power key,
    and a mouse that declares relative X, Y and wheel and the three mouse
    buttons.  When a step fails, its error is returned (ENOMEM for an
    allocation) and the later steps are not run: a failure on the mouse
    leaves the keyboard registered. *)
Theorem setup_input_devices_outcomes (env : kernel_answers) :
  let ret := fst (lyra_kbd_setup_input_devices env no_devices) in
  let devs := snd (lyra_kbd_setup_input_devices env no_devices) in
  (ret = 0 <->
     alloc_kbd_ok env = true /\ register_kbd env = 0 /\
     alloc_mouse_ok env = true /\ register_mouse env = 0) /\
  (ret = 0 ->
     exists kd md,
       kbd_input_dev devs = Some kd /\ mouse_input_dev devs = Some md /\
       registered devs = [kd; md] /\
       (forall t, t ∈ evbit kd <-> t = EV_KEY \/ t = EV_REP \/ t = EV_MSC) /\
       (forall c, c ∈ mscbit kd <-> c = MSC_SCAN) /\
       (forall c, c ∈ keybit kd <-> c = KEY_POWER \/ exists l, c ∈ layer_table l) /\
       (forall c, c ∉ relbit kd) /\
       (forall t, t ∈ evbit md <-> t = EV_REL \/ t = EV_KEY) /\
       (forall c, c ∈ relbit md <-> c = REL_X \/ c = REL_Y \/ c = REL_WHEEL) /\
       (forall c, c ∈ keybit md <-> c = BTN_LEFT \/ c = BTN_RIGHT \/ c = BTN_MIDDLE) /\
       (forall c, c ∉ mscbit md)) /\
  (alloc_kbd_ok env = false -> ret = - ENOMEM /\ devs = no_devices) /\
  (alloc_kbd_ok env = true -> register_kbd env <> 0 ->
     ret = register_kbd env /\ devs = no_devices) /\
  (alloc_kbd_ok env = true -> register_kbd env = 0 ->
   alloc_mouse_ok env = false \/ register_mouse env <> 0 ->
     ret = (if alloc_mouse_ok env then register_mouse env else - ENOMEM) /\
     mouse_input_dev devs = None /\
     exists kd, kbd_input_dev devs = Some kd /\ registered devs = [kd]).
Proof.
  intros ret devs.
  split; [exact (setup_ret_zero env)|]. split; [|split; [|split]].
  - intros Hret.
    assert (Hd : devs = mk_devices (Some keyboard_descriptor) (Some mouse_descriptor)
                          [keyboard_descriptor; mouse_descriptor]).
    { apply (setup_success env). unfold ret, devs in *.
      destruct (lyra_kbd_setup_input_devices _ _) as [r ds].
      cbn [fst snd] in *. rewrite Hret. reflexivity. }
    rewrite Hd. exists keyboard_descriptor, mouse_descriptor.
    destruct keyboard_descriptor_caps as (K1 & K2 & K3 & K4).
    destruct mouse_descriptor_caps as (M1 & M2 & M3 & M4).
    repeat split; try (apply K1 || apply K2 || apply K3 || apply M1 || apply M2 || apply M3);
      try (apply K4 || apply M4).
  - intros Ha. unfold ret, devs. rewrite setup_eq, Ha. split; reflexivity.
  - intros Ha Hk. unfold ret, devs. rewrite setup_eq, Ha.
    cbn [negb]. rewrite (proj2 (Z.eqb_neq _ _) Hk). split; reflexivity.
  - intros Ha Hk Hm. unfold ret, devs. rewrite setup_eq, Ha, Hk.
    cbn [negb Z.eqb].
    destruct (alloc_mouse_ok env); cbn [negb].
    + destruct Hm as [[=] | Hm]. rewrite (proj2 (Z.eqb_neq _ _) Hm).
      cbn [negb fst snd mouse_input_dev kbd_input_dev registered]. eauto.
    + cbn [fst snd mouse_input_dev kbd_input_dev registered]. eauto.
Qed.



(** ** Probe *)

(** X18. Probe returns 0 exactly when the adapter check, the allocation,
    the setup of the input devices and the creation of the attributes all
    succeed.  It then leaves PressState empty, the speeds at 100 percent
    and the interval at 10 ms, has reported the shift and alt states read
    from the key status once, and has armed the first tick.  When probe
    fails it has read no register, reported nothing and armed nothing. *)
Theorem probe_outcomes (env : kernel_answers) (w : world) :
  let ret := fst (fst (lyra_kbd_probe env w)) in
  let w' := snd (fst (lyra_kbd_probe env w)) in
  let devs := snd (lyra_kbd_probe env w) in
  let ks := bus w (length (reads w)) REG_KEY_STATUS in
  (ret = 0 <->
     i2c_functionality env = true /\ kzalloc_ok env = true /\
     alloc_kbd_ok env = true /\ register_kbd env = 0 /\
     alloc_mouse_ok env = true /\ register_mouse env = 0 /\
     sysfs_create env = 0) /\
  (ret <> 0 -> reads w' = reads w /\ out w' = out w /\ timer w' = timer w) /\
  (ret = 0 ->
     kbd w' = probe_kbd /\ press_state_ok (kbd w') /\ config_ok (kbd w') /\
     timer w' = timer w ++ [POLL_INTERVAL_MS] /\
     reads w' = reads w ++ [(REG_KEY_STATUS, ks)] /\
     out w' = out w ++
       (if ks <? 0 then []
        else [ReportKey kbd_input KEY_LEFTSHIFT (Z.testbit ks 0);
              ReportKey kbd_input KEY_LEFTALT (Z.testbit ks 1);
              Sync kbd_input]) /\
     length (registered devs) = 2%nat) /\
  (i2c_functionality env = false -> ret = - EIO) /\
  (i2c_functionality env = true -> kzalloc_ok env = false -> ret = - ENOMEM).
Proof.
  intros ret w' devs ks. unfold ret, w', devs, lyra_kbd_probe. cbv zeta.
  pose proof (setup_ret_zero env) as Hz.
  pose proof (setup_success env) as Hs.
  destruct (lyra_kbd_setup_input_devices env no_devices) as [e ds].
  cbn [fst] in Hz.
  destruct (i2c_functionality env); cbn [negb fst snd].
  2: { repeat split; try discriminate; try tauto.
       intros (H & _). discriminate H. }
  destruct (kzalloc_ok env); cbn [negb fst snd].
  2: { repeat split; try discriminate; try tauto.
       intros (_ & H & _). discriminate H. }
  destruct (Z.eqb_spec e 0) as [He|He]; cbn [negb fst snd].
  2: { repeat split; try discriminate; try tauto. }
  destruct (Z.eqb_spec (sysfs_create env) 0) as [Hc|Hc]; cbn [negb fst snd].
  2: { repeat split; try discriminate; try tauto. }
  split; [tauto|]. split; [intros H; contradiction H; reflexivity|].
  split; [|split; discriminate].
  intros _. rewrite sync_modifiers_eq.
  cbn [kbd bus reads out timer schedule_delayed_work with_kbd poll_interval_ms].
  fold ks. split; [reflexivity|].
  split; [split; [reflexivity | apply Forall_replicate; left; reflexivity]|].
  split; [unfold config_ok, POLL_INTERVAL_MS; cbn; lia|].
  repeat split.
  subst e. rewrite (Hs ds eq_refl). reflexivity.
Qed.

(** ** End to end: a tap inside one tick *)

Lemma entry_fields (k t : Z) :
  0 <= k < 64 -> 0 <= t < 4 ->
  0 <= k * 4 + t /\ entry_type (k * 4 + t) = t /\ entry_keycode (k * 4 + t) = k.
Proof.
  intros Hk Ht.
  assert (Hu : u8 (k * 4 + t) = k * 4 + t) by (unfold u8; apply Z.mod_small; lia).
  split; [lia|]. unfold entry_type, entry_keycode.
  rewrite Hu, land_3_mod, shiftr_2_div. split.
  - rewrite Z.add_comm, Z.mod_add by lia. apply Z.mod_small, Ht.
  - rewrite Z.add_comm, Z.div_add by lia. rewrite Z.div_small by lia. reflexivity.
Qed.

Lemma fifo_loop_key_step (i : Z) (w : world) (p : bool) :
  let ret := bus w (length (reads w)) REG_FIFO_ACCESS in
  i < FIFO_MAX_READ -> 0 <= ret ->
  entry_type ret = (if p then FIFO_EVENT_PRESS else FIFO_EVENT_RELEASE) ->
  fifo_loop i w =
  fifo_loop (i + 1)
    (lyra_kbd_process_key_event (entry_keycode ret) p
       (snd (lyra_kbd_read_reg REG_FIFO_ACCESS w))).
Proof.
  intros ret Hi Hret Hty. apply fifo_loop_next; [exact Hi|].
  rewrite fifo_body_eq. fold ret.
  destruct (Z.ltb_spec ret 0); [lia|]. rewrite Hty. destruct p; reflexivity.
Qed.

Lemma fifo_loop_none_step (i : Z) (w : world) :
  let ret := bus w (length (reads w)) REG_FIFO_ACCESS in
  i < FIFO_MAX_READ -> 0 <= ret -> entry_type ret = FIFO_EVENT_NONE ->
  fifo_loop i w = snd (lyra_kbd_read_reg REG_FIFO_ACCESS w).
Proof.
  intros ret Hi Hret Hty. rewrite fifo_loop_eq.
  destruct (Z_lt_dec i FIFO_MAX_READ); [|lia].
  rewrite fifo_body_eq. fold ret.
  destruct (Z.ltb_spec ret 0); [lia|]. rewrite Hty. reflexivity.
Qed.

Lemma read_reg_length (reg : Z) (w : world) :
  length (reads (snd (lyra_kbd_read_reg reg w))) = S (length (reads w)).
Proof. apply length_snoc_reads. Qed.

Lemma insert_back (l : list Z) (i : nat) (v : Z) :
  (i < length l)%nat -> l !!! i = 0 -> <[i:=0]> (<[i:=v]> l) = l.
Proof.
  intros Hi H0. rewrite list_insert_insert_eq.
  apply list_insert_id. rewrite list_lookup_lookup_total_lt by exact Hi.
  rewrite H0. reflexivity.
Qed.

(** X22. A tick that finds a press and then the release of the same
    non-modifier key in the queue, followed by an empty entry, reports the
    press and the release of one and the same logical key, the one the
    modifiers at press time select, and leaves the driver data as it was
    when the slot of the key was empty before. *)
Theorem tap_through_tick (k : Z) (w : world) :
  0 <= k < MAX_KEYCODES -> is_modifier_position k = false ->
  kbd_wf (kbd w) -> get_last_key_pressed k w = 0 ->
  let n := length (reads w) in
  let st := bus w n REG_INT_STATUS in
  let s1 := bus w (S (S n)) REG_KEY_STATUS in
  let s2 := bus w (S (S (S (S n)))) REG_KEY_STATUS in
  let last := bus w (S (S (S (S (S n))))) REG_FIFO_ACCESS in
  0 <= st -> Z.testbit st 4 = true ->
  Z.testbit st 1 || Z.testbit st 3 || Z.testbit st 2 = false ->
  Z.testbit st 5 = false -> Z.testbit st 6 = false ->
  bus w (S n) REG_FIFO_ACCESS = k * 4 + FIFO_EVENT_PRESS ->
  0 <= s1 ->
  bus w (S (S (S n))) REG_FIFO_ACCESS = k * 4 + FIFO_EVENT_RELEASE ->
  0 <= s2 ->
  0 <= last -> entry_type last = FIFO_EVENT_NONE ->
  let w' := lyra_kbd_poll_work w in
  out w' = out w ++ key_report k (resolve s1 k) true ++
                    key_report k (resolve s1 k) false /\
  kbd w' = kbd w /\
  reads w' = reads w ++ [(REG_INT_STATUS, st);
                         (REG_FIFO_ACCESS, k * 4 + FIFO_EVENT_PRESS);
                         (REG_KEY_STATUS, s1);
                         (REG_FIFO_ACCESS, k * 4 + FIFO_EVENT_RELEASE);
                         (REG_KEY_STATUS, s2);
                         (REG_FIFO_ACCESS, last)] /\
  timer w' = timer w ++ [poll_interval_ms (kbd w)].
Proof.
  intros Hk Hx Hwf Hempty n st s1 s2 last Hst H4 H123 H5 H6 Hb1 Hs1 Hb2 Hs2
    Hlast Hnone w'.
  assert (Hk64 : 0 <= k < 64) by (unfold MAX_KEYCODES in Hk; lia).
  destruct (entry_fields k FIFO_EVENT_PRESS Hk64 ltac:(unfold FIFO_EVENT_PRESS; lia))
    as (Hp0 & Hpt & Hpk).
  destruct (entry_fields k FIFO_EVENT_RELEASE Hk64
              ltac:(unfold FIFO_EVENT_RELEASE; lia)) as (Hr0 & Hrt & Hrk).
  unfold w', lyra_kbd_poll_work.
  rewrite poll_dispatch_eq by exact Hst. fold n st. cbv zeta.
  rewrite H123, H4, H5, H6. unfold lyra_kbd_process_fifo.
  (* the status read *)
  set (w0 := snd (lyra_kbd_read_reg REG_INT_STATUS w)).
  assert (B0 : bus w0 = bus w) by reflexivity.
  assert (L0 : length (reads w0) = S n) by apply read_reg_length.
  (* the press entry *)
  assert (E1 : bus w0 (length (reads w0)) REG_FIFO_ACCESS = k * 4 + FIFO_EVENT_PRESS)
    by (rewrite B0, L0; exact Hb1).
  rewrite (fifo_loop_key_step 0 w0 true) by
    (rewrite ?E1; first [reflexivity | assumption]).
  rewrite E1, Hpk.
  set (w1 := snd (lyra_kbd_read_reg REG_FIFO_ACCESS w0)).
  assert (B1 : bus w1 = bus w) by reflexivity.
  assert (L1 : length (reads w1) = S (S n))
    by (unfold w1; rewrite read_reg_length, L0; reflexivity).
  assert (S1 : bus w1 (length (reads w1)) REG_KEY_STATUS = s1)
    by (rewrite B1, L1; reflexivity).
  destruct (press_facts k w1 (proj2 Hk) Hx ltac:(rewrite S1; exact Hs1))
    as (B2 & T2 & R2 & O2 & K2).
  rewrite S1 in R2, O2, K2.
  set (w2 := lyra_kbd_process_key_event k true w1) in *.
  assert (L2 : length (reads w2) = S (S (S n)))
    by (rewrite R2, length_snoc_reads, L1; reflexivity).
  (* the release entry *)
  assert (E3 : bus w2 (length (reads w2)) REG_FIFO_ACCESS = k * 4 + FIFO_EVENT_RELEASE)
    by (rewrite B2, B1, L2; exact Hb2).
  rewrite (fifo_loop_key_step (0 + 1) w2 false) by
    (rewrite ?E3; first [reflexivity | assumption]).
  rewrite E3, Hrk.
  set (w3 := snd (lyra_kbd_read_reg REG_FIFO_ACCESS w2)).
  assert (B3 : bus w3 = bus w)
    by (unfold w3; cbn [snd lyra_kbd_read_reg bus]; rewrite B2; exact B1).
  assert (L3 : length (reads w3) = S (S (S (S n))))
    by (unfold w3; rewrite read_reg_length, L2; reflexivity).
  assert (S3 : bus w3 (length (reads w3)) REG_KEY_STATUS = s2)
    by (rewrite B3, L3; reflexivity).
  assert (G3 : get_last_key_pressed k w3 = resolve s1 k).
  { rewrite (get_last_key_pressed_kbd k w3 w2) by reflexivity.
    rewrite (get_last_key_pressed_kbd k _ _ K2).
    apply get_set_last_key_pressed; assumption. }
  destruct (release_facts k w3 (proj2 Hk) Hx ltac:(rewrite S3; exact Hs2))
    as (B4 & T4 & R4 & O4 & K4).
  rewrite S3 in R4, O4. rewrite G3 in O4.
  rewrite (proj2 (Z.eqb_neq _ _) (resolve_nonzero s1 k (proj2 Hk))) in O4.
  set (w4 := lyra_kbd_process_key_event k false w3) in *.
  assert (L4 : length (reads w4) = S (S (S (S (S n)))))
    by (rewrite R4, length_snoc_reads, L3; reflexivity).
  (* the empty entry *)
  assert (E5 : bus w4 (length (reads w4)) REG_FIFO_ACCESS = last)
    by (rewrite B4, B3, L4; reflexivity).
  rewrite (fifo_loop_none_step (0 + 1 + 1) w4) by
    (rewrite ?E5; first [reflexivity | assumption]).
  rewrite read_reg_eq, E5.
  cbn [snd kbd bus reads out timer schedule_delayed_work poll_interval_ms].
  assert (K3 : kbd w3 = kbd w2) by reflexivity.
  assert (K1 : kbd w1 = kbd w) by reflexivity.
  assert (K : kbd w4 = kbd w).
  { rewrite K4. unfold set_last_key_pressed, with_kbd. cbn [kbd].
    rewrite K3, K2. unfold set_last_key_pressed, with_kbd. cbn [kbd last_key_pressed
      mouse_speed_x mouse_speed_y power_btn_pressed poll_interval_ms].
    rewrite K1, insert_back.
    - destruct (kbd w); reflexivity.
    - rewrite Hwf. unfold MAX_KEYCODES in *. lia.
    - exact Hempty. }
  assert (O3 : out w3 = out w2) by reflexivity.
  assert (O1 : out w1 = out w) by reflexivity.
  assert (R3 : reads w3 = reads w2 ++ [(REG_FIFO_ACCESS, k * 4 + FIFO_EVENT_RELEASE)])
    by (unfold w3; cbn [snd lyra_kbd_read_reg reads]; rewrite E3; reflexivity).
  assert (R1 : reads w1 = reads w0 ++ [(REG_FIFO_ACCESS, k * 4 + FIFO_EVENT_PRESS)])
    by (unfold w1; cbn [snd lyra_kbd_read_reg reads]; rewrite E1; reflexivity).
  assert (R0 : reads w0 = reads w ++ [(REG_INT_STATUS, st)]) by reflexivity.
  assert (T3 : timer w3 = timer w2) by reflexivity.
  assert (T1 : timer w1 = timer w) by reflexivity.
  rewrite K. split; [|split; [reflexivity|split]].
  - rewrite O4, O3, O2, O1, <- !app_assoc. reflexivity.
  - rewrite R4, R3, R2, R1, R0, <- !app_assoc. reflexivity.
  - rewrite T4, T3, T2, T1. reflexivity.
Qed.

(** ** Invariants across ticks and attribute writes *)

Lemma frame_config_ok (w w' : world) :
  frame w w' -> config_ok (kbd w) -> config_ok (kbd w').
Proof.
  intros F (Hx & Hy & Hi). unfold config_ok.
  rewrite (frame_speed_x _ _ F), (frame_speed_y _ _ F), (frame_interval _ _ F).
  auto.
Qed.

Lemma no_motion_bounded (c : sink_call) : rel_amount c = None -> motion_bounded c.
Proof. intros H v Hv. rewrite H in Hv. discriminate Hv. Qed.

Lemma bounded_key_event (k : Z) (p : bool) (w : world) :
  emits config_ok (Forall motion_bounded) w (lyra_kbd_process_key_event k p w).
Proof.
  intros Hok. split; [exact (frame_config_ok _ _ (key_event_frame k p w) Hok)|].
  destruct (key_event_out k p w)
    as (cs & E & [-> | [-> | (key & -> & _)]]);
    eexists; (split; [exact E|]); unfold key_report;
    repeat (constructor; [apply no_motion_bounded; reflexivity|]); constructor.
Qed.

Lemma bounded_sync_modifiers (w : world) :
  emits config_ok (Forall motion_bounded) w (lyra_kbd_sync_modifiers w).
Proof.
  intros Hok. rewrite sync_modifiers_eq. cbn [kbd out]. split; [exact Hok|].
  eexists. split; [reflexivity|].
  destruct (_ <? 0);
    repeat (constructor; [apply no_motion_bounded; reflexivity|]); constructor.
Qed.

Lemma bounded_axis_report (axis rx s : Z) :
  10 <= s <= 500 -> Forall motion_bounded (axis_report axis (s8 rx) s).
Proof.
  intros Hs. unfold axis_report.
  destruct (Z.eqb_spec (s8 rx) 0) as [|Hnz]; constructor; [|constructor].
  intros v [= <-].
  pose proof (s8_range rx) as Hd.
  pose proof (adjusted_bounds _ _ Hd Hnz Hs). lia.
Qed.

Lemma bounded_process_mouse (w : world) :
  emits config_ok (Forall motion_bounded) w (lyra_kbd_process_mouse w).
Proof.
  intros Hok. destruct (process_mouse_cases w) as (Hk & _).
  split; [rewrite Hk; exact Hok|]. destruct Hok as (Hx & Hy & _).
  destruct (process_mouse_calls w) as (cs & E & [-> | (rx & ry & ->)]);
    eexists; (split; [exact E|]); [constructor|].
  rewrite !Forall_app. split; [|split].
  - apply bounded_axis_report, Hx.
  - apply bounded_axis_report, Hy.
  - destruct (_ && _); constructor; [apply no_motion_bounded; reflexivity|constructor].
Qed.

Lemma bounded_power_button (b : bool) (w : world) :
  emits config_ok (Forall motion_bounded) w (lyra_kbd_process_power_button b w).
Proof.
  intros Hok. unfold lyra_kbd_process_power_button.
  destruct (negb _).
  - unfold input_sync, input_report_key, emit. cbn. rewrite <- app_assoc.
    split; [exact Hok|]. eexists. split; [reflexivity|]. cbn [app].
    repeat (constructor; [apply no_motion_bounded; reflexivity|]); constructor.
  - split; [exact Hok|]. exists []. rewrite app_nil_r. auto.
Qed.

Lemma poll_work_bounded (w : world) :
  config_ok (kbd w) ->
  config_ok (kbd (lyra_kbd_poll_work w)) /\
  exists cs, out (lyra_kbd_poll_work w) = out w ++ cs /\ Forall motion_bounded cs.
Proof.
  apply (emits_poll_work config_ok (Forall motion_bounded)
           (Forall_nil_2 _) (fun a b Ha Hb => proj2 (Forall_app _ a b) (conj Ha Hb))
           (fun k p w _ => bounded_key_event k p w)
           bounded_sync_modifiers bounded_process_mouse bounded_power_button w).
Qed.

Lemma poll_work_timer (w : world) :
  timer (lyra_kbd_poll_work w) = timer w ++ [poll_interval_ms (kbd w)].
Proof.
  unfold lyra_kbd_poll_work, schedule_delayed_work. cbn [timer].
  destruct (poll_dispatch_keeps_schedule w) as [-> ->]. reflexivity.
Qed.

(** One tick, with everything it keeps and everything about what it
    reports. *)
Lemma tick_facts (w : world) :
  press_state_ok (kbd w) -> config_ok (kbd w) ->
  let w' := lyra_kbd_poll_work w in
  press_state_ok (kbd w') /\ config_ok (kbd w') /\
  timer w' = timer w ++ [poll_interval_ms (kbd w)] /\
  exists cs,
    out w' = out w ++ cs /\
    Forall tick_alphabet cs /\ framed cs /\ Forall motion_bounded cs.
Proof.
  intros Hp Hc w'.
  destruct (poll_work_bounded w Hc) as (Hc' & c1 & E1 & Q1).
  destruct (poll_work_alphabet w Hp) as (c2 & E2 & Q2).
  destruct (poll_work_framed w) as (c3 & E3 & Q3).
  split; [exact (poll_work_press_state_ok w Hp)|]. split; [exact Hc'|].
  split; [apply poll_work_timer|].
  exists c1. split; [exact E1|].
  rewrite E1 in E2, E3. apply app_inv_head in E2, E3. subst c2 c3. auto.
Qed.

Lemma driver_op_eq_dec (a b : driver_op) : {a = b} + {a <> b}.
Proof. repeat decide equality. Defined.

Section OperationsFacts.

Variable kstrtoint : string -> Z -> option Z.
Variable kstrtouint : string -> Z -> option Z.

(** A write to an attribute changes at most its own tunable, and only to
    a value in range. *)
Lemma store_facts (op : driver_op) (w : world) :
  op <> Tick ->
  press_state_ok (kbd w) -> config_ok (kbd w) ->
  let w' := step kstrtoint kstrtouint w op in
  press_state_ok (kbd w') /\ config_ok (kbd w') /\
  last_key_pressed (kbd w') = last_key_pressed (kbd w) /\
  power_btn_pressed (kbd w') = power_btn_pressed (kbd w) /\
  timer w' = timer w /\ out w' = out w /\ reads w' = reads w /\ bus w' = bus w.
Proof.
  intros Hop Hp (Hx & Hy & Hi).
  destruct op as [|buf count|buf count|buf count]; [contradiction| | |];
    cbn [step]; unfold mouse_speed_x_store, mouse_speed_y_store,
      poll_interval_store, with_kbd, config_ok, press_state_ok, kbd_wf in *.
  - destruct (kstrtoint buf 10) as [val|]; [|cbn; auto 10].
    destruct (Z.ltb_spec val 10), (Z.ltb_spec 500 val); cbn; repeat split;
      tauto || lia.
  - destruct (kstrtoint buf 10) as [val|]; [|cbn; auto 10].
    destruct (Z.ltb_spec val 10), (Z.ltb_spec 500 val); cbn; repeat split;
      tauto || lia.
  - destruct (kstrtouint buf 10) as [val|]; [|cbn; auto 10].
    destruct (Z.ltb_spec val 5), (Z.ltb_spec 100 val); cbn; repeat split;
      tauto || lia.
Qed.

Lemma run_ops_cons (op : driver_op) (ops : list driver_op) (w : world) :
  run_ops kstrtoint kstrtouint (op :: ops) w =
  run_ops kstrtoint kstrtouint ops (step kstrtoint kstrtouint w op).
Proof. reflexivity. Qed.

(** X19. From a state with PressState holding 0 or keymap entries and the
    tunables in range (the state probe leaves), any sequence of ticks and
    attribute writes, whatever is written and whatever the peripheral
    answers, keeps both; the poll work is armed once per tick, always with
    a delay of 5 to 100 ms; and everything reported is within the calls a
    tick can make, in complete packets, with motions of magnitude 1
    to 640. *)
Theorem operations_keep_invariants (ops : list driver_op) (w : world) :
  press_state_ok (kbd w) -> config_ok (kbd w) ->
  let w' := run_ops kstrtoint kstrtouint ops w in
  press_state_ok (kbd w') /\ config_ok (kbd w') /\
  (exists ts,
     timer w' = timer w ++ ts /\ length ts = tick_count ops /\
     Forall (fun t => 5 <= t <= 100) ts) /\
  (exists cs,
     out w' = out w ++ cs /\
     Forall tick_alphabet cs /\ framed cs /\ Forall motion_bounded cs).
Proof.
  revert w. induction ops as [|op ops IH]; intros w Hp Hc; cbv zeta.
  { cbn [run_ops fold_left]. split; [exact Hp|]. split; [exact Hc|]. split.
    - exists []. rewrite app_nil_r. split; [reflexivity|].
      split; [reflexivity | constructor].
    - exists []. rewrite app_nil_r. split; [reflexivity|].
      split; [constructor|]. split; constructor. }
  rewrite run_ops_cons.
  assert (Hstep :
    press_state_ok (kbd (step kstrtoint kstrtouint w op)) /\
    config_ok (kbd (step kstrtoint kstrtouint w op)) /\
    (exists ts, timer (step kstrtoint kstrtouint w op) = timer w ++ ts /\
                length ts = tick_count [op] /\ Forall (fun t => 5 <= t <= 100) ts) /\
    (exists cs, out (step kstrtoint kstrtouint w op) = out w ++ cs /\
                Forall tick_alphabet cs /\ framed cs /\ Forall motion_bounded cs)).
  { destruct (driver_op_eq_dec op Tick) as [->|Hne].
    - destruct (tick_facts w Hp Hc) as (Hp' & Hc' & Ht & Hout).
      cbn [step]. split; [exact Hp'|]. split; [exact Hc'|]. split; [|exact Hout].
      exists [poll_interval_ms (kbd w)]. split; [exact Ht|]. split; [reflexivity|].
      constructor; [apply Hc | constructor].
    - destruct (store_facts op w Hne Hp Hc) as (Hp' & Hc' & _ & _ & Ht & Ho & _).
      split; [exact Hp'|]. split; [exact Hc'|]. split.
      + exists []. rewrite app_nil_r. split; [exact Ht|]. split; [|constructor].
        destruct op; [contradiction | reflexivity ..].
      + exists []. rewrite app_nil_r. split; [exact Ho|].
        split; [constructor|]. split; constructor. }
  destruct Hstep as (Hp1 & Hc1 & (t1 & Et1 & Lt1 & Ft1) & (c1 & Ec1 & A1 & F1 & M1)).
  destruct (IH (step kstrtoint kstrtouint w op) Hp1 Hc1)
    as (Hp2 & Hc2 & (t2 & Et2 & Lt2 & Ft2) & (c2 & Ec2 & A2 & F2 & M2)).
  split; [exact Hp2|]. split; [exact Hc2|]. split.
  - exists (t1 ++ t2). split; [rewrite Et2, Et1, app_assoc; reflexivity|].
    split; [|apply Forall_app; auto].
    rewrite length_app, Lt1, Lt2. unfold tick_count.
    change (op :: ops) with ([op] ++ ops). rewrite List.filter_app, length_app.
    reflexivity.
  - exists (c1 ++ c2). split; [rewrite Ec2, Ec1, app_assoc; reflexivity|].
    split; [apply Forall_app; auto|]. split; [apply framed_app; assumption|].
    apply Forall_app; auto.
Qed.

(** X20. A write to the poll interval takes effect at the very next
    arming: the tick that follows arms the work with the written value when
    the write was accepted, and with the previous interval when it was
    rejected. *)
Theorem stored_interval_arms_next_tick (buf : string) (count : Z) (w : world) :
  timer (lyra_kbd_poll_work (step kstrtoint kstrtouint w (StoreInterval buf count))) =
  timer w ++
  [match kstrtouint buf 10 with
   | Some val => if (5 <=? val) && (val <=? 100) then val
                 else poll_interval_ms (kbd w)
   | None => poll_interval_ms (kbd w)
   end].
Proof.
  rewrite poll_work_timer. cbn [step with_kbd timer kbd].
  unfold poll_interval_store.
  destruct (kstrtouint buf 10) as [val|]; [|reflexivity].
  destruct (Z.ltb_spec val 5), (Z.ltb_spec 100 val),
    (Z.leb_spec 5 val), (Z.leb_spec val 100); try lia; reflexivity.
Qed.

(** X21. An accepted write to the X speed scales the very next motion: a
    non-zero X delta read after the write is reported as
    [(delta * written speed) / 100], or as the sign of the delta when that
    is 0, while the Y axis keeps its own speed. *)
Theorem stored_speed_scales_next_motion (buf : string) (count val : Z) (w : world) :
  let rx := bus w (length (reads w)) REG_MOUSE_X in
  let ry := bus w (S (length (reads w))) REG_MOUSE_Y in
  kstrtoint buf 10 = Some val -> 10 <= val <= 500 ->
  0 <= rx -> 0 <= ry -> s8 rx <> 0 ->
  out (lyra_kbd_process_mouse (step kstrtoint kstrtouint w (StoreSpeedX buf count))) =
    out w ++ [ReportRel mouse_input REL_X (scaled_amount (s8 rx) val)] ++
    axis_report REL_Y (s8 ry) (mouse_speed_y (kbd w)) ++ [Sync mouse_input].
Proof.
  intros rx ry Hparse Hval Hrx Hry Hnz.
  assert (Hw : step kstrtoint kstrtouint w (StoreSpeedX buf count) =
               with_kbd (mk_kbd (last_key_pressed (kbd w)) val (mouse_speed_y (kbd w))
                                (power_btn_pressed (kbd w)) (poll_interval_ms (kbd w))) w).
  { cbn [step]. unfold mouse_speed_x_store. rewrite Hparse.
    destruct (Z.ltb_spec val 10), (Z.ltb_spec 500 val); try lia. reflexivity. }
  rewrite Hw, process_mouse_out by assumption.
  cbn [with_kbd kbd out reads bus mouse_speed_x mouse_speed_y]. fold rx ry.
  unfold axis_report at 1.
  rewrite (proj2 (Z.eqb_neq _ _) Hnz), adjusted_scaled
    by (assumption || apply s8_range).
  reflexivity.
Qed.

End OperationsFacts.

(** ** The further properties at work on sample peripherals *)

Lemma probe_config_ok : config_ok probe_kbd.
Proof. unfold config_ok, probe_kbd, POLL_INTERVAL_MS. cbn. lia. Qed.

(** The byte 21 is a press of keycode 5. *)
Lemma fifo_entry_roundtrip_witness :
  Z.land (u8 21) FIFO_EVENT_TYPE_MASK = FIFO_EVENT_PRESS /\
  Z.shiftr (Z.land (u8 21) FIFO_KEYCODE_MASK) FIFO_KEYCODE_SHIFT = 5.
Proof.
  destruct (fifo_entry_roundtrip 5 1) as (_ & Ht & Hk & _); [lia | lia |].
  exact (conj Ht Hk).
Defined.

(** A press at the position of ctrl reports left-ctrl and nothing else. *)
Lemma modifier_positions_bypass_keymap_witness :
  out (lyra_kbd_process_key_event 33 true all_zero) =
    [ReportKey kbd_input KEY_LEFTCTRL true; Sync kbd_input] /\
  kbd (lyra_kbd_process_key_event 33 true all_zero) = probe_kbd.
Proof.
  destruct (modifier_positions_bypass_keymap 33 true all_zero)
    as (Hk & _ & Ho); [reflexivity | apply Z.leb_le; reflexivity |].
  exact (conj Ho Hk).
Defined.

(** A press entry for keycode 60 is dropped after one read. *)
Lemma out_of_range_entry_dropped_witness :
  exists w',
    fifo_body press_60 = (Next, w') /\
    kbd w' = kbd press_60 /\
    out w' = out press_60 /\
    reads w' = reads press_60 ++ [(REG_FIFO_ACCESS, 241)] /\
    fifo_loop 0 press_60 = fifo_loop (0 + 1) w'.
Proof.
  apply (out_of_range_entry_dropped 0 press_60);
    [apply Z.leb_le; reflexivity | left; reflexivity
    | apply Z.leb_le; reflexivity | reflexivity].
Defined.

(** A press of key 5 leaves the slot of key 6 empty. *)
Lemma key_event_keeps_other_slots_witness :
  get_last_key_pressed 6 (lyra_kbd_process_key_event 5 true all_zero) = 0 /\
  get_last_key_pressed 5 (lyra_kbd_process_key_event 5 true all_zero) = KEY_9.
Proof.
  destruct (key_event_keeps_other_slots 5 6 true all_zero) as (Hj & _);
    [lia | lia | lia |].
  split; [rewrite Hj|]; reflexivity.
Defined.

(** Key 48 pressed plain, pressed again under fn, then released under
    shift: left button down, middle button down, middle button up. *)
Lemma second_press_overwrites_witness :
  out (lyra_kbd_process_key_event 48 false
         (lyra_kbd_process_key_event 48 true
            (lyra_kbd_process_key_event 48 true fn_then_shift))) =
    key_report 48 BTN_LEFT true ++ key_report 48 BTN_MIDDLE true ++
    key_report 48 BTN_MIDDLE false.
Proof.
  destruct (second_press_overwrites 48 fn_then_shift) as (Ho & _);
    [unfold MAX_KEYCODES; lia | reflexivity | reflexivity
    | apply Z.leb_le; reflexivity | apply Z.leb_le; reflexivity
    | apply Z.leb_le; reflexivity |].
  rewrite Ho. reflexivity.
Defined.

(** Key 48 released twice, the second time under shift: the second
    release is of the right button. *)
Lemma repeated_release_falls_back_witness :
  out (lyra_kbd_process_key_event 48 false
         (lyra_kbd_process_key_event 48 false shift_comes_late)) =
    key_report 48 BTN_LEFT false ++ key_report 48 BTN_RIGHT false.
Proof.
  destruct (repeated_release_falls_back 48 shift_comes_late) as (_ & Ho & _);
    [unfold MAX_KEYCODES; lia | reflexivity | reflexivity
    | apply Z.leb_le; reflexivity | apply Z.leb_le; reflexivity |].
  rewrite Ho. reflexivity.
Defined.

(** A shift change with shift held: shift down, alt up. *)
Lemma modifier_change_reports_shift_and_alt_witness :
  out (lyra_kbd_poll_work shift_changed) =
    [ReportKey kbd_input KEY_LEFTSHIFT true;
     ReportKey kbd_input KEY_LEFTALT false; Sync kbd_input].
Proof.
  destruct (modifier_change_reports_shift_and_alt shift_changed)
    as (_ & _ & Ho & _);
    [apply Z.leb_le; reflexivity | reflexivity | reflexivity | reflexivity
    | reflexivity |].
  rewrite Ho by (apply Z.leb_le; reflexivity). reflexivity.
Defined.

(** The byte 253 at 100 percent is three steps left. *)
Lemma mouse_unit_speed_passes_delta_witness :
  out (lyra_kbd_process_mouse three_left) =
    [ReportRel mouse_input REL_X (-3); Sync mouse_input].
Proof.
  rewrite (mouse_unit_speed_passes_delta (-3) 0 three_left);
    [reflexivity | lia | lia | reflexivity | reflexivity | reflexivity
    | reflexivity].
Defined.

(** At 10 percent a step is still a step. *)
Lemma mouse_amount_bounded_witness :
  exists cs,
    out (lyra_kbd_process_mouse slow_mouse) = out slow_mouse ++ cs /\
    Forall (fun c => forall code v, c = ReportRel mouse_input code v ->
              1 <= Z.abs v <= 640 /\
              (code = REL_X -> Z.abs v <= 5 * Z.abs (s8 1)) /\
              (code = REL_Y -> Z.abs v <= 5 * Z.abs (s8 255))) cs.
Proof.
  apply (mouse_amount_bounded slow_mouse);
    [apply Z.leb_le; reflexivity | apply Z.leb_le; reflexivity
    | cbn; lia | cbn; lia].
Defined.


(** On a dead bus the power-button state stays released. *)
Lemma tick_without_power_interrupt_witness :
  power_btn_pressed (kbd (lyra_kbd_poll_work dead_bus)) = false.
Proof.
  destruct (tick_without_power_interrupt dead_bus) as (Hp & _);
    [left; reflexivity |].
  exact Hp.
Defined.

(** The tick of the sample tap stays within the alphabet. *)
Lemma tick_reports_within_alphabet_witness :
  exists cs,
    out (lyra_kbd_poll_work tap_5) = out tap_5 ++ cs /\
    Forall tick_alphabet cs /\
    (forall code value, ReportKey mouse_input code value ∉ cs) /\
    (forall d code, ReportRel d code 0 ∉ cs).
Proof. exact (tick_reports_within_alphabet tap_5 probe_press_state_ok). Defined.


(** The sample tap: KEY_9 down and up, though shift came in between. *)
Lemma tap_through_tick_witness :
  out (lyra_kbd_poll_work tap_5) =
    key_report 5 KEY_9 true ++ key_report 5 KEY_9 false /\
  kbd (lyra_kbd_poll_work tap_5) = probe_kbd.
Proof.
  destruct (tap_through_tick 5 tap_5) as (Ho & Hk & _);
    [unfold MAX_KEYCODES; lia | reflexivity | reflexivity | reflexivity
    | apply Z.leb_le; reflexivity | reflexivity | reflexivity | reflexivity
    | reflexivity | reflexivity | apply Z.leb_le; reflexivity | reflexivity
    | apply Z.leb_le; reflexivity | apply Z.leb_le; reflexivity | reflexivity |].
  split; [rewrite Ho; reflexivity | exact Hk].
Defined.

(** A tick, a write of 50 to the interval, a tick, from the state probe
    leaves: the tunables stay in range and the work is armed twice. *)
Lemma operations_keep_invariants_witness :
  let w' := run_ops reads_50 reads_50
              [Tick; StoreInterval "50" 3; Tick] all_zero in
  config_ok (kbd w') /\
  exists ts,
    timer w' = timer all_zero ++ ts /\ length ts = 2%nat /\
    Forall (fun t => 5 <= t <= 100) ts.
Proof.
  destruct (operations_keep_invariants reads_50 reads_50
              [Tick; StoreInterval "50" 3; Tick] all_zero)
    as (_ & Hc & Ht & _); [exact probe_press_state_ok | exact probe_config_ok |].
  exact (conj Hc Ht).
Defined.

(** After a write of 50 to the X speed, a delta of 3 moves by 1. *)
Lemma stored_speed_scales_next_motion_witness :
  out (lyra_kbd_process_mouse
         (step reads_50 reads_50
            (probe_world (fun _ reg => if reg =? REG_MOUSE_X then 3 else 0))
            (StoreSpeedX "50" 3))) =
    [ReportRel mouse_input REL_X 1; Sync mouse_input].
Proof.
  rewrite (stored_speed_scales_next_motion reads_50 reads_50 "50" 3 50);
    [reflexivity | reflexivity | lia | apply Z.leb_le; reflexivity
    | apply Z.leb_le; reflexivity | discriminate].
Defined.

(** On a dead bus the mouse processor stops at the X delta. *)
Lemma mouse_read_failure_reports_nothing_witness :
  out (lyra_kbd_process_mouse dead_bus) = [] /\
  reads (lyra_kbd_process_mouse dead_bus) = [(REG_MOUSE_X, -5)].
Proof.
  destruct (mouse_read_failure_reports_nothing dead_bus) as (_ & Hx & _).
  apply Hx. reflexivity.
Defined.

(** With a kernel where nothing fails the setup returns 0; when the
    registration of the mouse fails with -16 the keyboard stays
    registered. *)
Lemma setup_input_devices_outcomes_witness :
  fst (lyra_kbd_setup_input_devices all_good no_devices) = 0 /\
  fst (lyra_kbd_setup_input_devices
         (mk_answers true true true 0 true (-16) 0) no_devices) = -16 /\
  length (registered (snd (lyra_kbd_setup_input_devices
         (mk_answers true true true 0 true (-16) 0) no_devices))) = 1%nat.
Proof.
  split.
  - destruct (setup_input_devices_outcomes all_good) as ((_ & H) & _).
    apply H. repeat split.
  - destruct (setup_input_devices_outcomes
                (mk_answers true true true 0 true (-16) 0))
      as (_ & _ & _ & _ & H).
    destruct H as (Hr & _ & kd & _ & Hreg);
      [reflexivity | reflexivity | right; discriminate |].
    split; [exact Hr | rewrite Hreg; reflexivity].
Defined.

(** With a kernel where nothing fails probe returns 0 and arms the first
    tick; without the SMBus byte transfers it returns -EIO. *)
Lemma probe_outcomes_witness :
  fst (fst (lyra_kbd_probe all_good all_zero)) = 0 /\
  timer (snd (fst (lyra_kbd_probe all_good all_zero))) = [POLL_INTERVAL_MS] /\
  fst (fst (lyra_kbd_probe (mk_answers false true true 0 true 0 0) all_zero)) = - EIO.
Proof.
  destruct (probe_outcomes all_good all_zero) as ((_ & H0) & _ & Hok & _).
  assert (Hz : fst (fst (lyra_kbd_probe all_good all_zero)) = 0)
    by (apply H0; repeat split).
  destruct (Hok Hz) as (_ & _ & _ & Ht & _).
  split; [exact Hz|]. split; [exact Ht|].
  destruct (probe_outcomes (mk_answers false true true 0 true 0 0) all_zero)
    as (_ & _ & _ & He & _).
  apply He. reflexivity.
Defined.
